(** * ESP32-MutexGuard: scope guards over FreeRTOS mutexes

    A shallow embedding of [src/MutexGuard.{h,cpp}] and
    [src/RecursiveMutexGuard.{h,cpp}].

    The guards are two small C++ classes.  Each holds a mutex handle and a
    flag, takes the mutex in its constructor and gives it back in [unlock()]
    or in its destructor.  Everything the guards do to the outside goes
    through five FreeRTOS entry points and the ESP-IDF log macros, so the
    embedding is a state-and-writer monad over an abstract kernel state:
    every method is a function from the kernel state at the call to the
    value it leaves, the kernel state afterwards and the list of kernel
    calls and log lines it made, in program order. *)

From Stdlib Require Import ZArith NArith String List Bool Lia.
From stdpp Require Import base option list gmap pretty.
Import ListNotations.

#[local] Open Scope Z_scope.
#[local] Open Scope string_scope.
#[local] Open Scope list_scope.

(** ** FreeRTOS and ESP-IDF types *)

(** [SemaphoreHandle_t] is a pointer to a queue object; the model keeps the
    address, and [nullptr] is address zero. *)
Abbreviation SemaphoreHandle_t := N (only parsing).
Definition nullptr : SemaphoreHandle_t := 0%N.

(** [TickType_t] is an unsigned tick count; the guards only pass it on. *)
Abbreviation TickType_t := N (only parsing).

(** [BaseType_t] with the two values the semaphore calls return. *)
Abbreviation BaseType_t := Z (only parsing).
Definition pdTRUE : BaseType_t := 1.
Definition pdFALSE : BaseType_t := 0.

Inductive esp_log_level_t : Type :=
| ESP_LOG_NONE
| ESP_LOG_ERROR
| ESP_LOG_WARN
| ESP_LOG_INFO
| ESP_LOG_DEBUG
| ESP_LOG_VERBOSE.

#[export] Instance esp_log_level_eq_dec : EqDecision esp_log_level_t.
Proof. solve_decision. Defined.

(** ** What a guard does to its environment *)

(** One entry per kernel call or log line.  The semaphore calls carry the
    handle they were given and the [BaseType_t] they returned; a log entry
    carries level, tag and the formatted text. *)
Inductive Event : Type :=
| EvTake (h : SemaphoreHandle_t) (ticks : TickType_t) (r : BaseType_t)
| EvGive (h : SemaphoreHandle_t) (r : BaseType_t)
| EvTakeRecursive (h : SemaphoreHandle_t) (ticks : TickType_t) (r : BaseType_t)
| EvGiveRecursive (h : SemaphoreHandle_t) (r : BaseType_t)
| EvLog (level : esp_log_level_t) (tag : string) (text : string).

#[export] Instance Event_eq_dec : EqDecision Event.
Proof. solve_decision. Defined.

(** The kernel as the guards see it: the ISR query and the four semaphore
    calls, over a kernel state [W] the guards know nothing about. *)
Class FreeRTOS (W : Type) : Type := {
  xPortInIsrContext : W -> bool;
  xSemaphoreTake : SemaphoreHandle_t -> TickType_t -> W -> BaseType_t * W;
  xSemaphoreGive : SemaphoreHandle_t -> W -> BaseType_t * W;
  xSemaphoreTakeRecursive :
    SemaphoreHandle_t -> TickType_t -> W -> BaseType_t * W;
  xSemaphoreGiveRecursive : SemaphoreHandle_t -> W -> BaseType_t * W
}.

(** The two build switches of the logging headers that the .cpp files
    depend on: [MUTEX_GUARD_LOG] and [RECURSIVE_MUTEX_GUARD_LOG] expand to an
    info line when their switch is defined and to [((void)0)] otherwise. *)
Class BuildFlags : Type := {
  MUTEX_GUARD_DEBUG : bool;
  RECURSIVE_MUTEX_GUARD_DEBUG : bool
}.

(** ** The monad *)

Record Out (W A : Type) : Type := mkOut {
  value : A;            (* what the call returns / leaves in [*this] *)
  world : W;            (* kernel state after the call *)
  calls : list Event    (* kernel calls and log lines, in order *)
}.
Arguments mkOut {W A} _ _ _.
Arguments value {W A} _.
Arguments world {W A} _.
Arguments calls {W A} _.

Definition M (W A : Type) : Type := W -> Out W A.

Definition ret {W A} (a : A) : M W A :=
  fun w => mkOut a w [].

Definition bind {W A B} (c : M W A) (k : A -> M W B) : M W B :=
  fun w =>
    let o1 := c w in
    let o2 := k (value o1) (world o1) in
    mkOut (value o2) (world o2) (calls o1 ++ calls o2).

Declare Scope guard_scope.
Delimit Scope guard_scope with guard.
Notation "x <- c ;; k" := (bind c (fun x => k))
  (at level 100, c at next level, right associativity) : guard_scope.
Notation "c ;; k" := (bind c (fun _ => k))
  (at level 100, right associativity) : guard_scope.
#[local] Open Scope guard_scope.

Section Primitives.
Context {W : Type} {R : FreeRTOS W}.

Definition emit (e : Event) : M W unit :=
  fun w => mkOut tt w [e].

Definition inIsr : M W bool :=
  fun w => mkOut (xPortInIsrContext w) w [].

Definition take (h : SemaphoreHandle_t) (ticks : TickType_t) : M W BaseType_t :=
  fun w => let r := xSemaphoreTake h ticks w in
           mkOut (fst r) (snd r) [EvTake h ticks (fst r)].

Definition give (h : SemaphoreHandle_t) : M W BaseType_t :=
  fun w => let r := xSemaphoreGive h w in
           mkOut (fst r) (snd r) [EvGive h (fst r)].

Definition takeRecursive (h : SemaphoreHandle_t) (ticks : TickType_t)
  : M W BaseType_t :=
  fun w => let r := xSemaphoreTakeRecursive h ticks w in
           mkOut (fst r) (snd r) [EvTakeRecursive h ticks (fst r)].

Definition giveRecursive (h : SemaphoreHandle_t) : M W BaseType_t :=
  fun w => let r := xSemaphoreGiveRecursive h w in
           mkOut (fst r) (snd r) [EvGiveRecursive h (fst r)].

(** [ESP_LOGx(tag, ...)]: one line to the log sink. *)
Definition ESP_LOG (level : esp_log_level_t) (tag text : string) : M W unit :=
  emit (EvLog level tag text).
End Primitives.

(** ** Using a guard

    What the owner of a guard can do between construction and destruction:
    the const queries, [unlock()], and, between two calls, anything at all
    happening to the kernel (other tasks running, an interrupt handler being
    entered or left).  Copying and moving are deleted in both classes, so
    there is nothing else. *)
Inductive Step (W : Type) : Type :=
| CallHasLock
| CallIsValid
| CallBool
| CallUnlock
| Env (f : W -> W).
Arguments CallHasLock {W}.
Arguments CallIsValid {W}.
Arguments CallBool {W}.
Arguments CallUnlock {W}.
Arguments Env {W} f.

Definition env {W A} (f : W -> W) (a : A) : M W A :=
  fun w => mkOut a (f w) [].

(** ** MutexGuard (MutexGuard.h, MutexGuard.cpp) *)

Module MutexGuard.
Section Methods.
Context {W : Type} {R : FreeRTOS W} {F : BuildFlags}.

(** The two private members. *)
Record MutexGuard : Type := {
  m_handle : SemaphoreHandle_t;
  m_taken : bool
}.

(* MutexGuardLogging.h *)
Definition MUTEXG_LOG_TAG : string := "MutexGuard".
Definition MUTEXG_LOG_E (text : string) : M W unit :=
  ESP_LOG ESP_LOG_ERROR MUTEXG_LOG_TAG text.
Definition MUTEXG_LOG_W (text : string) : M W unit :=
  ESP_LOG ESP_LOG_WARN MUTEXG_LOG_TAG text.
Definition MUTEXG_LOG_I (text : string) : M W unit :=
  ESP_LOG ESP_LOG_INFO MUTEXG_LOG_TAG text.
Definition MUTEX_GUARD_LOG (text : string) : M W unit :=
  if MUTEX_GUARD_DEBUG then MUTEXG_LOG_I text else ret tt.

(** [MutexGuard::MutexGuard(handle, timeout)].  The member initialisers
    come first; each [return] of the body yields the object as it then
    is. *)
Definition ctor (handle : SemaphoreHandle_t) (timeout : TickType_t)
  : M W MutexGuard :=
  let this := {| m_handle := handle; m_taken := false |} in
  if (m_handle this =? nullptr)%N then
    MUTEXG_LOG_W "Attempted to create MutexGuard with null handle" ;;
    ret this
  else
    isr <- inIsr ;;
    if isr then
      MUTEXG_LOG_E "Cannot use MutexGuard from ISR context" ;;
      ret {| m_handle := nullptr; m_taken := m_taken this |}
    else
      r <- take (m_handle this) timeout ;;
      let this := {| m_handle := m_handle this;
                     m_taken := (r =? pdTRUE)%Z |} in
      MUTEX_GUARD_LOG
        ("Mutex " ++ (if m_taken this then "locked"
                      else "failed to lock (timeout)")) ;;
      ret this.

(** [void MutexGuard::unlock() noexcept]; the value is [*this] after the
    call. *)
Definition unlock (this : MutexGuard) : M W MutexGuard :=
  if m_taken this && negb (m_handle this =? nullptr)%N then
    isr <- inIsr ;;
    if isr then
      MUTEXG_LOG_E "Cannot unlock mutex from ISR context" ;;
      ret this
    else
      give (m_handle this) ;;
      let this := {| m_handle := m_handle this; m_taken := false |} in
      MUTEX_GUARD_LOG "Mutex unlocked" ;;
      ret this
  else ret this.

(** [MutexGuard::~MutexGuard()]; the value is the object as the body of
    the destructor leaves it. *)
Definition dtor (this : MutexGuard) : M W MutexGuard :=
  unlock this.

Definition hasLock (this : MutexGuard) : bool := m_taken this.

Definition isValid (this : MutexGuard) : bool :=
  negb (m_handle this =? nullptr)%N.

(** [explicit operator bool() const] *)
Definition operator_bool (this : MutexGuard) : bool := hasLock this.

(** The class invariant: an object without a handle does not claim the
    lock. *)
Definition wf (this : MutexGuard) : Prop :=
  m_handle this = nullptr -> m_taken this = false.

(** One step of the owner's code on the object [this]. *)
Definition step (s : Step W) (this : MutexGuard) : M W MutexGuard :=
  match s with
  | CallHasLock => let _ := hasLock this in ret this
  | CallIsValid => let _ := isValid this in ret this
  | CallBool => let _ := operator_bool this in ret this
  | CallUnlock => unlock this
  | Env f => env f this
  end.

Fixpoint run (script : list (Step W)) (this : MutexGuard) : M W MutexGuard :=
  match script with
  | [] => ret this
  | s :: rest => this' <- step s this ;; run rest this'
  end.

(** A whole life: the constructor, the code of the governed scope up to
    the point where the scope is left (by falling off its end, by an early
    [return] or by unwinding), and the destructor, which C++ runs on each
    of these exits. *)
Definition lifetime (handle : SemaphoreHandle_t) (timeout : TickType_t)
    (script : list (Step W)) : M W MutexGuard :=
  this <- ctor handle timeout ;;
  this' <- run script this ;;
  dtor this'.
End Methods.
End MutexGuard.

(** ** RecursiveMutexGuard (RecursiveMutexGuard.h, RecursiveMutexGuard.cpp) *)

Module RecursiveMutexGuard.
Section Methods.
Context {W : Type} {R : FreeRTOS W} {F : BuildFlags}.

Record RecursiveMutexGuard : Type := {
  m_handle : SemaphoreHandle_t;
  m_taken : bool
}.

(* RecursiveMutexGuardLogging.h *)
Definition RMUTEXG_LOG_TAG : string := "RecursiveMutexGuard".
Definition RMUTEXG_LOG_E (text : string) : M W unit :=
  ESP_LOG ESP_LOG_ERROR RMUTEXG_LOG_TAG text.
Definition RMUTEXG_LOG_W (text : string) : M W unit :=
  ESP_LOG ESP_LOG_WARN RMUTEXG_LOG_TAG text.
Definition RMUTEXG_LOG_I (text : string) : M W unit :=
  ESP_LOG ESP_LOG_INFO RMUTEXG_LOG_TAG text.
Definition RECURSIVE_MUTEX_GUARD_LOG (text : string) : M W unit :=
  if RECURSIVE_MUTEX_GUARD_DEBUG then RMUTEXG_LOG_I text else ret tt.

(** [RecursiveMutexGuard::RecursiveMutexGuard(handle, timeout)] *)
Definition ctor (handle : SemaphoreHandle_t) (timeout : TickType_t)
  : M W RecursiveMutexGuard :=
  let this := {| m_handle := handle; m_taken := false |} in
  if (m_handle this =? nullptr)%N then
    RMUTEXG_LOG_W
      "Attempted to create RecursiveMutexGuard with null handle" ;;
    ret this
  else
    isr <- inIsr ;;
    if isr then
      RMUTEXG_LOG_E "Cannot use RecursiveMutexGuard from ISR context" ;;
      ret {| m_handle := nullptr; m_taken := m_taken this |}
    else
      r <- takeRecursive (m_handle this) timeout ;;
      let this := {| m_handle := m_handle this;
                     m_taken := (r =? pdTRUE)%Z |} in
      RECURSIVE_MUTEX_GUARD_LOG
        ("Recursive mutex " ++ (if m_taken this then "locked"
                                else "failed to lock (timeout)")) ;;
      ret this.

(** [void RecursiveMutexGuard::unlock() noexcept] *)
Definition unlock (this : RecursiveMutexGuard) : M W RecursiveMutexGuard :=
  if m_taken this && negb (m_handle this =? nullptr)%N then
    isr <- inIsr ;;
    if isr then
      RMUTEXG_LOG_E "Cannot unlock recursive mutex from ISR context" ;;
      ret this
    else
      giveRecursive (m_handle this) ;;
      let this := {| m_handle := m_handle this; m_taken := false |} in
      RECURSIVE_MUTEX_GUARD_LOG "Recursive mutex unlocked" ;;
      ret this
  else ret this.

(** [RecursiveMutexGuard::~RecursiveMutexGuard()] *)
Definition dtor (this : RecursiveMutexGuard) : M W RecursiveMutexGuard :=
  unlock this.

Definition hasLock (this : RecursiveMutexGuard) : bool := m_taken this.

Definition isValid (this : RecursiveMutexGuard) : bool :=
  negb (m_handle this =? nullptr)%N.

Definition operator_bool (this : RecursiveMutexGuard) : bool := hasLock this.

(** The class invariant: an object without a handle does not claim the
    lock. *)
Definition wf (this : RecursiveMutexGuard) : Prop :=
  m_handle this = nullptr -> m_taken this = false.

(** One step of the owner's code on the object [this]. *)
Definition step (s : Step W) (this : RecursiveMutexGuard) : M W RecursiveMutexGuard :=
  match s with
  | CallHasLock => let _ := hasLock this in ret this
  | CallIsValid => let _ := isValid this in ret this
  | CallBool => let _ := operator_bool this in ret this
  | CallUnlock => unlock this
  | Env f => env f this
  end.

Fixpoint run (script : list (Step W)) (this : RecursiveMutexGuard) : M W RecursiveMutexGuard :=
  match script with
  | [] => ret this
  | s :: rest => this' <- step s this ;; run rest this'
  end.

(** A whole life: the constructor, the code of the governed scope up to
    the point where the scope is left (by falling off its end, by an early
    [return] or by unwinding), and the destructor, which C++ runs on each
    of these exits. *)
Definition lifetime (handle : SemaphoreHandle_t) (timeout : TickType_t)
    (script : list (Step W)) : M W RecursiveMutexGuard :=
  this <- ctor handle timeout ;;
  this' <- run script this ;;
  dtor this'.
End Methods.
End RecursiveMutexGuard.

(** ** A reference kernel *)

(** Modelled from the spec: the mutex primitive, which is FreeRTOS code and
    not part of this repository.  Sections 2, 4.2 and 6 of the specification
    give its interface: a timed acquire that succeeds or times out, a
    release, the recursive variants that count nesting for the owning
    context, and the interrupt-context query.  One context runs at a time
    here, so a mutex that is owned by somebody when the acquire starts is
    still owned when the timeout expires. *)
Module Kernel.
Record State : Type := {
  in_isr : bool;                       (* running an interrupt handler *)
  running : nat;                       (* the task that is running *)
  owners : gmap N (nat * nat)          (* handle -> (owner, depth) *)
}.

Definition boot : State :=
  {| in_isr := false; running := 0%nat; owners := ∅ |}.

Definition set_owners (k : State) (o : gmap N (nat * nat)) : State :=
  {| in_isr := in_isr k; running := running k; owners := o |}.

Definition enter_isr (k : State) : State :=
  {| in_isr := true; running := running k; owners := owners k |}.

Definition leave_isr (k : State) : State :=
  {| in_isr := false; running := running k; owners := owners k |}.

Definition switch_to (task : nat) (k : State) : State :=
  {| in_isr := in_isr k; running := task; owners := owners k |}.

Definition acquire (h : N) (ticks : N) (k : State) : Z * State :=
  match owners k !! h with
  | None => (pdTRUE, set_owners k (<[h := (running k, 1%nat)]> (owners k)))
  | Some _ => (pdFALSE, k)
  end.

Definition release (h : N) (k : State) : Z * State :=
  match owners k !! h with
  | Some (task, _) =>
      if (task =? running k)%nat
      then (pdTRUE, set_owners k (delete h (owners k)))
      else (pdFALSE, k)
  | None => (pdFALSE, k)
  end.

Definition acquire_recursive (h : N) (ticks : N) (k : State) : Z * State :=
  match owners k !! h with
  | None => (pdTRUE, set_owners k (<[h := (running k, 1%nat)]> (owners k)))
  | Some (task, depth) =>
      if (task =? running k)%nat
      then (pdTRUE, set_owners k (<[h := (task, S depth)]> (owners k)))
      else (pdFALSE, k)
  end.

Definition release_recursive (h : N) (k : State) : Z * State :=
  match owners k !! h with
  | Some (task, S (S depth)) =>
      if (task =? running k)%nat
      then (pdTRUE, set_owners k (<[h := (task, S depth)]> (owners k)))
      else (pdFALSE, k)
  | Some (task, _) =>
      if (task =? running k)%nat
      then (pdTRUE, set_owners k (delete h (owners k)))
      else (pdFALSE, k)
  | None => (pdFALSE, k)
  end.

#[global] Instance rtos : FreeRTOS State := {|
  xPortInIsrContext := in_isr;
  xSemaphoreTake := acquire;
  xSemaphoreGive := release;
  xSemaphoreTakeRecursive := acquire_recursive;
  xSemaphoreGiveRecursive := release_recursive
|}.

(** The default build: neither debug switch is defined. *)
Definition release_build : BuildFlags :=
  {| MUTEX_GUARD_DEBUG := false; RECURSIVE_MUTEX_GUARD_DEBUG := false |}.

(** A debug build: both switches are given to the compiler. *)
Definition debug_build : BuildFlags :=
  {| MUTEX_GUARD_DEBUG := true; RECURSIVE_MUTEX_GUARD_DEBUG := true |}.
End Kernel.

(** ** Reading a call list *)

Definition is_acquire (e : Event) : bool :=
  match e with
  | EvTake _ _ _ | EvTakeRecursive _ _ _ => true
  | _ => false
  end.

Definition is_release (e : Event) : bool :=
  match e with
  | EvGive _ _ | EvGiveRecursive _ _ => true
  | _ => false
  end.

Definition is_semaphore_call (e : Event) : bool :=
  is_acquire e || is_release e.

Definition is_error (e : Event) : bool :=
  match e with
  | EvLog ESP_LOG_ERROR _ _ => true
  | _ => false
  end.

Definition is_diagnostic (e : Event) : bool :=
  match e with
  | EvLog ESP_LOG_ERROR _ _ | EvLog ESP_LOG_WARN _ _ => true
  | _ => false
  end.

Definition acquisitions (l : list Event) : list Event := List.filter is_acquire l.
Definition releases (l : list Event) : list Event := List.filter is_release l.
Definition semaphore_calls (l : list Event) : list Event :=
  List.filter is_semaphore_call l.
Definition errors (l : list Event) : list Event := List.filter is_error l.
Definition diagnostics (l : list Event) : list Event :=
  List.filter is_diagnostic l.

(** ** What a guard built over [handle] has done so far

    The relation between the flag of an object and the semaphore calls made
    through it since its construction began: with the flag set, exactly the
    one successful take; with the flag clear, nothing, or a take that
    failed, or the successful take followed by its one give. *)

Definition tracked (handle timeout : N) (this : MutexGuard.MutexGuard)
    (sofar : list Event) : Prop :=
  (MutexGuard.m_handle this = handle \/ MutexGuard.m_handle this = nullptr)
  /\
  if MutexGuard.m_taken this then
    MutexGuard.m_handle this = handle /\ handle <> nullptr
    /\ semaphore_calls sofar = [EvTake handle timeout pdTRUE]
  else
    semaphore_calls sofar = []
    \/ (exists r, r <> pdTRUE /\ handle <> nullptr
                  /\ MutexGuard.m_handle this = handle
                  /\ semaphore_calls sofar = [EvTake handle timeout r])
    \/ (exists r, handle <> nullptr /\ MutexGuard.m_handle this = handle
                  /\ semaphore_calls sofar
                     = [EvTake handle timeout pdTRUE; EvGive handle r]).

Definition rec_tracked (handle timeout : N)
    (this : RecursiveMutexGuard.RecursiveMutexGuard)
    (sofar : list Event) : Prop :=
  (RecursiveMutexGuard.m_handle this = handle
   \/ RecursiveMutexGuard.m_handle this = nullptr)
  /\
  if RecursiveMutexGuard.m_taken this then
    RecursiveMutexGuard.m_handle this = handle /\ handle <> nullptr
    /\ semaphore_calls sofar = [EvTakeRecursive handle timeout pdTRUE]
  else
    semaphore_calls sofar = []
    \/ (exists r, r <> pdTRUE /\ handle <> nullptr
                  /\ RecursiveMutexGuard.m_handle this = handle
                  /\ semaphore_calls sofar
                     = [EvTakeRecursive handle timeout r])
    \/ (exists r, handle <> nullptr
                  /\ RecursiveMutexGuard.m_handle this = handle
                  /\ semaphore_calls sofar
                     = [EvTakeRecursive handle timeout pdTRUE;
                        EvGiveRecursive handle r]).

(** ** The recursive guard as the specification describes it

    Section 4.2 of the specification defines the recursive guard as the
    guard of section 4.1 with the recursive acquire and release in place of
    the plain ones.  Said in the terms of this file: [MutexGuard], run on a
    kernel whose plain entry points are the recursive ones, with the debug
    switch of the recursive header, and with the names in its calls and log
    lines changed accordingly. *)

Definition recursive_primitives {W} (R : FreeRTOS W) : FreeRTOS W := {|
  xPortInIsrContext := @xPortInIsrContext W R;
  xSemaphoreTake := @xSemaphoreTakeRecursive W R;
  xSemaphoreGive := @xSemaphoreGiveRecursive W R;
  xSemaphoreTakeRecursive := @xSemaphoreTakeRecursive W R;
  xSemaphoreGiveRecursive := @xSemaphoreGiveRecursive W R
|}.

Definition recursive_flags (F : BuildFlags) : BuildFlags := {|
  MUTEX_GUARD_DEBUG := @RECURSIVE_MUTEX_GUARD_DEBUG F;
  RECURSIVE_MUTEX_GUARD_DEBUG := @RECURSIVE_MUTEX_GUARD_DEBUG F
|}.

Definition recursive_tag (tag : string) : string :=
  if String.eqb tag "MutexGuard" then "RecursiveMutexGuard" else tag.

Definition recursive_text (text : string) : string :=
  if String.eqb text "Attempted to create MutexGuard with null handle"
  then "Attempted to create RecursiveMutexGuard with null handle"
  else if String.eqb text "Cannot use MutexGuard from ISR context"
  then "Cannot use RecursiveMutexGuard from ISR context"
  else if String.eqb text "Mutex locked"
  then "Recursive mutex locked"
  else if String.eqb text "Mutex failed to lock (timeout)"
  then "Recursive mutex failed to lock (timeout)"
  else if String.eqb text "Cannot unlock mutex from ISR context"
  then "Cannot unlock recursive mutex from ISR context"
  else if String.eqb text "Mutex unlocked"
  then "Recursive mutex unlocked"
  else text.

Definition recursive_variant (e : Event) : Event :=
  match e with
  | EvTake h ticks r => EvTakeRecursive h ticks r
  | EvGive h r => EvGiveRecursive h r
  | EvLog level tag text => EvLog level (recursive_tag tag) (recursive_text text)
  | _ => e
  end.

(** The same two members, in the other class. *)
Definition as_recursive (g : MutexGuard.MutexGuard)
  : RecursiveMutexGuard.RecursiveMutexGuard :=
  {| RecursiveMutexGuard.m_handle := MutexGuard.m_handle g;
     RecursiveMutexGuard.m_taken := MutexGuard.m_taken g |}.

Definition out_as_recursive {W} (o : Out W MutexGuard.MutexGuard)
  : Out W RecursiveMutexGuard.RecursiveMutexGuard :=
  mkOut (as_recursive (value o)) (world o) (map recursive_variant (calls o)).

(** The recursive guard of section 4.2, method by method. *)
Module SubstitutedGuard.
Section Methods.
Context {W : Type} (R : FreeRTOS W) (F : BuildFlags).

Definition ctor (handle : SemaphoreHandle_t) (timeout : TickType_t)
  : M W RecursiveMutexGuard.RecursiveMutexGuard :=
  fun w => out_as_recursive
             (MutexGuard.ctor (R := recursive_primitives R)
                (F := recursive_flags F) handle timeout w).

Definition unlock (this : MutexGuard.MutexGuard)
  : M W RecursiveMutexGuard.RecursiveMutexGuard :=
  fun w => out_as_recursive
             (MutexGuard.unlock (R := recursive_primitives R)
                (F := recursive_flags F) this w).

Definition dtor (this : MutexGuard.MutexGuard)
  : M W RecursiveMutexGuard.RecursiveMutexGuard :=
  fun w => out_as_recursive
             (MutexGuard.dtor (R := recursive_primitives R)
                (F := recursive_flags F) this w).

Definition step (s : Step W) (this : MutexGuard.MutexGuard)
  : M W RecursiveMutexGuard.RecursiveMutexGuard :=
  fun w => out_as_recursive
             (MutexGuard.step (R := recursive_primitives R)
                (F := recursive_flags F) s this w).

Definition run (script : list (Step W)) (this : MutexGuard.MutexGuard)
  : M W RecursiveMutexGuard.RecursiveMutexGuard :=
  fun w => out_as_recursive
             (MutexGuard.run (R := recursive_primitives R)
                (F := recursive_flags F) script this w).

Definition lifetime (handle : SemaphoreHandle_t) (timeout : TickType_t)
    (script : list (Step W)) : M W RecursiveMutexGuard.RecursiveMutexGuard :=
  fun w => out_as_recursive
             (MutexGuard.lifetime (R := recursive_primitives R)
                (F := recursive_flags F) handle timeout script w).
End Methods.
End SubstitutedGuard.

(** ** The lines [MUTEX_GUARD_LOG] and [RECURSIVE_MUTEX_GUARD_LOG] add *)

Section DebugLines.
Context {F : BuildFlags}.

Definition lock_line (taken : bool) : list Event :=
  if MUTEX_GUARD_DEBUG then
    [EvLog ESP_LOG_INFO "MutexGuard"
       (if taken then "Mutex locked" else "Mutex failed to lock (timeout)")]
  else [].

Definition unlock_line : list Event :=
  if MUTEX_GUARD_DEBUG then [EvLog ESP_LOG_INFO "MutexGuard" "Mutex unlocked"]
  else [].

Definition recursive_lock_line (taken : bool) : list Event :=
  if RECURSIVE_MUTEX_GUARD_DEBUG then
    [EvLog ESP_LOG_INFO "RecursiveMutexGuard"
       (if taken then "Recursive mutex locked"
        else "Recursive mutex failed to lock (timeout)")]
  else [].

Definition recursive_unlock_line : list Event :=
  if RECURSIVE_MUTEX_GUARD_DEBUG then
    [EvLog ESP_LOG_INFO "RecursiveMutexGuard" "Recursive mutex unlocked"]
  else [].
End DebugLines.

(** ** ThreadSafeBuffer (examples/basic_usage.cpp)

    The ring buffer of the example, whose three methods each run under a
    [MutexGuard] over the buffer's own mutex. *)

(** [pdMS_TO_TICKS] is a FreeRTOS macro over [configTICK_RATE_HZ]; neither
    is in this repository, so the conversion is a parameter. *)
Class FreeRTOSConfig : Type := {
  pdMS_TO_TICKS : N -> N
}.

Module ThreadSafeBuffer.
Section Methods.
Context {W : Type} {R : FreeRTOS W} {F : BuildFlags} {C : FreeRTOSConfig}.

Definition BUFFER_SIZE : Z := 10.

(** [size_t] arithmetic is modulo 2^32 on the ESP32. *)
Definition size_t (z : Z) : Z := z mod 2 ^ 32.

(** The private members.  [buffer] is the array of [BUFFER_SIZE] ints; an
    [int] is only stored and read back, never computed with. *)
Record ThreadSafeBuffer : Type := {
  buffer : list Z;
  writeIndex : Z;
  readIndex : Z;
  count : Z;
  mutex : SemaphoreHandle_t
}.

(** [ThreadSafeBuffer()].  [created] is what [xSemaphoreCreateMutex()]
    returned, which is null when the kernel is out of memory. *)
Definition ctor (created : SemaphoreHandle_t) : ThreadSafeBuffer :=
  {| buffer := replicate (Z.to_nat BUFFER_SIZE) 0;
     writeIndex := 0; readIndex := 0; count := 0;
     mutex := created |}.

(** [buffer[i]], for [i] inside the array. *)
Definition at_index (this : ThreadSafeBuffer) (i : Z) : Z :=
  nth (Z.to_nat i) (buffer this) 0.

(** [bool push(int value)].  Each [return] runs the destructor of [lock]. *)
Definition push (this : ThreadSafeBuffer) (value : Z)
  : M W (bool * ThreadSafeBuffer) :=
  lock <- MutexGuard.ctor (mutex this) (pdMS_TO_TICKS 100) ;;
  if negb (MutexGuard.operator_bool lock) then
    MutexGuard.dtor lock ;; ret (false, this)
  else if (BUFFER_SIZE <=? count this)%Z then
    MutexGuard.dtor lock ;; ret (false, this)
  else
    let this :=
      {| buffer := <[Z.to_nat (writeIndex this) := value]> (buffer this);
         writeIndex := size_t (writeIndex this + 1) mod BUFFER_SIZE;
         readIndex := readIndex this;
         count := size_t (count this + 1);
         mutex := mutex this |} in
    MutexGuard.dtor lock ;; ret (true, this).

(** [bool pop(int& value)].  The second component of the result is what the
    reference holds afterwards. *)
Definition pop (this : ThreadSafeBuffer) (value : Z)
  : M W (bool * Z * ThreadSafeBuffer) :=
  lock <- MutexGuard.ctor (mutex this) (pdMS_TO_TICKS 100) ;;
  if negb (MutexGuard.operator_bool lock) then
    MutexGuard.dtor lock ;; ret (false, value, this)
  else if (count this =? 0)%Z then
    MutexGuard.dtor lock ;; ret (false, value, this)
  else
    let value := at_index this (readIndex this) in
    let this :=
      {| buffer := buffer this;
         writeIndex := writeIndex this;
         readIndex := size_t (readIndex this + 1) mod BUFFER_SIZE;
         count := size_t (count this - 1);
         mutex := mutex this |} in
    MutexGuard.dtor lock ;; ret (true, value, this).

(** [size_t size()], with the default timeout of the guard's constructor. *)
Definition size (this : ThreadSafeBuffer) : M W Z :=
  lock <- MutexGuard.ctor (mutex this) (pdMS_TO_TICKS 100) ;;
  let result := if MutexGuard.operator_bool lock then count this else 0 in
  MutexGuard.dtor lock ;; ret result.

(** The representation invariant: the array has its ten cells, the read
    index is inside it, at most ten elements are stored, and the write
    index is where the next element goes. *)
Definition wf (this : ThreadSafeBuffer) : Prop :=
  length (buffer this) = Z.to_nat BUFFER_SIZE
  /\ 0 <= readIndex this < BUFFER_SIZE
  /\ 0 <= count this <= BUFFER_SIZE
  /\ writeIndex this = (readIndex this + count this) mod BUFFER_SIZE.

(** The elements stored, oldest first. *)
Definition contents (this : ThreadSafeBuffer) : list Z :=
  map (fun i => at_index this ((readIndex this + Z.of_nat i) mod BUFFER_SIZE))
      (seq 0 (Z.to_nat (count this))).

(** The object after the three assignments of [push], and after the two of
    [pop]. *)
Definition pushed (this : ThreadSafeBuffer) (value : Z) : ThreadSafeBuffer :=
  {| buffer := <[Z.to_nat (writeIndex this) := value]> (buffer this);
     writeIndex := size_t (writeIndex this + 1) mod BUFFER_SIZE;
     readIndex := readIndex this;
     count := size_t (count this + 1);
     mutex := mutex this |}.

Definition popped (this : ThreadSafeBuffer) : ThreadSafeBuffer :=
  {| buffer := buffer this;
     writeIndex := writeIndex this;
     readIndex := size_t (readIndex this + 1) mod BUFFER_SIZE;
     count := size_t (count this - 1);
     mutex := mutex this |}.

(** The guard that a method call made in kernel state [w] builds. *)
Definition lock_of (this : ThreadSafeBuffer) (w : W)
  : Out W MutexGuard.MutexGuard :=
  MutexGuard.ctor (mutex this) (pdMS_TO_TICKS 100) w.

(** The life of that guard: built, tested once, destroyed. *)
Definition guard_life (this : ThreadSafeBuffer) (w : W)
  : Out W MutexGuard.MutexGuard :=
  MutexGuard.lifetime (mutex this) (pdMS_TO_TICKS 100) [CallBool] w.

(** Calls on a buffer, and what they return. *)
Inductive Op : Type :=
| Push (value : Z)
| Pop (value : Z)
| Size.

Inductive Answer : Type :=
| Pushed (ok : bool)
| Popped (ok : bool) (value : Z)
| Sized (n : Z).

Definition call (op : Op) (this : ThreadSafeBuffer)
  : M W (Answer * ThreadSafeBuffer) :=
  match op with
  | Push value =>
      r <- push this value ;; ret (Pushed (fst r), snd r)
  | Pop value =>
      r <- pop this value ;; ret (Popped (fst (fst r)) (snd (fst r)), snd r)
  | Size =>
      n <- size this ;; ret (Sized n, this)
  end.

Fixpoint calls_in_turn (ops : list Op) (this : ThreadSafeBuffer)
  : M W (list Answer * ThreadSafeBuffer) :=
  match ops with
  | [] => ret ([], this)
  | op :: rest =>
      r <- call op this ;;
      rs <- calls_in_turn rest (snd r) ;;
      ret (fst r :: fst rs, snd rs)
  end.

(** A bounded first-in first-out queue, to compare with: what a call
    answers and leaves when the queue holds [q] and the lock was or was not
    obtained. *)
Definition queue_call (locked : bool) (op : Op) (q : list Z)
  : Answer * list Z :=
  match op with
  | Push value =>
      if locked && (Z.of_nat (length q) <? BUFFER_SIZE)%Z
      then (Pushed true, q ++ [value]) else (Pushed false, q)
  | Pop value =>
      match q with
      | oldest :: rest =>
          if locked then (Popped true oldest, rest)
          else (Popped false value, q)
      | [] => (Popped false value, q)
      end
  | Size => (Sized (if locked then Z.of_nat (length q) else 0), q)
  end.
(** Whether each call of a run obtained the lock. *)
Fixpoint locks_in_turn (ops : list Op) (this : ThreadSafeBuffer) (w : W)
  : list bool :=
  match ops with
  | [] => []
  | op :: rest =>
      MutexGuard.hasLock (value (lock_of this w))
        :: locks_in_turn rest (snd (value (call op this w)))
             (world (call op this w))
  end.

(** The queue run over the same calls, given which of them had the lock. *)
Fixpoint queue_calls (locks : list bool) (ops : list Op) (q : list Z)
  : list Answer * list Z :=
  match ops, locks with
  | op :: rest, locked :: locks' =>
      let r := queue_call locked op q in
      let rs := queue_calls locks' rest (snd r) in
      (fst r :: fst rs, snd rs)
  | _, _ => ([], q)
  end.

(** An answer that says no: a push or pop returning false, a size of 0. *)
Definition refused (a : Answer) : bool :=
  match a with
  | Pushed ok => negb ok
  | Popped ok _ => negb ok
  | Sized n => (n =? 0)%Z
  end.
End Methods.
End ThreadSafeBuffer.

(** ** The sketch functions of examples/basic_usage.cpp *)

(** What the sketch uses of the Arduino core and of the rest of the
    program, as effects on the same kernel state: bytes written to the
    serial port, a task delay during which anything may run, and a read of
    the volatile global [sharedCounter]. *)
Class Arduino (W : Type) : Type := {
  Serial_write : string -> W -> W;
  vTaskDelay : TickType_t -> W -> W;
  sharedCounter : W -> Z
}.

(** The two global handles, assigned in [setup()]. *)
Class Globals : Type := {
  dataMutex : SemaphoreHandle_t;
  recursiveMutex : SemaphoreHandle_t
}.

Module Sketch.
Section Functions.
Context {W : Type} {R : FreeRTOS W} {F : BuildFlags} {C : FreeRTOSConfig}
        {A : Arduino W} {G : Globals}.

Definition LF : string := String (Ascii.ascii_of_nat 10) EmptyString.
Definition CRLF : string :=
  String (Ascii.ascii_of_nat 13) (String (Ascii.ascii_of_nat 10) EmptyString).

(** [int] is 32 bits wide, two's complement. *)
Definition int (z : Z) : Z := (z + 2 ^ 31) mod 2 ^ 32 - 2 ^ 31.
Definition INT_MIN : Z := - 2 ^ 31.
Definition INT_MAX : Z := 2 ^ 31 - 1.

Definition Serial_print (text : string) : M W unit :=
  fun w => mkOut tt (Serial_write text w) [].

(** [Serial.println] ends the line with carriage return and line feed. *)
Definition Serial_println (text : string) : M W unit :=
  Serial_print (text ++ CRLF).

Definition delay (ticks : TickType_t) : M W unit :=
  fun w => mkOut tt (vTaskDelay ticks w) [].

(** [void recursiveFunction(int depth, int maxDepth)], with a bound on the
    number of nested calls; [None] says that the bound was reached.  Each
    [return], and the end of the body, runs the destructor of [lock]. *)
Fixpoint recursiveFunction_within (bound : nat) (depth maxDepth : Z)
  : M W (option unit) :=
  match bound with
  | O => ret None
  | S bound' =>
      lock <- RecursiveMutexGuard.ctor recursiveMutex (pdMS_TO_TICKS 100) ;;
      if negb (RecursiveMutexGuard.operator_bool lock) then
        Serial_println "Failed to acquire recursive mutex" ;;
        RecursiveMutexGuard.dtor lock ;;
        ret (Some tt)
      else
        Serial_print ("Recursive call depth: " ++ pretty depth ++ LF) ;;
        inner <- (if (depth <? maxDepth)%Z
                  then recursiveFunction_within bound' (int (depth + 1))
                         maxDepth
                  else ret (Some tt)) ;;
        match inner with
        | None => ret None
        | Some _ =>
            Serial_print ("Returning from depth: " ++ pretty depth ++ LF) ;;
            RecursiveMutexGuard.dtor lock ;;
            ret (Some tt)
        end
  end.

(** The function itself: the calls nest [maxDepth - depth] deep at most. *)
Definition recursiveFunction (depth maxDepth : Z) : M W (option unit) :=
  recursiveFunction_within (S (Z.to_nat (maxDepth - depth))) depth maxDepth.

(** [void earlyReleaseExample()] *)
Definition earlyReleaseExample : M W unit :=
  Serial_println (LF ++ "--- Early release example ---") ;;
  lock <- MutexGuard.ctor dataMutex (pdMS_TO_TICKS 100) ;;
  lock <- (if MutexGuard.hasLock lock then
             Serial_println "Mutex acquired" ;;
             value <- (fun w => mkOut (sharedCounter w) w []) ;;
             lock <- (if (10 <? value)%Z then
                        Serial_println "Releasing mutex early" ;;
                        lock <- MutexGuard.unlock lock ;;
                        delay (pdMS_TO_TICKS 50) ;;
                        ret lock
                      else ret lock) ;;
             MutexGuard.unlock lock
           else ret lock) ;;
  MutexGuard.dtor lock ;;
  ret tt.

(** The semaphore calls of [k] nested guards that all got the lock, of at
    most one more that did not, and of the gives that followed. *)
Definition nested (handle timeout : N) (k : nat) (l : list Event) : Prop :=
  exists failed gives,
    semaphore_calls l
    = replicate k (EvTakeRecursive handle timeout pdTRUE) ++ failed ++ gives
    /\ (failed = []
        \/ exists r, r <> pdTRUE
                     /\ failed = [EvTakeRecursive handle timeout r])
    /\ Forall (fun e => exists r, e = EvGiveRecursive handle r) gives
    /\ (length gives <= k)%nat.
End Functions.
End Sketch.

(** ** Reading the log lines of a call list *)

Definition is_info (e : Event) : bool :=
  match e with
  | EvLog ESP_LOG_INFO _ _ => true
  | _ => false
  end.

Definition is_warning (e : Event) : bool :=
  match e with
  | EvLog ESP_LOG_WARN _ _ => true
  | _ => false
  end.

Definition infos (l : list Event) : list Event := List.filter is_info l.
Definition warnings (l : list Event) : list Event := List.filter is_warning l.

(** The call list with the info lines taken out. *)
Definition without_info (l : list Event) : list Event :=
  List.filter (fun e => negb (is_info e)) l.

(** A log line written under [tag] at error, warning or info level; calls
    that are not log lines pass. *)
Definition log_ok (tag : string) (e : Event) : bool :=
  match e with
  | EvLog ESP_LOG_ERROR t _ | EvLog ESP_LOG_WARN t _ | EvLog ESP_LOG_INFO t _ =>
      String.eqb t tag
  | EvLog _ _ _ => false
  | _ => true
  end.

(** Two results that differ in their info lines at most. *)
Definition same_but_info {W A} (a b : Out W A) : Prop :=
  value a = value b /\ world a = world b
  /\ without_info (calls a) = without_info (calls b).

(** What the log lines of a guard's life look like, for a guard with the
    log tag [tag] and the warning text [text], built over [handle] in a
    build whose debug switch for that guard is [debug]: every line is under
    that tag at error, warning or info level; the warning is there once if
    the handle was null and not at all otherwise; without the debug switch
    there is no info line. *)
Definition log_discipline (tag text : string) (debug : bool) (handle : N)
    (l : list Event) : Prop :=
  forallb (log_ok tag) l = true
  /\ warnings l = (if (handle =? nullptr)%N
                   then [EvLog ESP_LOG_WARN tag text] else [])
  /\ (debug = false -> infos l = []).

(** ** Kernel states used in the examples below *)

Module Scenes.
Import Kernel.

Definition testMutex : N := 1%N.

(** A task is running and nobody owns [testMutex]. *)
Definition idle : State := boot.

(** An interrupt handler is running. *)
Definition in_handler : State := enter_isr boot.

(** Task 1 owns [testMutex]; task 0 is running. *)
Definition contended : State :=
  switch_to 0 (snd (acquire testMutex 0 (switch_to 1 boot))).

(** A guard built by a task over the free [testMutex], and the kernel
    state when an interrupt handler is entered while the guard is alive. *)
Definition built : Out State MutexGuard.MutexGuard :=
  MutexGuard.ctor (F := release_build) testMutex 100 idle.

Definition interrupted : State := enter_isr (world built).

Definition built_recursive
  : Out State RecursiveMutexGuard.RecursiveMutexGuard :=
  RecursiveMutexGuard.ctor (F := release_build) testMutex 100 idle.

(** Code that leaves the handler, calls [unlock()] and tests the guard. *)
Definition back_in_task : list (Step State) :=
  [Env leave_isr; CallUnlock; CallBool].

(** The same guards after an [unlock()] made by the task. *)
Definition released : Out State MutexGuard.MutexGuard :=
  MutexGuard.unlock (F := release_build) (value built) (world built).

Definition released_recursive
  : Out State RecursiveMutexGuard.RecursiveMutexGuard :=
  RecursiveMutexGuard.unlock (F := release_build)
    (value built_recursive) (world built_recursive).
End Scenes.

(** ** A board for the examples of the later sections *)

Module Stage.
Import Kernel.

(** The reference kernel seen from task code only: the interrupt query
    always answers no. *)
Definition task_rtos : FreeRTOS State := {|
  xPortInIsrContext := fun _ => false;
  xSemaphoreTake := acquire;
  xSemaphoreGive := release;
  xSemaphoreTakeRecursive := acquire_recursive;
  xSemaphoreGiveRecursive := release_recursive
|}.

(** One tick per millisecond. *)
Definition ticks_1kHz : FreeRTOSConfig := {| pdMS_TO_TICKS := fun ms => ms |}.

(** Serial output goes nowhere, a delay lets nothing run, and the counter
    reads 42. *)
Definition board : Arduino State := {|
  Serial_write := fun _ k => k;
  vTaskDelay := fun _ k => k;
  sharedCounter := fun _ => 42
|}.

Definition globals : Globals := {| dataMutex := 1%N; recursiveMutex := 2%N |}.

(** A buffer over mutex 1 holding 7 then 8, and one without a mutex. *)
Definition two_stored : ThreadSafeBuffer.ThreadSafeBuffer :=
  {| ThreadSafeBuffer.buffer := [7; 8; 0; 0; 0; 0; 0; 0; 0; 0];
     ThreadSafeBuffer.writeIndex := 2;
     ThreadSafeBuffer.readIndex := 0;
     ThreadSafeBuffer.count := 2;
     ThreadSafeBuffer.mutex := 1%N |}.

Definition no_mutex : ThreadSafeBuffer.ThreadSafeBuffer :=
  ThreadSafeBuffer.ctor nullptr.

Definition some_calls : list ThreadSafeBuffer.Op :=
  [ThreadSafeBuffer.Push 9; ThreadSafeBuffer.Size; ThreadSafeBuffer.Pop 0;
   ThreadSafeBuffer.Pop 0].
End Stage.

(** ** The unit tests of test/test_mutex_guard.cpp, run on the reference
    kernel *)

Module UnitTests.
Import Kernel.
Import Scenes.
#[local] Existing Instance release_build.

(** [test_mutex_guard_acquires_lock] *)
Example test_mutex_guard_acquires_lock :
  MutexGuard.hasLock (value (MutexGuard.ctor testMutex 100 idle)) = true.
Proof. reflexivity. Qed.

(** [test_mutex_guard_releases_on_destruction]: after the scope the mutex
    can be taken again. *)
Example test_mutex_guard_releases_on_destruction :
  let o := MutexGuard.lifetime testMutex 100 [] idle in
  fst (xSemaphoreTake testMutex 0 (world o)) = pdTRUE.
Proof. vm_compute. reflexivity. Qed.

(** [test_mutex_guard_timeout]: the mutex is taken by hand first. *)
Example test_mutex_guard_timeout :
  let k := snd (xSemaphoreTake testMutex 4294967295 idle) in
  MutexGuard.hasLock (value (MutexGuard.ctor testMutex 10 k)) = false.
Proof. vm_compute. reflexivity. Qed.

(** [test_mutex_guard_null_handle] *)
Example test_mutex_guard_null_handle :
  let guard := value (MutexGuard.ctor nullptr 100 idle) in
  MutexGuard.hasLock guard = false /\ MutexGuard.isValid guard = false.
Proof. split; reflexivity. Qed.

(** [test_mutex_guard_unlock] and [test_mutex_guard_double_unlock_safe] *)
Example test_mutex_guard_double_unlock_safe :
  let o := (guard <- MutexGuard.ctor testMutex 100 ;;
            MutexGuard.run [CallUnlock; CallUnlock] guard) idle in
  MutexGuard.hasLock (value o) = false
  /\ calls o = [EvTake testMutex 100 pdTRUE; EvGive testMutex pdTRUE].
Proof. vm_compute. split; reflexivity. Qed.

(** The nesting of [recursiveFunction] in examples/basic_usage.cpp: an
    inner recursive guard over the same handle lives and dies inside the
    outer one; the depth is in the kernel, the guards hold a flag each. *)
Example recursive_guards_nest :
  let outer := RecursiveMutexGuard.ctor testMutex 100 idle in
  let inner := RecursiveMutexGuard.lifetime testMutex 100 [] (world outer) in
  let after := RecursiveMutexGuard.dtor (value outer) (world inner) in
  calls inner = [EvTakeRecursive testMutex 100 pdTRUE;
                 EvGiveRecursive testMutex pdTRUE]
  /\ owners (world outer) !! testMutex = Some (0%nat, 1%nat)
  /\ owners (world inner) !! testMutex = Some (0%nat, 1%nat)
  /\ owners (world after) !! testMutex = None.
Proof. vm_compute. repeat split; reflexivity. Qed.

(** [earlyReleaseExample] of examples/basic_usage.cpp in a debug build, on
    the path that releases early: the second [unlock()] and the destructor
    add nothing. *)
Example earlyReleaseExample_calls :
  calls (MutexGuard.lifetime (F := debug_build) testMutex 100
           [CallHasLock; CallUnlock; CallUnlock] idle)
  = [EvTake testMutex 100 pdTRUE;
     EvLog ESP_LOG_INFO "MutexGuard" "Mutex locked";
     EvGive testMutex pdTRUE;
     EvLog ESP_LOG_INFO "MutexGuard" "Mutex unlocked"].
Proof. vm_compute. reflexivity. Qed.

(** An [unlock()] that an interrupt handler attempts is refused and the
    guard keeps the lock; the destructor, back in the task, gives it back. *)
Example refused_then_released :
  calls (MutexGuard.lifetime testMutex 100
           [Env enter_isr; CallUnlock; Env leave_isr] idle)
  = [EvTake testMutex 100 pdTRUE;
     EvLog ESP_LOG_ERROR "MutexGuard" "Cannot unlock mutex from ISR context";
     EvGive testMutex pdTRUE].
Proof. vm_compute. reflexivity. Qed.
End UnitTests.

(** ** The methods, case by case *)

Ltac guard_unfold :=
  unfold MutexGuard.lifetime, RecursiveMutexGuard.lifetime,
    MutexGuard.dtor, RecursiveMutexGuard.dtor,
    MutexGuard.ctor, RecursiveMutexGuard.ctor,
    MutexGuard.unlock, RecursiveMutexGuard.unlock,
    MutexGuard.MUTEX_GUARD_LOG, RecursiveMutexGuard.RECURSIVE_MUTEX_GUARD_LOG,
    MutexGuard.MUTEXG_LOG_E, MutexGuard.MUTEXG_LOG_W, MutexGuard.MUTEXG_LOG_I,
    RecursiveMutexGuard.RMUTEXG_LOG_E, RecursiveMutexGuard.RMUTEXG_LOG_W,
    RecursiveMutexGuard.RMUTEXG_LOG_I,
    MutexGuard.MUTEXG_LOG_TAG, RecursiveMutexGuard.RMUTEXG_LOG_TAG,
    MutexGuard.hasLock, MutexGuard.isValid, MutexGuard.operator_bool,
    RecursiveMutexGuard.hasLock, RecursiveMutexGuard.isValid,
    RecursiveMutexGuard.operator_bool,
    ESP_LOG, emit, inIsr, take, give, takeRecursive, giveRecursive, env,
    bind, ret in *.

Section MutexGuardCases.
Context {W : Type} {R : FreeRTOS W} {F : BuildFlags}.
Import MutexGuard.

Lemma ctor_null (timeout : N) (w : W) :
    ctor nullptr timeout w =
    mkOut {| m_handle := nullptr; m_taken := false |} w
      [EvLog ESP_LOG_WARN "MutexGuard"
         "Attempted to create MutexGuard with null handle"].
Proof. reflexivity. Qed.

Lemma ctor_isr (handle timeout : N) (w : W) :
    handle <> nullptr -> xPortInIsrContext w = true ->
    ctor handle timeout w =
    mkOut {| m_handle := nullptr; m_taken := false |} w
      [EvLog ESP_LOG_ERROR "MutexGuard" "Cannot use MutexGuard from ISR context"].
Proof.
    intros Hh Hisr. apply N.eqb_neq in Hh.
    guard_unfold. cbn. rewrite Hh. cbn. rewrite Hisr. reflexivity.
Qed.

Lemma ctor_task (handle timeout : N) (w : W) :
    handle <> nullptr -> xPortInIsrContext w = false ->
    ctor handle timeout w =
    let r := xSemaphoreTake handle timeout w in
    mkOut {| m_handle := handle; m_taken := (fst r =? pdTRUE)%Z |} (snd r)
      (EvTake handle timeout (fst r) :: lock_line (fst r =? pdTRUE)%Z).
Proof.
    intros Hh Hisr. apply N.eqb_neq in Hh.
    guard_unfold. unfold lock_line. cbn. rewrite Hh. cbn. rewrite Hisr. cbn.
    destruct MUTEX_GUARD_DEBUG; cbn; [|reflexivity].
    destruct (fst (xSemaphoreTake handle timeout w) =? pdTRUE)%Z; reflexivity.
Qed.

Lemma unlock_idle (this : MutexGuard) (w : W) :
    m_taken this && negb (m_handle this =? nullptr)%N = false ->
    unlock this w = mkOut this w [].
Proof. intros Hc. guard_unfold. rewrite Hc. reflexivity. Qed.

Lemma unlock_isr (this : MutexGuard) (w : W) :
    m_taken this && negb (m_handle this =? nullptr)%N = true ->
    xPortInIsrContext w = true ->
    unlock this w =
    mkOut this w
      [EvLog ESP_LOG_ERROR "MutexGuard" "Cannot unlock mutex from ISR context"].
Proof.
    intros Hc Hisr. guard_unfold. rewrite Hc. cbn. rewrite Hisr. reflexivity.
Qed.

Lemma unlock_task (this : MutexGuard) (w : W) :
    m_taken this && negb (m_handle this =? nullptr)%N = true ->
    xPortInIsrContext w = false ->
    unlock this w =
    let r := xSemaphoreGive (m_handle this) w in
    mkOut {| m_handle := m_handle this; m_taken := false |} (snd r)
      (EvGive (m_handle this) (fst r) :: unlock_line).
Proof.
    intros Hc Hisr. guard_unfold. unfold unlock_line.
    rewrite Hc. cbn. rewrite Hisr. cbn.
    destruct MUTEX_GUARD_DEBUG; reflexivity.
Qed.
End MutexGuardCases.

Section RecursiveMutexGuardCases.
Context {W : Type} {R : FreeRTOS W} {F : BuildFlags}.
Import RecursiveMutexGuard.

Lemma rec_ctor_null (timeout : N) (w : W) :
  ctor nullptr timeout w =
  mkOut {| m_handle := nullptr; m_taken := false |} w
    [EvLog ESP_LOG_WARN "RecursiveMutexGuard"
       "Attempted to create RecursiveMutexGuard with null handle"].
Proof. reflexivity. Qed.

Lemma rec_ctor_isr (handle timeout : N) (w : W) :
  handle <> nullptr -> xPortInIsrContext w = true ->
  ctor handle timeout w =
  mkOut {| m_handle := nullptr; m_taken := false |} w
    [EvLog ESP_LOG_ERROR "RecursiveMutexGuard"
       "Cannot use RecursiveMutexGuard from ISR context"].
Proof.
  intros Hh Hisr. apply N.eqb_neq in Hh.
  guard_unfold. cbn. rewrite Hh. cbn. rewrite Hisr. reflexivity.
Qed.

Lemma rec_ctor_task (handle timeout : N) (w : W) :
  handle <> nullptr -> xPortInIsrContext w = false ->
  ctor handle timeout w =
  let r := xSemaphoreTakeRecursive handle timeout w in
  mkOut {| m_handle := handle; m_taken := (fst r =? pdTRUE)%Z |} (snd r)
    (EvTakeRecursive handle timeout (fst r)
       :: recursive_lock_line (fst r =? pdTRUE)%Z).
Proof.
  intros Hh Hisr. apply N.eqb_neq in Hh.
  guard_unfold. unfold recursive_lock_line. cbn. rewrite Hh. cbn.
  rewrite Hisr. cbn.
  destruct RECURSIVE_MUTEX_GUARD_DEBUG; cbn; [|reflexivity].
  destruct (fst (xSemaphoreTakeRecursive handle timeout w) =? pdTRUE)%Z;
    reflexivity.
Qed.

Lemma rec_unlock_idle (this : RecursiveMutexGuard) (w : W) :
  m_taken this && negb (m_handle this =? nullptr)%N = false ->
  unlock this w = mkOut this w [].
Proof. intros Hc. guard_unfold. rewrite Hc. reflexivity. Qed.

Lemma rec_unlock_isr (this : RecursiveMutexGuard) (w : W) :
  m_taken this && negb (m_handle this =? nullptr)%N = true ->
  xPortInIsrContext w = true ->
  unlock this w =
  mkOut this w
    [EvLog ESP_LOG_ERROR "RecursiveMutexGuard"
       "Cannot unlock recursive mutex from ISR context"].
Proof.
  intros Hc Hisr. guard_unfold. rewrite Hc. cbn. rewrite Hisr. reflexivity.
Qed.

Lemma rec_unlock_task (this : RecursiveMutexGuard) (w : W) :
  m_taken this && negb (m_handle this =? nullptr)%N = true ->
  xPortInIsrContext w = false ->
  unlock this w =
  let r := xSemaphoreGiveRecursive (m_handle this) w in
  mkOut {| m_handle := m_handle this; m_taken := false |} (snd r)
    (EvGiveRecursive (m_handle this) (fst r) :: recursive_unlock_line).
Proof.
  intros Hc Hisr. guard_unfold. unfold recursive_unlock_line.
  rewrite Hc. cbn. rewrite Hisr. cbn.
  destruct RECURSIVE_MUTEX_GUARD_DEBUG; reflexivity.
Qed.
End RecursiveMutexGuardCases.

(** ** Scripts *)

Section Scripts.
Context {W : Type} {R : FreeRTOS W} {F : BuildFlags}.

Lemma out_eta {A} (o : Out W A) : mkOut (value o) (world o) (calls o) = o.
Proof. destruct o; reflexivity. Qed.

Lemma run_app (s1 s2 : list (Step W)) (this : MutexGuard.MutexGuard) (w : W) :
  MutexGuard.run (s1 ++ s2) this w =
  (this' <- MutexGuard.run s1 this ;; MutexGuard.run s2 this') w.
Proof.
  revert this w. induction s1 as [|s s1 IH]; intros this w.
  - cbn. unfold bind, ret. cbn. symmetry. apply out_eta.
  - cbn [MutexGuard.run app]. unfold bind at 1 3. rewrite IH.
    unfold bind. cbn. now rewrite app_assoc.
Qed.

Lemma rec_run_app (s1 s2 : list (Step W))
    (this : RecursiveMutexGuard.RecursiveMutexGuard) (w : W) :
  RecursiveMutexGuard.run (s1 ++ s2) this w =
  (this' <- RecursiveMutexGuard.run s1 this ;;
   RecursiveMutexGuard.run s2 this') w.
Proof.
  revert this w. induction s1 as [|s s1 IH]; intros this w.
  - cbn. unfold bind, ret. cbn. symmetry. apply out_eta.
  - cbn [RecursiveMutexGuard.run app]. unfold bind at 1 3. rewrite IH.
    unfold bind. cbn. now rewrite app_assoc.
Qed.

(** A property of the object and of the calls made so far that every step
    keeps is kept by every script. *)
Lemma run_keeps (P : MutexGuard.MutexGuard -> list Event -> Prop) :
  (forall s this w before,
      P this before ->
      P (value (MutexGuard.step s this w))
        (before ++ calls (MutexGuard.step s this w))) ->
  forall script this w before,
    P this before ->
    P (value (MutexGuard.run script this w))
      (before ++ calls (MutexGuard.run script this w)).
Proof.
  intros Hstep script. induction script as [|s rest IH]; intros this w before HP.
  - cbn. now rewrite app_nil_r.
  - cbn [MutexGuard.run]. unfold bind. cbn [value calls].
    rewrite app_assoc. apply IH. now apply Hstep.
Qed.

Lemma rec_run_keeps
    (P : RecursiveMutexGuard.RecursiveMutexGuard -> list Event -> Prop) :
  (forall s this w before,
      P this before ->
      P (value (RecursiveMutexGuard.step s this w))
        (before ++ calls (RecursiveMutexGuard.step s this w))) ->
  forall script this w before,
    P this before ->
    P (value (RecursiveMutexGuard.run script this w))
      (before ++ calls (RecursiveMutexGuard.run script this w)).
Proof.
  intros Hstep script. induction script as [|s rest IH]; intros this w before HP.
  - cbn. now rewrite app_nil_r.
  - cbn [RecursiveMutexGuard.run]. unfold bind. cbn [value calls].
    rewrite app_assoc. apply IH. now apply Hstep.
Qed.
End Scripts.

(** ** Construction *)

Section Construction.
Context {W : Type} {R : FreeRTOS W} {F : BuildFlags}.

(** C2.  Constructing either guard with a null handle, with any timeout and
    in any kernel state, makes no semaphore call at all (so no acquisition
    attempt), leaves the kernel state as it was, writes the one warning
    line, and yields an object for which [hasLock()] and [isValid()] are
    both false.  The constructor is a total function: it returns this object
    and nothing else can happen. *)
Theorem null_handle_guard (timeout : N) (w : W) :
  let o := MutexGuard.ctor nullptr timeout w in
  let o' := RecursiveMutexGuard.ctor nullptr timeout w in
  (MutexGuard.hasLock (value o) = false
   /\ MutexGuard.isValid (value o) = false
   /\ MutexGuard.operator_bool (value o) = false
   /\ acquisitions (calls o) = []
   /\ semaphore_calls (calls o) = []
   /\ world o = w
   /\ calls o = [EvLog ESP_LOG_WARN "MutexGuard"
                   "Attempted to create MutexGuard with null handle"])
  /\
  (RecursiveMutexGuard.hasLock (value o') = false
   /\ RecursiveMutexGuard.isValid (value o') = false
   /\ RecursiveMutexGuard.operator_bool (value o') = false
   /\ acquisitions (calls o') = []
   /\ semaphore_calls (calls o') = []
   /\ world o' = w
   /\ calls o' = [EvLog ESP_LOG_WARN "RecursiveMutexGuard"
                    "Attempted to create RecursiveMutexGuard with null handle"]).
Proof.
  cbv zeta. rewrite ctor_null, rec_ctor_null.
  split; repeat split; reflexivity.
Qed.

(** C3.  Constructing either guard with a non-null handle while the kernel
    reports interrupt context makes no semaphore call (no acquisition is
    attempted), clears the stored handle, and yields an object with
    [isValid() == false] and [hasLock() == false]; the only trace is the
    error line. *)
Theorem isr_construction_refused (handle timeout : N) (w : W) :
  handle <> nullptr ->
  xPortInIsrContext w = true ->
  let o := MutexGuard.ctor handle timeout w in
  let o' := RecursiveMutexGuard.ctor handle timeout w in
  (MutexGuard.m_handle (value o) = nullptr
   /\ MutexGuard.isValid (value o) = false
   /\ MutexGuard.hasLock (value o) = false
   /\ acquisitions (calls o) = []
   /\ semaphore_calls (calls o) = []
   /\ world o = w
   /\ calls o = [EvLog ESP_LOG_ERROR "MutexGuard"
                   "Cannot use MutexGuard from ISR context"])
  /\
  (RecursiveMutexGuard.m_handle (value o') = nullptr
   /\ RecursiveMutexGuard.isValid (value o') = false
   /\ RecursiveMutexGuard.hasLock (value o') = false
   /\ acquisitions (calls o') = []
   /\ semaphore_calls (calls o') = []
   /\ world o' = w
   /\ calls o' = [EvLog ESP_LOG_ERROR "RecursiveMutexGuard"
                    "Cannot use RecursiveMutexGuard from ISR context"]).
Proof.
  intros Hh Hisr. cbv zeta.
  rewrite (ctor_isr _ _ _ Hh Hisr), (rec_ctor_isr _ _ _ Hh Hisr).
  split; repeat split; reflexivity.
Qed.

(** C7.  After construction with a non-null handle outside interrupt
    context, [isValid()] is true and the handle is the one given, whatever
    the timed acquire returned; [hasLock()] is what follows the acquire.
    [isValid()] reads the handle only: changing the flag of any object does
    not change it. *)
Theorem isValid_ignores_the_outcome (handle timeout : N) (w : W) :
  handle <> nullptr ->
  xPortInIsrContext w = false ->
  let o := MutexGuard.ctor handle timeout w in
  let o' := RecursiveMutexGuard.ctor handle timeout w in
  (MutexGuard.isValid (value o) = true
   /\ MutexGuard.m_handle (value o) = handle
   /\ MutexGuard.hasLock (value o)
      = (fst (xSemaphoreTake handle timeout w) =? pdTRUE)%Z)
  /\
  (RecursiveMutexGuard.isValid (value o') = true
   /\ RecursiveMutexGuard.m_handle (value o') = handle
   /\ RecursiveMutexGuard.hasLock (value o')
      = (fst (xSemaphoreTakeRecursive handle timeout w) =? pdTRUE)%Z)
  /\
  (forall (h : N) (taken taken' : bool),
      MutexGuard.isValid
        {| MutexGuard.m_handle := h; MutexGuard.m_taken := taken |}
      = MutexGuard.isValid
          {| MutexGuard.m_handle := h; MutexGuard.m_taken := taken' |}
      /\ MutexGuard.isValid
           {| MutexGuard.m_handle := h; MutexGuard.m_taken := taken |}
         = negb (h =? nullptr)%N
      /\ RecursiveMutexGuard.isValid
           {| RecursiveMutexGuard.m_handle := h;
              RecursiveMutexGuard.m_taken := taken |}
         = negb (h =? nullptr)%N).
Proof.
  intros Hh Hisr. cbv zeta.
  rewrite (ctor_task _ _ _ Hh Hisr), (rec_ctor_task _ _ _ Hh Hisr).
  apply N.eqb_neq in Hh.
  unfold MutexGuard.isValid, RecursiveMutexGuard.isValid,
    MutexGuard.hasLock, RecursiveMutexGuard.hasLock. cbn.
  rewrite Hh. repeat split; reflexivity.
Qed.

(** C8.  After construction with a non-null handle outside interrupt
    context, if the timed acquire did not return [pdTRUE], the constructor
    returns the object with the handle kept and the flag false, so
    [hasLock()] is false and [isValid()] is true.  It has made the one
    acquire call and no release, and has written no error and no warning
    line; what [MUTEX_GUARD_LOG] adds is an info line in a debug build and
    nothing otherwise. *)
Theorem timeout_is_reported_by_hasLock (handle timeout : N) (w : W) :
  handle <> nullptr ->
  xPortInIsrContext w = false ->
  (fst (xSemaphoreTake handle timeout w) <> pdTRUE ->
   let o := MutexGuard.ctor handle timeout w in
   value o = {| MutexGuard.m_handle := handle; MutexGuard.m_taken := false |}
   /\ MutexGuard.hasLock (value o) = false
   /\ MutexGuard.operator_bool (value o) = false
   /\ MutexGuard.isValid (value o) = true
   /\ world o = snd (xSemaphoreTake handle timeout w)
   /\ calls o = EvTake handle timeout (fst (xSemaphoreTake handle timeout w))
                  :: lock_line false
   /\ diagnostics (calls o) = []
   /\ releases (calls o) = [])
  /\
  (fst (xSemaphoreTakeRecursive handle timeout w) <> pdTRUE ->
   let o := RecursiveMutexGuard.ctor handle timeout w in
   value o = {| RecursiveMutexGuard.m_handle := handle;
                RecursiveMutexGuard.m_taken := false |}
   /\ RecursiveMutexGuard.hasLock (value o) = false
   /\ RecursiveMutexGuard.operator_bool (value o) = false
   /\ RecursiveMutexGuard.isValid (value o) = true
   /\ world o = snd (xSemaphoreTakeRecursive handle timeout w)
   /\ calls o = EvTakeRecursive handle timeout
                  (fst (xSemaphoreTakeRecursive handle timeout w))
                  :: recursive_lock_line false
   /\ diagnostics (calls o) = []
   /\ releases (calls o) = []).
Proof.
  intros Hh Hisr. split; intros Hr; cbv zeta.
  - rewrite (ctor_task _ _ _ Hh Hisr). apply Z.eqb_neq in Hr.
    apply N.eqb_neq in Hh.
    unfold MutexGuard.operator_bool, MutexGuard.hasLock, MutexGuard.isValid.
    cbn. rewrite Hr, Hh. unfold lock_line.
    destruct MUTEX_GUARD_DEBUG; repeat split; reflexivity.
  - rewrite (rec_ctor_task _ _ _ Hh Hisr). apply Z.eqb_neq in Hr.
    apply N.eqb_neq in Hh.
    unfold RecursiveMutexGuard.operator_bool, RecursiveMutexGuard.hasLock,
      RecursiveMutexGuard.isValid.
    cbn. rewrite Hr, Hh. unfold recursive_lock_line.
    destruct RECURSIVE_MUTEX_GUARD_DEBUG; repeat split; reflexivity.
Qed.
End Construction.

(** ** unlock() *)

Section Unlock.
Context {W : Type} {R : FreeRTOS W} {F : BuildFlags}.

Lemma unlock_not_held (this : MutexGuard.MutexGuard) (w : W) :
  MutexGuard.m_taken this = false ->
  MutexGuard.unlock this w = mkOut this w [].
Proof. intros Ht. apply unlock_idle. now rewrite Ht. Qed.

Lemma rec_unlock_not_held (this : RecursiveMutexGuard.RecursiveMutexGuard)
    (w : W) :
  RecursiveMutexGuard.m_taken this = false ->
  RecursiveMutexGuard.unlock this w = mkOut this w [].
Proof. intros Ht. apply rec_unlock_idle. now rewrite Ht. Qed.

(** C1.  What [unlock()] does in interrupt context on a guard that holds the
    lock.  The call is refused: nothing is given back, the kernel state is
    untouched, the error line is written (the object has a handle whenever
    it came out of a constructor), and the early [return] comes before
    [m_taken = false], so the object is left exactly as it was and
    [hasLock()] is still true.  The documentation of [unlock()] in
    [MutexGuard.h] and [RecursiveMutexGuard.h] promises the opposite
    (after [unlock()], [hasLock()] returns false); the code departs from it
    on this path, for both guards and in every kernel state. *)
Theorem unlock_in_isr_refused (this : MutexGuard.MutexGuard)
    (this' : RecursiveMutexGuard.RecursiveMutexGuard) (w : W) :
  xPortInIsrContext w = true ->
  (MutexGuard.hasLock this = true ->
   let o := MutexGuard.unlock this w in
   value o = this
   /\ MutexGuard.hasLock (value o) = true
   /\ world o = w
   /\ semaphore_calls (calls o) = []
   /\ calls o = if MutexGuard.isValid this
                then [EvLog ESP_LOG_ERROR "MutexGuard"
                        "Cannot unlock mutex from ISR context"]
                else [])
  /\
  (RecursiveMutexGuard.hasLock this' = true ->
   let o := RecursiveMutexGuard.unlock this' w in
   value o = this'
   /\ RecursiveMutexGuard.hasLock (value o) = true
   /\ world o = w
   /\ semaphore_calls (calls o) = []
   /\ calls o = if RecursiveMutexGuard.isValid this'
                then [EvLog ESP_LOG_ERROR "RecursiveMutexGuard"
                        "Cannot unlock recursive mutex from ISR context"]
                else []).
Proof.
  intros Hisr. split; intros Hheld; cbv zeta.
  - unfold MutexGuard.hasLock, MutexGuard.isValid in *.
    destruct (negb (MutexGuard.m_handle this =? nullptr)%N) eqn:Hv.
    + rewrite unlock_isr by (rewrite ?Hheld, ?Hv; auto). cbn.
      repeat split; auto.
    + rewrite unlock_idle by (rewrite Hheld, Hv; auto). cbn.
      repeat split; auto.
  - unfold RecursiveMutexGuard.hasLock, RecursiveMutexGuard.isValid in *.
    destruct (negb (RecursiveMutexGuard.m_handle this' =? nullptr)%N) eqn:Hv.
    + rewrite rec_unlock_isr by (rewrite ?Hheld, ?Hv; auto). cbn.
      repeat split; auto.
    + rewrite rec_unlock_idle by (rewrite Hheld, Hv; auto). cbn.
      repeat split; auto.
Qed.

End Unlock.

(** ** Whole lives *)

Section Lifetimes.
Context {W : Type} {R : FreeRTOS W} {F : BuildFlags}.

Lemma semaphore_calls_app (a b : list Event) :
  semaphore_calls (a ++ b) = semaphore_calls a ++ semaphore_calls b.
Proof. apply List.filter_app. Qed.

Lemma releases_app (a b : list Event) :
  releases (a ++ b) = releases a ++ releases b.
Proof. apply List.filter_app. Qed.

Lemma semaphore_calls_lock_line (taken : bool) :
  semaphore_calls (lock_line taken) = [].
Proof. unfold lock_line. destruct MUTEX_GUARD_DEBUG; reflexivity. Qed.

Lemma semaphore_calls_unlock_line : semaphore_calls unlock_line = [].
Proof. unfold unlock_line. destruct MUTEX_GUARD_DEBUG; reflexivity. Qed.

Lemma semaphore_calls_recursive_lock_line (taken : bool) :
  semaphore_calls (recursive_lock_line taken) = [].
Proof.
  unfold recursive_lock_line.
  destruct RECURSIVE_MUTEX_GUARD_DEBUG; reflexivity.
Qed.

Lemma semaphore_calls_recursive_unlock_line :
  semaphore_calls recursive_unlock_line = [].
Proof.
  unfold recursive_unlock_line.
  destruct RECURSIVE_MUTEX_GUARD_DEBUG; reflexivity.
Qed.

Lemma releases_unlock_line : releases unlock_line = [].
Proof. unfold unlock_line. destruct MUTEX_GUARD_DEBUG; reflexivity. Qed.

Lemma releases_recursive_unlock_line : releases recursive_unlock_line = [].
Proof.
  unfold recursive_unlock_line.
  destruct RECURSIVE_MUTEX_GUARD_DEBUG; reflexivity.
Qed.

(** The destructor is one more [unlock()] step after the script. *)
Lemma lifetime_keeps (P : MutexGuard.MutexGuard -> list Event -> Prop)
    (handle timeout : N) :
  (forall w, P (value (MutexGuard.ctor handle timeout w))
               (calls (MutexGuard.ctor handle timeout w))) ->
  (forall s this w before,
      P this before ->
      P (value (MutexGuard.step s this w))
        (before ++ calls (MutexGuard.step s this w))) ->
  forall script w,
    P (value ((this <- MutexGuard.ctor handle timeout ;;
               MutexGuard.run script this) w))
      (calls ((this <- MutexGuard.ctor handle timeout ;;
               MutexGuard.run script this) w))
    /\ P (value (MutexGuard.lifetime handle timeout script w))
         (calls (MutexGuard.lifetime handle timeout script w)).
Proof.
  intros Hc Hs script w.
  assert (Hrun : P (value ((this <- MutexGuard.ctor handle timeout ;;
                            MutexGuard.run script this) w))
                   (calls ((this <- MutexGuard.ctor handle timeout ;;
                            MutexGuard.run script this) w))).
  { unfold bind. cbn [value calls]. apply run_keeps; auto. }
  split; [exact Hrun|].
  unfold MutexGuard.lifetime, MutexGuard.dtor.
  unfold bind in *. cbn [value calls world] in *.
  rewrite app_assoc.
  apply (Hs CallUnlock). exact Hrun.
Qed.

Lemma rec_lifetime_keeps
    (P : RecursiveMutexGuard.RecursiveMutexGuard -> list Event -> Prop)
    (handle timeout : N) :
  (forall w, P (value (RecursiveMutexGuard.ctor handle timeout w))
               (calls (RecursiveMutexGuard.ctor handle timeout w))) ->
  (forall s this w before,
      P this before ->
      P (value (RecursiveMutexGuard.step s this w))
        (before ++ calls (RecursiveMutexGuard.step s this w))) ->
  forall script w,
    P (value ((this <- RecursiveMutexGuard.ctor handle timeout ;;
               RecursiveMutexGuard.run script this) w))
      (calls ((this <- RecursiveMutexGuard.ctor handle timeout ;;
               RecursiveMutexGuard.run script this) w))
    /\ P (value (RecursiveMutexGuard.lifetime handle timeout script w))
         (calls (RecursiveMutexGuard.lifetime handle timeout script w)).
Proof.
  intros Hc Hs script w.
  assert (Hrun : P (value ((this <- RecursiveMutexGuard.ctor handle timeout ;;
                            RecursiveMutexGuard.run script this) w))
                   (calls ((this <- RecursiveMutexGuard.ctor handle timeout ;;
                            RecursiveMutexGuard.run script this) w))).
  { unfold bind. cbn [value calls]. apply rec_run_keeps; auto. }
  split; [exact Hrun|].
  unfold RecursiveMutexGuard.lifetime, RecursiveMutexGuard.dtor.
  unfold bind in *. cbn [value calls world] in *.
  rewrite app_assoc.
  apply (Hs CallUnlock). exact Hrun.
Qed.

Lemma ctor_tracked (handle timeout : N) (w : W) :
  tracked handle timeout (value (MutexGuard.ctor handle timeout w))
    (calls (MutexGuard.ctor handle timeout w)).
Proof.
  destruct (N.eq_dec handle nullptr) as [->|Hh].
  { rewrite ctor_null. split; cbn; auto. }
  destruct (xPortInIsrContext w) eqn:Hisr.
  { rewrite (ctor_isr _ _ _ Hh Hisr). split; cbn; auto. }
  rewrite (ctor_task _ _ _ Hh Hisr). cbv zeta. unfold tracked.
  cbn [value calls MutexGuard.m_handle MutexGuard.m_taken].
  split; [auto|].
  change (EvTake handle timeout (fst (xSemaphoreTake handle timeout w))
            :: lock_line (fst (xSemaphoreTake handle timeout w) =? pdTRUE)%Z)
    with ([EvTake handle timeout (fst (xSemaphoreTake handle timeout w))]
            ++ lock_line (fst (xSemaphoreTake handle timeout w) =? pdTRUE)%Z).
  rewrite semaphore_calls_app, semaphore_calls_lock_line, app_nil_r.
  destruct (Z.eqb_spec (fst (xSemaphoreTake handle timeout w)) pdTRUE)
    as [Hr|Hr].
  - rewrite Hr. auto.
  - right. left. eexists. repeat split; eauto.
Qed.

Lemma rec_ctor_tracked (handle timeout : N) (w : W) :
  rec_tracked handle timeout
    (value (RecursiveMutexGuard.ctor handle timeout w))
    (calls (RecursiveMutexGuard.ctor handle timeout w)).
Proof.
  destruct (N.eq_dec handle nullptr) as [->|Hh].
  { rewrite rec_ctor_null. split; cbn; auto. }
  destruct (xPortInIsrContext w) eqn:Hisr.
  { rewrite (rec_ctor_isr _ _ _ Hh Hisr). split; cbn; auto. }
  rewrite (rec_ctor_task _ _ _ Hh Hisr). cbv zeta. unfold rec_tracked.
  cbn [value calls RecursiveMutexGuard.m_handle RecursiveMutexGuard.m_taken].
  split; [auto|].
  match goal with |- context [?e :: recursive_lock_line ?b] =>
    change (e :: recursive_lock_line b) with ([e] ++ recursive_lock_line b)
  end.
  rewrite semaphore_calls_app, semaphore_calls_recursive_lock_line, app_nil_r.
  destruct (Z.eqb_spec (fst (xSemaphoreTakeRecursive handle timeout w)) pdTRUE)
    as [Hr|Hr].
  - rewrite Hr. auto.
  - right. left. eexists. repeat split; eauto.
Qed.
Lemma step_tracked (handle timeout : N) (s : Step W)
    (this : MutexGuard.MutexGuard) (w : W) (before : list Event) :
  tracked handle timeout this before ->
  tracked handle timeout (value (MutexGuard.step s this w))
    (before ++ calls (MutexGuard.step s this w)).
Proof.
  intros Ht.
  destruct s; cbn [MutexGuard.step]; unfold ret, env; cbn [value calls];
    rewrite ?app_nil_r; try exact Ht.
  destruct Ht as [Hh Ht].
  destruct (MutexGuard.m_taken this) eqn:Htaken.
  - destruct Ht as (Hhandle & Hnn & Hcalls).
    assert (Hc : MutexGuard.m_taken this
                 && negb (MutexGuard.m_handle this =? nullptr)%N = true).
    { rewrite Htaken, Hhandle. apply N.eqb_neq in Hnn. now rewrite Hnn. }
    destruct (xPortInIsrContext w) eqn:Hisr.
    + rewrite (unlock_isr _ _ Hc Hisr). cbn [value calls].
      split; [exact Hh|]. rewrite Htaken.
      rewrite semaphore_calls_app, Hcalls. cbn. auto.
    + rewrite (unlock_task _ _ Hc Hisr). cbv zeta. cbn [value calls].
      split; [cbn; auto|]. cbn [MutexGuard.m_taken MutexGuard.m_handle].
      right. right. exists (fst (xSemaphoreGive (MutexGuard.m_handle this) w)).
      split; [exact Hnn|]. split; [exact Hhandle|].
      rewrite semaphore_calls_app, Hcalls, Hhandle.
      change (EvGive handle (fst (xSemaphoreGive handle w)) :: unlock_line)
        with ([EvGive handle (fst (xSemaphoreGive handle w))] ++ unlock_line).
      rewrite semaphore_calls_app, semaphore_calls_unlock_line. reflexivity.
  - rewrite (unlock_not_held _ _ Htaken). cbn [value calls].
    rewrite app_nil_r. split; [exact Hh|]. now rewrite Htaken.
Qed.

Lemma rec_step_tracked (handle timeout : N) (s : Step W)
    (this : RecursiveMutexGuard.RecursiveMutexGuard) (w : W)
    (before : list Event) :
  rec_tracked handle timeout this before ->
  rec_tracked handle timeout (value (RecursiveMutexGuard.step s this w))
    (before ++ calls (RecursiveMutexGuard.step s this w)).
Proof.
  intros Ht.
  destruct s; cbn [RecursiveMutexGuard.step]; unfold ret, env;
    cbn [value calls]; rewrite ?app_nil_r; try exact Ht.
  destruct Ht as [Hh Ht].
  destruct (RecursiveMutexGuard.m_taken this) eqn:Htaken.
  - destruct Ht as (Hhandle & Hnn & Hcalls).
    assert (Hc : RecursiveMutexGuard.m_taken this
                 && negb (RecursiveMutexGuard.m_handle this =? nullptr)%N
                 = true).
    { rewrite Htaken, Hhandle. apply N.eqb_neq in Hnn. now rewrite Hnn. }
    destruct (xPortInIsrContext w) eqn:Hisr.
    + rewrite (rec_unlock_isr _ _ Hc Hisr). cbn [value calls].
      split; [exact Hh|]. rewrite Htaken.
      rewrite semaphore_calls_app, Hcalls. cbn. auto.
    + rewrite (rec_unlock_task _ _ Hc Hisr). cbv zeta. cbn [value calls].
      split; [cbn; auto|].
      cbn [RecursiveMutexGuard.m_taken RecursiveMutexGuard.m_handle].
      right. right.
      exists (fst (xSemaphoreGiveRecursive
                     (RecursiveMutexGuard.m_handle this) w)).
      split; [exact Hnn|]. split; [exact Hhandle|].
      rewrite semaphore_calls_app, Hcalls, Hhandle.
      match goal with |- context [?e :: recursive_unlock_line] =>
        change (e :: recursive_unlock_line) with ([e] ++ recursive_unlock_line)
      end.
      rewrite semaphore_calls_app, semaphore_calls_recursive_unlock_line.
      reflexivity.
  - rewrite (rec_unlock_not_held _ _ Htaken). cbn [value calls].
    rewrite app_nil_r. split; [exact Hh|]. now rewrite Htaken.
Qed.

(** Everything a constructor made and a script used is [tracked]. *)
Lemma lifetime_tracked (handle timeout : N) (script : list (Step W)) (w : W) :
  tracked handle timeout
    (value ((this <- MutexGuard.ctor handle timeout ;;
             MutexGuard.run script this) w))
    (calls ((this <- MutexGuard.ctor handle timeout ;;
             MutexGuard.run script this) w))
  /\ tracked handle timeout
       (value (MutexGuard.lifetime handle timeout script w))
       (calls (MutexGuard.lifetime handle timeout script w)).
Proof.
  apply (lifetime_keeps (tracked handle timeout)).
  - apply ctor_tracked.
  - intros. now apply step_tracked.
Qed.

Lemma rec_lifetime_tracked (handle timeout : N) (script : list (Step W))
    (w : W) :
  rec_tracked handle timeout
    (value ((this <- RecursiveMutexGuard.ctor handle timeout ;;
             RecursiveMutexGuard.run script this) w))
    (calls ((this <- RecursiveMutexGuard.ctor handle timeout ;;
             RecursiveMutexGuard.run script this) w))
  /\ rec_tracked handle timeout
       (value (RecursiveMutexGuard.lifetime handle timeout script w))
       (calls (RecursiveMutexGuard.lifetime handle timeout script w)).
Proof.
  apply (rec_lifetime_keeps (rec_tracked handle timeout)).
  - apply rec_ctor_tracked.
  - intros. now apply rec_step_tracked.
Qed.

Lemma tracked_wf (handle timeout : N) (this : MutexGuard.MutexGuard)
    (sofar : list Event) :
  tracked handle timeout this sofar -> MutexGuard.wf this.
Proof.
  intros [_ Ht] Hnull. destruct (MutexGuard.m_taken this); [|reflexivity].
  destruct Ht as (Hh & Hnn & _). congruence.
Qed.

Lemma rec_tracked_wf (handle timeout : N)
    (this : RecursiveMutexGuard.RecursiveMutexGuard) (sofar : list Event) :
  rec_tracked handle timeout this sofar -> RecursiveMutexGuard.wf this.
Proof.
  intros [_ Ht] Hnull.
  destruct (RecursiveMutexGuard.m_taken this); [|reflexivity].
  destruct Ht as (Hh & Hnn & _). congruence.
Qed.
End Lifetimes.

Section LifetimeClaims.
Context {W : Type} {R : FreeRTOS W} {F : BuildFlags}.

Lemma releases_of_semaphore_calls (l : list Event) :
  releases (semaphore_calls l) = releases l.
Proof.
  induction l as [|e l IH]; [reflexivity|].
  unfold releases, semaphore_calls in *. cbn.
  destruct e; cbn; rewrite ?IH; reflexivity.
Qed.

Lemma run_not_held (script : list (Step W)) (this : MutexGuard.MutexGuard)
    (w : W) :
  MutexGuard.m_taken this = false ->
  value (MutexGuard.run script this w) = this
  /\ calls (MutexGuard.run script this w) = [].
Proof.
  intros Ht. revert w. induction script as [|s rest IH]; intros w.
  - split; reflexivity.
  - cbn [MutexGuard.run]. unfold bind. cbn [value calls].
    assert (Hs : forall w, MutexGuard.step s this w
                           = mkOut this (world (MutexGuard.step s this w)) []).
    { intros w'. destruct s; cbn; try reflexivity.
      now rewrite (unlock_not_held _ _ Ht). }
    rewrite (Hs w). cbn [value calls world]. apply IH.
Qed.

Lemma rec_run_not_held (script : list (Step W))
    (this : RecursiveMutexGuard.RecursiveMutexGuard) (w : W) :
  RecursiveMutexGuard.m_taken this = false ->
  value (RecursiveMutexGuard.run script this w) = this
  /\ calls (RecursiveMutexGuard.run script this w) = [].
Proof.
  intros Ht. revert w. induction script as [|s rest IH]; intros w.
  - split; reflexivity.
  - cbn [RecursiveMutexGuard.run]. unfold bind. cbn [value calls].
    assert (Hs : forall w, RecursiveMutexGuard.step s this w
                           = mkOut this
                               (world (RecursiveMutexGuard.step s this w)) []).
    { intros w'. destruct s; cbn; try reflexivity.
      now rewrite (rec_unlock_not_held _ _ Ht). }
    rewrite (Hs w). cbn [value calls world]. apply IH.
Qed.

Lemma lifetime_app (handle timeout : N) (s1 s2 : list (Step W)) (w : W) :
  let o1 := (this <- MutexGuard.ctor handle timeout ;;
             MutexGuard.run s1 this) w in
  let o2 := MutexGuard.run s2 (value o1) (world o1) in
  let o3 := MutexGuard.dtor (value o2) (world o2) in
  MutexGuard.lifetime handle timeout (s1 ++ s2) w
  = mkOut (value o3) (world o3) (calls o1 ++ calls o2 ++ calls o3).
Proof.
  cbv zeta. unfold MutexGuard.lifetime. unfold bind at 1 2.
  rewrite run_app. unfold bind. cbn [value world calls].
  now rewrite <- !app_assoc.
Qed.

Lemma rec_lifetime_app (handle timeout : N) (s1 s2 : list (Step W)) (w : W) :
  let o1 := (this <- RecursiveMutexGuard.ctor handle timeout ;;
             RecursiveMutexGuard.run s1 this) w in
  let o2 := RecursiveMutexGuard.run s2 (value o1) (world o1) in
  let o3 := RecursiveMutexGuard.dtor (value o2) (world o2) in
  RecursiveMutexGuard.lifetime handle timeout (s1 ++ s2) w
  = mkOut (value o3) (world o3) (calls o1 ++ calls o2 ++ calls o3).
Proof.
  cbv zeta. unfold RecursiveMutexGuard.lifetime. unfold bind at 1 2.
  rewrite rec_run_app. unfold bind. cbn [value world calls].
  now rewrite <- !app_assoc.
Qed.

(** C4.  Take any handle, timeout and kernel state, and any code using the
    guard, cut at any point into [s1] and [s2].  The object satisfies the
    class invariant (null handle implies flag clear) after the constructor
    and [s1], after [s2] as well, and after the destructor.  If the handle
    is null at the cut, the flag is clear there, the object is the same
    object after [s2] and after the destructor, and neither makes any call:
    the flag stays clear for the rest of the life. *)
Theorem null_handle_never_holds (handle timeout : N)
    (s1 s2 : list (Step W)) (w : W) :
  (let o1 := (this <- MutexGuard.ctor handle timeout ;;
              MutexGuard.run s1 this) w in
   let o2 := MutexGuard.run s2 (value o1) (world o1) in
   let o3 := MutexGuard.dtor (value o2) (world o2) in
   MutexGuard.lifetime handle timeout (s1 ++ s2) w
   = mkOut (value o3) (world o3) (calls o1 ++ calls o2 ++ calls o3)
   /\ MutexGuard.wf (value o1)
   /\ MutexGuard.wf (value o2)
   /\ MutexGuard.wf (value o3)
   /\ (MutexGuard.m_handle (value o1) = nullptr ->
       MutexGuard.hasLock (value o1) = false
       /\ value o2 = value o1 /\ calls o2 = []
       /\ value o3 = value o1 /\ calls o3 = []))
  /\
  (let o1 := (this <- RecursiveMutexGuard.ctor handle timeout ;;
              RecursiveMutexGuard.run s1 this) w in
   let o2 := RecursiveMutexGuard.run s2 (value o1) (world o1) in
   let o3 := RecursiveMutexGuard.dtor (value o2) (world o2) in
   RecursiveMutexGuard.lifetime handle timeout (s1 ++ s2) w
   = mkOut (value o3) (world o3) (calls o1 ++ calls o2 ++ calls o3)
   /\ RecursiveMutexGuard.wf (value o1)
   /\ RecursiveMutexGuard.wf (value o2)
   /\ RecursiveMutexGuard.wf (value o3)
   /\ (RecursiveMutexGuard.m_handle (value o1) = nullptr ->
       RecursiveMutexGuard.hasLock (value o1) = false
       /\ value o2 = value o1 /\ calls o2 = []
       /\ value o3 = value o1 /\ calls o3 = [])).
Proof.
  split; intros o1 o2 o3.
  - assert (Hlife := lifetime_app handle timeout s1 s2 w).
    cbv zeta in Hlife. fold o1 in Hlife. fold o2 in Hlife. fold o3 in Hlife.
    split; [exact Hlife|].
    pose proof (lifetime_tracked handle timeout s1 w) as [T1 _].
    pose proof (lifetime_tracked handle timeout (s1 ++ s2) w) as [_ T3].
    fold o1 in T1. rewrite Hlife in T3. cbn [value calls] in T3.
    assert (T2 : tracked handle timeout (value o2) (calls o1 ++ calls o2)).
    { apply run_keeps; [intros; now apply step_tracked | exact T1]. }
    split; [exact (tracked_wf _ _ _ _ T1)|].
    split; [exact (tracked_wf _ _ _ _ T2)|].
    split; [exact (tracked_wf _ _ _ _ T3)|].
    intros Hnull.
    assert (Hf : MutexGuard.m_taken (value o1) = false)
      by exact (tracked_wf _ _ _ _ T1 Hnull).
    destruct (run_not_held s2 _ (world o1) Hf) as [Hv Hc]. fold o2 in Hv, Hc.
    split; [exact Hf|]. split; [exact Hv|]. split; [exact Hc|].
    subst o3. unfold MutexGuard.dtor. rewrite Hv.
    rewrite (unlock_not_held _ _ Hf). split; reflexivity.
  - assert (Hlife := rec_lifetime_app handle timeout s1 s2 w).
    cbv zeta in Hlife. fold o1 in Hlife. fold o2 in Hlife. fold o3 in Hlife.
    split; [exact Hlife|].
    pose proof (rec_lifetime_tracked handle timeout s1 w) as [T1 _].
    pose proof (rec_lifetime_tracked handle timeout (s1 ++ s2) w) as [_ T3].
    fold o1 in T1. rewrite Hlife in T3. cbn [value calls] in T3.
    assert (T2 : rec_tracked handle timeout (value o2) (calls o1 ++ calls o2)).
    { apply rec_run_keeps; [intros; now apply rec_step_tracked | exact T1]. }
    split; [exact (rec_tracked_wf _ _ _ _ T1)|].
    split; [exact (rec_tracked_wf _ _ _ _ T2)|].
    split; [exact (rec_tracked_wf _ _ _ _ T3)|].
    intros Hnull.
    assert (Hf : RecursiveMutexGuard.m_taken (value o1) = false)
      by exact (rec_tracked_wf _ _ _ _ T1 Hnull).
    destruct (rec_run_not_held s2 _ (world o1) Hf) as [Hv Hc].
    fold o2 in Hv, Hc.
    split; [exact Hf|]. split; [exact Hv|]. split; [exact Hc|].
    subst o3. unfold RecursiveMutexGuard.dtor. rewrite Hv.
    rewrite (rec_unlock_not_held _ _ Hf). split; reflexivity.
Qed.
Lemma dtor_releases (this : MutexGuard.MutexGuard) (w : W) :
  releases (calls (MutexGuard.dtor this w))
  = (if MutexGuard.hasLock this && MutexGuard.isValid this
        && negb (xPortInIsrContext w)
     then [EvGive (MutexGuard.m_handle this)
             (fst (xSemaphoreGive (MutexGuard.m_handle this) w))]
     else [])
  /\ world (MutexGuard.dtor this w)
     = (if MutexGuard.hasLock this && MutexGuard.isValid this
           && negb (xPortInIsrContext w)
        then snd (xSemaphoreGive (MutexGuard.m_handle this) w)
        else w).
Proof.
  unfold MutexGuard.dtor, MutexGuard.hasLock, MutexGuard.isValid.
  destruct (MutexGuard.m_taken this
            && negb (MutexGuard.m_handle this =? nullptr)%N) eqn:Hc.
  - destruct (xPortInIsrContext w) eqn:Hisr.
    + rewrite (unlock_isr _ _ Hc Hisr). split; reflexivity.
    + rewrite (unlock_task _ _ Hc Hisr). cbv zeta. cbn [calls world negb andb].
      split; [|reflexivity].
      change (releases ([EvGive (MutexGuard.m_handle this)
                (fst (xSemaphoreGive (MutexGuard.m_handle this) w))]
                ++ unlock_line) = [EvGive (MutexGuard.m_handle this)
                (fst (xSemaphoreGive (MutexGuard.m_handle this) w))]).
      now rewrite releases_app, releases_unlock_line.
  - rewrite (unlock_idle _ _ Hc). split; reflexivity.
Qed.

Lemma rec_dtor_releases (this : RecursiveMutexGuard.RecursiveMutexGuard)
    (w : W) :
  releases (calls (RecursiveMutexGuard.dtor this w))
  = (if RecursiveMutexGuard.hasLock this && RecursiveMutexGuard.isValid this
        && negb (xPortInIsrContext w)
     then [EvGiveRecursive (RecursiveMutexGuard.m_handle this)
             (fst (xSemaphoreGiveRecursive
                     (RecursiveMutexGuard.m_handle this) w))]
     else [])
  /\ world (RecursiveMutexGuard.dtor this w)
     = (if RecursiveMutexGuard.hasLock this && RecursiveMutexGuard.isValid this
           && negb (xPortInIsrContext w)
        then snd (xSemaphoreGiveRecursive
                    (RecursiveMutexGuard.m_handle this) w)
        else w).
Proof.
  unfold RecursiveMutexGuard.dtor, RecursiveMutexGuard.hasLock,
    RecursiveMutexGuard.isValid.
  destruct (RecursiveMutexGuard.m_taken this
            && negb (RecursiveMutexGuard.m_handle this =? nullptr)%N) eqn:Hc.
  - destruct (xPortInIsrContext w) eqn:Hisr.
    + rewrite (rec_unlock_isr _ _ Hc Hisr). split; reflexivity.
    + rewrite (rec_unlock_task _ _ Hc Hisr). cbv zeta.
      cbn [calls world negb andb]. split; [|reflexivity].
      match goal with |- releases (?e :: recursive_unlock_line) = _ =>
        change (e :: recursive_unlock_line) with ([e] ++ recursive_unlock_line)
      end.
      now rewrite releases_app, releases_recursive_unlock_line.
  - rewrite (rec_unlock_idle _ _ Hc). split; reflexivity.
Qed.

Lemma tracked_held_valid (handle timeout : N) (this : MutexGuard.MutexGuard)
    (sofar : list Event) :
  tracked handle timeout this sofar ->
  MutexGuard.hasLock this && MutexGuard.isValid this = MutexGuard.hasLock this
  /\ (MutexGuard.hasLock this = true -> MutexGuard.m_handle this = handle).
Proof.
  intros [_ Ht]. unfold MutexGuard.hasLock, MutexGuard.isValid.
  destruct (MutexGuard.m_taken this); [|split; [reflexivity|discriminate]].
  destruct Ht as (Hh & Hnn & _). rewrite Hh. apply N.eqb_neq in Hnn.
  rewrite Hnn. split; auto.
Qed.

Lemma rec_tracked_held_valid (handle timeout : N)
    (this : RecursiveMutexGuard.RecursiveMutexGuard) (sofar : list Event) :
  rec_tracked handle timeout this sofar ->
  RecursiveMutexGuard.hasLock this && RecursiveMutexGuard.isValid this
  = RecursiveMutexGuard.hasLock this
  /\ (RecursiveMutexGuard.hasLock this = true ->
      RecursiveMutexGuard.m_handle this = handle).
Proof.
  intros [_ Ht]. unfold RecursiveMutexGuard.hasLock, RecursiveMutexGuard.isValid.
  destruct (RecursiveMutexGuard.m_taken this);
    [|split; [reflexivity|discriminate]].
  destruct Ht as (Hh & Hnn & _). rewrite Hh. apply N.eqb_neq in Hnn.
  rewrite Hnn. split; auto.
Qed.

(** C6.  The destructor is [unlock()]: the same object, kernel state and
    calls, for every object and kernel state.  It gives the mutex back
    exactly when the object holds the lock (flag set, handle present) and
    the kernel is not in interrupt context, and gives nothing back
    otherwise.  For a guard built by its constructor and used by any code
    until the scope is left, at whatever point and by whatever exit: the
    calls of its life are those made up to the exit followed by those of the
    destructor, and the destructor gives back [handle] exactly when
    [hasLock()] was true at the exit and the exit was not in interrupt
    context. *)
Theorem destructor_is_unlock (this : MutexGuard.MutexGuard)
    (this' : RecursiveMutexGuard.RecursiveMutexGuard) (w : W)
    (handle timeout : N) (script : list (Step W)) (w0 : W) :
  (MutexGuard.dtor this w = MutexGuard.unlock this w
   /\ releases (calls (MutexGuard.dtor this w))
      = (if MutexGuard.hasLock this && MutexGuard.isValid this
            && negb (xPortInIsrContext w)
         then [EvGive (MutexGuard.m_handle this)
                 (fst (xSemaphoreGive (MutexGuard.m_handle this) w))]
         else [])
   /\ world (MutexGuard.dtor this w)
      = (if MutexGuard.hasLock this && MutexGuard.isValid this
            && negb (xPortInIsrContext w)
         then snd (xSemaphoreGive (MutexGuard.m_handle this) w)
         else w)
   /\ let atexit := (g <- MutexGuard.ctor handle timeout ;;
                     MutexGuard.run script g) w0 in
      let last := MutexGuard.dtor (value atexit) (world atexit) in
      MutexGuard.lifetime handle timeout script w0
      = mkOut (value last) (world last) (calls atexit ++ calls last)
      /\ releases (calls last)
         = (if MutexGuard.hasLock (value atexit)
               && negb (xPortInIsrContext (world atexit))
            then [EvGive handle (fst (xSemaphoreGive handle (world atexit)))]
            else []))
  /\
  (RecursiveMutexGuard.dtor this' w = RecursiveMutexGuard.unlock this' w
   /\ releases (calls (RecursiveMutexGuard.dtor this' w))
      = (if RecursiveMutexGuard.hasLock this'
            && RecursiveMutexGuard.isValid this'
            && negb (xPortInIsrContext w)
         then [EvGiveRecursive (RecursiveMutexGuard.m_handle this')
                 (fst (xSemaphoreGiveRecursive
                         (RecursiveMutexGuard.m_handle this') w))]
         else [])
   /\ world (RecursiveMutexGuard.dtor this' w)
      = (if RecursiveMutexGuard.hasLock this'
            && RecursiveMutexGuard.isValid this'
            && negb (xPortInIsrContext w)
         then snd (xSemaphoreGiveRecursive
                     (RecursiveMutexGuard.m_handle this') w)
         else w)
   /\ let atexit := (g <- RecursiveMutexGuard.ctor handle timeout ;;
                     RecursiveMutexGuard.run script g) w0 in
      let last := RecursiveMutexGuard.dtor (value atexit) (world atexit) in
      RecursiveMutexGuard.lifetime handle timeout script w0
      = mkOut (value last) (world last) (calls atexit ++ calls last)
      /\ releases (calls last)
         = (if RecursiveMutexGuard.hasLock (value atexit)
               && negb (xPortInIsrContext (world atexit))
            then [EvGiveRecursive handle
                    (fst (xSemaphoreGiveRecursive handle (world atexit)))]
            else [])).
Proof.
  split.
  - split; [reflexivity|].
    destruct (dtor_releases this w) as [Hr Hw].
    split; [exact Hr|]. split; [exact Hw|].
    intros atexit last. split.
    + unfold MutexGuard.lifetime. subst last atexit. unfold bind.
      cbn [value world calls]. now rewrite app_assoc.
    + pose proof (lifetime_tracked handle timeout script w0) as [T _].
      fold atexit in T.
      destruct (tracked_held_valid _ _ _ _ T) as [Hv Hh].
      subst last. rewrite (proj1 (dtor_releases _ _)), Hv.
      destruct (MutexGuard.hasLock (value atexit)); [|reflexivity].
      now rewrite (Hh eq_refl).
  - split; [reflexivity|].
    destruct (rec_dtor_releases this' w) as [Hr Hw].
    split; [exact Hr|]. split; [exact Hw|].
    intros atexit last. split.
    + unfold RecursiveMutexGuard.lifetime. subst last atexit. unfold bind.
      cbn [value world calls]. now rewrite app_assoc.
    + pose proof (rec_lifetime_tracked handle timeout script w0) as [T _].
      fold atexit in T.
      destruct (rec_tracked_held_valid _ _ _ _ T) as [Hv Hh].
      subst last. rewrite (proj1 (rec_dtor_releases _ _)), Hv.
      destruct (RecursiveMutexGuard.hasLock (value atexit)); [|reflexivity].
      now rewrite (Hh eq_refl).
Qed.

(** C10.  Over a whole life of a guard (constructor, any code using it,
    destructor), in any kernel and with interrupt context coming and going
    at will, the semaphore calls made through the guard are: none; or the
    one take alone; or the take, returning [pdTRUE], followed by the one
    give on the same non-null handle.  So the release is called at most
    once, never before a successful take of the same object, and never a
    second time. *)
Theorem at_most_one_release (handle timeout : N) (script : list (Step W))
    (w : W) :
  (let life := MutexGuard.lifetime handle timeout script w in
   (length (releases (calls life)) <= 1)%nat
   /\ (semaphore_calls (calls life) = []
       \/ (exists r, handle <> nullptr
                     /\ semaphore_calls (calls life)
                        = [EvTake handle timeout r])
       \/ (exists r, handle <> nullptr
                     /\ semaphore_calls (calls life)
                        = [EvTake handle timeout pdTRUE; EvGive handle r])))
  /\
  (let life := RecursiveMutexGuard.lifetime handle timeout script w in
   (length (releases (calls life)) <= 1)%nat
   /\ (semaphore_calls (calls life) = []
       \/ (exists r, handle <> nullptr
                     /\ semaphore_calls (calls life)
                        = [EvTakeRecursive handle timeout r])
       \/ (exists r, handle <> nullptr
                     /\ semaphore_calls (calls life)
                        = [EvTakeRecursive handle timeout pdTRUE;
                           EvGiveRecursive handle r]))).
Proof.
  split; intros life.
  - pose proof (lifetime_tracked handle timeout script w) as [_ [_ T]].
    fold life in T. rewrite <- releases_of_semaphore_calls.
    destruct (MutexGuard.m_taken (value life)).
    + destruct T as (_ & Hnn & Hc). rewrite Hc. split; [cbn; lia|].
      right. left. eauto.
    + destruct T as [Hc | [(r & _ & Hnn & _ & Hc) | (r & Hnn & _ & Hc)]];
        rewrite Hc; (split; [cbn; lia|]); eauto.
  - pose proof (rec_lifetime_tracked handle timeout script w) as [_ [_ T]].
    fold life in T. rewrite <- releases_of_semaphore_calls.
    destruct (RecursiveMutexGuard.m_taken (value life)).
    + destruct T as (_ & Hnn & Hc). rewrite Hc. split; [cbn; lia|].
      right. left. eauto.
    + destruct T as [Hc | [(r & _ & Hnn & _ & Hc) | (r & Hnn & _ & Hc)]];
        rewrite Hc; (split; [cbn; lia|]); eauto.
Qed.
(** C5.  [unlock()] on a guard that does not hold the lock is a no-op in
    every context: same object, same kernel state, no call, no log line.
    Outside interrupt context, two calls in succession are one call: the
    second adds nothing, wherever it is made; neither writes an error line;
    and after the first, [hasLock()] is false for every object that
    satisfies the class invariant; and every object that a constructor made
    and any code then used satisfies it. *)
Theorem unlock_idempotent (idle this : MutexGuard.MutexGuard)
    (idle' this' : RecursiveMutexGuard.RecursiveMutexGuard) (w later : W)
    (handle timeout : N) (script : list (Step W)) (w0 : W) :
  ((MutexGuard.hasLock idle = false ->
    MutexGuard.unlock idle later = mkOut idle later [])
   /\
   (xPortInIsrContext w = false ->
    let once := MutexGuard.unlock this w in
    (g <- MutexGuard.unlock this ;; MutexGuard.unlock g) w = once
    /\ MutexGuard.unlock (value once) later = mkOut (value once) later []
    /\ errors (calls once) = []
    /\ (MutexGuard.wf this -> MutexGuard.hasLock (value once) = false))
   /\
   MutexGuard.wf (value ((g <- MutexGuard.ctor handle timeout ;;
                          MutexGuard.run script g) w0)))
  /\
  ((RecursiveMutexGuard.hasLock idle' = false ->
    RecursiveMutexGuard.unlock idle' later = mkOut idle' later [])
   /\
   (xPortInIsrContext w = false ->
    let once := RecursiveMutexGuard.unlock this' w in
    (g <- RecursiveMutexGuard.unlock this' ;; RecursiveMutexGuard.unlock g) w
    = once
    /\ RecursiveMutexGuard.unlock (value once) later
       = mkOut (value once) later []
    /\ errors (calls once) = []
    /\ (RecursiveMutexGuard.wf this' ->
        RecursiveMutexGuard.hasLock (value once) = false))
   /\
   RecursiveMutexGuard.wf
     (value ((g <- RecursiveMutexGuard.ctor handle timeout ;;
              RecursiveMutexGuard.run script g) w0))).
Proof.
  split; (split; [intros Hn; unfold MutexGuard.hasLock,
                    RecursiveMutexGuard.hasLock in Hn;
                  first [now apply unlock_not_held
                        | now apply rec_unlock_not_held] |]);
    (split;
     [| first [exact (tracked_wf _ _ _ _
                        (proj1 (lifetime_tracked handle timeout script w0)))
              | exact (rec_tracked_wf _ _ _ _
                         (proj1 (rec_lifetime_tracked handle timeout
                                   script w0)))]]).
  - intros Hisr. cbv zeta. unfold bind at 1.
    destruct (MutexGuard.m_taken this
              && negb (MutexGuard.m_handle this =? nullptr)%N) eqn:Hc.
    + rewrite (unlock_task _ _ Hc Hisr). cbv zeta. cbn [value world calls].
      rewrite !unlock_not_held by reflexivity. cbn [value world calls].
      rewrite app_nil_r. unfold unlock_line, errors.
      destruct MUTEX_GUARD_DEBUG; repeat split; reflexivity.
    + rewrite (unlock_idle _ _ Hc). cbn [value world calls].
      rewrite !(unlock_idle _ _ Hc). repeat split; try reflexivity.
      intros Hwf. unfold MutexGuard.wf, MutexGuard.hasLock in *.
      destruct (MutexGuard.m_taken this); [|reflexivity].
      cbn in Hc. apply negb_false_iff, N.eqb_eq in Hc. auto.
  - intros Hisr. cbv zeta. unfold bind at 1.
    destruct (RecursiveMutexGuard.m_taken this'
              && negb (RecursiveMutexGuard.m_handle this' =? nullptr)%N)
      eqn:Hc.
    + rewrite (rec_unlock_task _ _ Hc Hisr). cbv zeta. cbn [value world calls].
      rewrite !rec_unlock_not_held by reflexivity. cbn [value world calls].
      rewrite app_nil_r. unfold recursive_unlock_line, errors.
      destruct RECURSIVE_MUTEX_GUARD_DEBUG; repeat split; reflexivity.
    + rewrite (rec_unlock_idle _ _ Hc). cbn [value world calls].
      rewrite !(rec_unlock_idle _ _ Hc). repeat split; try reflexivity.
      intros Hwf. unfold RecursiveMutexGuard.wf, RecursiveMutexGuard.hasLock in *.
      destruct (RecursiveMutexGuard.m_taken this'); [|reflexivity].
      cbn in Hc. apply negb_false_iff, N.eqb_eq in Hc. auto.
Qed.
End LifetimeClaims.

(** ** The recursive guard against the plain one *)

Section Substitution.
Context {W : Type} (R : FreeRTOS W) (F : BuildFlags).

Lemma sim_ctor (handle timeout : N) (w : W) :
  RecursiveMutexGuard.ctor handle timeout w
  = SubstitutedGuard.ctor R F handle timeout w.
Proof.
  unfold SubstitutedGuard.ctor, out_as_recursive, as_recursive.
  guard_unfold. cbn.
  destruct (handle =? nullptr)%N; cbn; [reflexivity|].
  destruct (xPortInIsrContext w); cbn; [reflexivity|].
  destruct (fst (xSemaphoreTakeRecursive handle timeout w) =? pdTRUE)%Z;
    destruct RECURSIVE_MUTEX_GUARD_DEBUG; reflexivity.
Qed.

Lemma sim_unlock (this : MutexGuard.MutexGuard) (w : W) :
  RecursiveMutexGuard.unlock (as_recursive this) w
  = SubstitutedGuard.unlock R F this w.
Proof.
  destruct this as [h taken].
  unfold SubstitutedGuard.unlock, out_as_recursive, as_recursive.
  guard_unfold. cbn.
  destruct taken; cbn; [|reflexivity].
  destruct (h =? nullptr)%N; cbn; [reflexivity|].
  destruct (xPortInIsrContext w); cbn; [reflexivity|].
  destruct RECURSIVE_MUTEX_GUARD_DEBUG; reflexivity.
Qed.

Lemma sim_step (s : Step W) (this : MutexGuard.MutexGuard) (w : W) :
  RecursiveMutexGuard.step s (as_recursive this) w
  = SubstitutedGuard.step R F s this w.
Proof.
  destruct s; [reflexivity | reflexivity | reflexivity | | reflexivity].
  apply sim_unlock.
Qed.

Lemma sim_run (script : list (Step W)) (this : MutexGuard.MutexGuard) (w : W) :
  RecursiveMutexGuard.run script (as_recursive this) w
  = SubstitutedGuard.run R F script this w.
Proof.
  revert this w.
  induction script as [|s rest IH]; intros this w; [reflexivity|].
  unfold SubstitutedGuard.run.
  cbn [RecursiveMutexGuard.run MutexGuard.run]. unfold bind.
  rewrite sim_step. unfold SubstitutedGuard.step.
  destruct (MutexGuard.step (R := recursive_primitives R)
              (F := recursive_flags F) s this w) as [g' w' c'].
  unfold out_as_recursive. cbn [value world calls].
  rewrite !IH. unfold SubstitutedGuard.run, out_as_recursive.
  cbn [value world calls]. now rewrite map_app.
Qed.

Lemma sim_lifetime (handle timeout : N) (script : list (Step W)) (w : W) :
  RecursiveMutexGuard.lifetime handle timeout script w
  = SubstitutedGuard.lifetime R F handle timeout script w.
Proof.
  unfold SubstitutedGuard.lifetime,
    RecursiveMutexGuard.lifetime, MutexGuard.lifetime,
    RecursiveMutexGuard.dtor, MutexGuard.dtor, bind.
  rewrite sim_ctor. unfold SubstitutedGuard.ctor.
  destruct (MutexGuard.ctor (R := recursive_primitives R)
              (F := recursive_flags F) handle timeout w) as [g1 w1 c1].
  unfold out_as_recursive. cbn [value world calls].
  rewrite !sim_run. unfold SubstitutedGuard.run.
  destruct (MutexGuard.run (R := recursive_primitives R)
              (F := recursive_flags F) script g1 w1) as [g2 w2 c2].
  unfold out_as_recursive. cbn [value world calls].
  rewrite !sim_unlock. unfold SubstitutedGuard.unlock, out_as_recursive.
  cbn [value world calls]. now rewrite !map_app.
Qed.

(** C9.  On every kernel, in every build and kernel state, each method of
    [RecursiveMutexGuard] does what the same method of [MutexGuard] does
    when the plain take and give are replaced by the recursive ones: the
    same members in the object, the same kernel state, and the same calls
    and log lines up to their names.  This holds for the constructor,
    [unlock()], the destructor and whole lives, and the three queries read
    the members in the same way.  The object of the recursive guard is a
    handle and one flag and nothing more: every such object is the image of
    the plain object with the same two members, so the nesting depth can
    only be in the kernel state. *)
Theorem recursive_guard_is_substituted_guard (handle timeout : N)
    (this : MutexGuard.MutexGuard) (script : list (Step W)) (w : W) :
  RecursiveMutexGuard.ctor handle timeout w
  = SubstitutedGuard.ctor R F handle timeout w
  /\ RecursiveMutexGuard.unlock (as_recursive this) w
     = SubstitutedGuard.unlock R F this w
  /\ RecursiveMutexGuard.dtor (as_recursive this) w
     = SubstitutedGuard.dtor R F this w
  /\ RecursiveMutexGuard.lifetime handle timeout script w
     = SubstitutedGuard.lifetime R F handle timeout script w
  /\ RecursiveMutexGuard.hasLock (as_recursive this) = MutexGuard.hasLock this
  /\ RecursiveMutexGuard.isValid (as_recursive this) = MutexGuard.isValid this
  /\ RecursiveMutexGuard.operator_bool (as_recursive this)
     = MutexGuard.operator_bool this
  /\ (forall g : RecursiveMutexGuard.RecursiveMutexGuard,
         as_recursive
           {| MutexGuard.m_handle := RecursiveMutexGuard.m_handle g;
              MutexGuard.m_taken := RecursiveMutexGuard.m_taken g |} = g).
Proof.
  split; [apply sim_ctor|]. split; [apply sim_unlock|].
  split; [apply sim_unlock|]. split; [apply sim_lifetime|].
  split; [reflexivity|]. split; [reflexivity|]. split; [reflexivity|].
  intros [h b]. reflexivity.
Qed.
End Substitution.

(** ** Concrete runs on the reference kernel *)

Lemma isr_construction_refused_witness :
  Scenes.testMutex <> nullptr
  /\ xPortInIsrContext Scenes.in_handler = true
  /\ MutexGuard.isValid
       (value (MutexGuard.ctor (F := Kernel.release_build)
                 Scenes.testMutex 100 Scenes.in_handler)) = false
  /\ RecursiveMutexGuard.hasLock
       (value (RecursiveMutexGuard.ctor (F := Kernel.release_build)
                 Scenes.testMutex 100 Scenes.in_handler)) = false.
Proof.
  assert (Hh : Scenes.testMutex <> nullptr) by (vm_compute; discriminate).
  assert (Hisr : xPortInIsrContext Scenes.in_handler = true) by reflexivity.
  split; [exact Hh|]. split; [exact Hisr|].
  destruct (isr_construction_refused (F := Kernel.release_build)
              Scenes.testMutex 100 Scenes.in_handler Hh Hisr)
    as [(_ & Hv & _) (_ & _ & Hl & _)].
  split; [exact Hv | exact Hl].
Defined.

Lemma isValid_ignores_the_outcome_witness :
  Scenes.testMutex <> nullptr
  /\ xPortInIsrContext Scenes.contended = false
  /\ MutexGuard.isValid
       (value (MutexGuard.ctor (F := Kernel.release_build)
                 Scenes.testMutex 10 Scenes.contended)) = true
  /\ MutexGuard.hasLock
       (value (MutexGuard.ctor (F := Kernel.release_build)
                 Scenes.testMutex 10 Scenes.contended)) = false.
Proof.
  assert (Hh : Scenes.testMutex <> nullptr) by (vm_compute; discriminate).
  assert (Hisr : xPortInIsrContext Scenes.contended = false) by reflexivity.
  split; [exact Hh|]. split; [exact Hisr|].
  destruct (isValid_ignores_the_outcome (F := Kernel.release_build)
              Scenes.testMutex 10 Scenes.contended Hh Hisr)
    as [(Hv & _ & Hl) _].
  split; [exact Hv | rewrite Hl; vm_compute; reflexivity].
Defined.

Lemma timeout_is_reported_by_hasLock_witness :
  Scenes.testMutex <> nullptr
  /\ xPortInIsrContext Scenes.contended = false
  /\ fst (xSemaphoreTake Scenes.testMutex 10 Scenes.contended) <> pdTRUE
  /\ fst (xSemaphoreTakeRecursive Scenes.testMutex 10 Scenes.contended)
     <> pdTRUE
  /\ MutexGuard.hasLock
       (value (MutexGuard.ctor (F := Kernel.release_build)
                 Scenes.testMutex 10 Scenes.contended)) = false
  /\ RecursiveMutexGuard.hasLock
       (value (RecursiveMutexGuard.ctor (F := Kernel.release_build)
                 Scenes.testMutex 10 Scenes.contended)) = false.
Proof.
  assert (Hh : Scenes.testMutex <> nullptr) by (vm_compute; discriminate).
  assert (Hisr : xPortInIsrContext Scenes.contended = false) by reflexivity.
  assert (Ht : fst (xSemaphoreTake Scenes.testMutex 10 Scenes.contended)
               <> pdTRUE) by (vm_compute; discriminate).
  assert (Hr : fst (xSemaphoreTakeRecursive Scenes.testMutex 10
                      Scenes.contended) <> pdTRUE)
    by (vm_compute; discriminate).
  destruct (timeout_is_reported_by_hasLock (F := Kernel.release_build)
              Scenes.testMutex 10 Scenes.contended Hh Hisr) as [A B].
  destruct (A Ht) as (_ & Ha & _). destruct (B Hr) as (_ & Hb & _).
  repeat split; assumption.
Defined.

(** C1 at a concrete input.  A task builds a guard over the free
    [testMutex] and an interrupt handler then calls [unlock()] on it.  The
    claim, and the documentation of [unlock()] in [MutexGuard.h], say that
    [hasLock()] returns false afterwards; the code leaves it true. *)
Lemma unlock_in_isr_counterexample :
  MutexGuard.hasLock (value Scenes.built) = true
  /\ xPortInIsrContext Scenes.interrupted = true
  /\ MutexGuard.hasLock
       (value (MutexGuard.unlock (F := Kernel.release_build)
                 (value Scenes.built) Scenes.interrupted)) = true
  /\ MutexGuard.hasLock
       (value (MutexGuard.unlock (F := Kernel.release_build)
                 (value Scenes.built) Scenes.interrupted)) <> false.
Proof.
  vm_compute. repeat split; try reflexivity. discriminate.
Qed.

Lemma unlock_in_isr_refused_witness :
  xPortInIsrContext Scenes.interrupted = true
  /\ MutexGuard.hasLock (value Scenes.built) = true
  /\ RecursiveMutexGuard.hasLock (value Scenes.built_recursive) = true
  /\ value (MutexGuard.unlock (F := Kernel.release_build)
              (value Scenes.built) Scenes.interrupted)
     = value Scenes.built
  /\ world (RecursiveMutexGuard.unlock (F := Kernel.release_build)
              (value Scenes.built_recursive) Scenes.interrupted)
     = Scenes.interrupted.
Proof.
  assert (Hisr : xPortInIsrContext Scenes.interrupted = true) by reflexivity.
  assert (Ha : MutexGuard.hasLock (value Scenes.built) = true)
    by (vm_compute; reflexivity).
  assert (Hb : RecursiveMutexGuard.hasLock (value Scenes.built_recursive)
               = true) by (vm_compute; reflexivity).
  destruct (unlock_in_isr_refused (F := Kernel.release_build)
              (value Scenes.built) (value Scenes.built_recursive)
              Scenes.interrupted Hisr) as [A B].
  destruct (A Ha) as (Hv & _). destruct (B Hb) as (_ & _ & Hw & _).
  repeat split; assumption.
Defined.

Lemma unlock_idempotent_witness :
  MutexGuard.hasLock (value Scenes.released) = false
  /\ RecursiveMutexGuard.hasLock (value Scenes.released_recursive) = false
  /\ xPortInIsrContext (world Scenes.built) = false
  /\ MutexGuard.wf (value Scenes.built)
  /\ RecursiveMutexGuard.wf (value Scenes.built_recursive)
  /\ MutexGuard.unlock (F := Kernel.release_build)
       (value Scenes.released) Scenes.interrupted
     = mkOut (value Scenes.released) Scenes.interrupted []
  /\ MutexGuard.hasLock
       (value (MutexGuard.unlock (F := Kernel.release_build)
                 (value Scenes.built) (world Scenes.built))) = false
  /\ RecursiveMutexGuard.hasLock
       (value (RecursiveMutexGuard.unlock (F := Kernel.release_build)
                 (value Scenes.built_recursive) (world Scenes.built)))
     = false
  /\ calls ((g <- MutexGuard.unlock (F := Kernel.release_build)
                    (value Scenes.built) ;;
             MutexGuard.unlock (F := Kernel.release_build) g)
              (world Scenes.built))
     = [EvGive Scenes.testMutex pdTRUE].
Proof.
  assert (Hn : MutexGuard.hasLock (value Scenes.released) = false)
    by (vm_compute; reflexivity).
  assert (Hn' : RecursiveMutexGuard.hasLock (value Scenes.released_recursive)
                = false) by (vm_compute; reflexivity).
  assert (Hisr : xPortInIsrContext (world Scenes.built) = false)
    by reflexivity.
  assert (Hwf : MutexGuard.wf (value Scenes.built))
    by (intros E; vm_compute in E; discriminate E).
  assert (Hwf' : RecursiveMutexGuard.wf (value Scenes.built_recursive))
    by (intros E; vm_compute in E; discriminate E).
  destruct (unlock_idempotent (F := Kernel.release_build)
              (value Scenes.released) (value Scenes.built)
              (value Scenes.released_recursive) (value Scenes.built_recursive)
              (world Scenes.built) Scenes.interrupted
              Scenes.testMutex 100 Scenes.back_in_task Scenes.idle)
    as [[I [A _]] [I' [B _]]].
  pose proof (I Hn) as Hidle. pose proof (I' Hn') as _.
  destruct (A Hisr) as (Htwice & _ & _ & Hl).
  destruct (B Hisr) as (_ & _ & _ & Hl').
  split; [exact Hn|]. split; [exact Hn'|]. split; [exact Hisr|].
  split; [exact Hwf|]. split; [exact Hwf'|]. split; [exact Hidle|].
  split; [exact (Hl Hwf)|]. split; [exact (Hl' Hwf')|].
  rewrite Htwice. vm_compute. reflexivity.
Defined.

Lemma null_handle_never_holds_witness :
  MutexGuard.m_handle
    (value ((this <- MutexGuard.ctor (F := Kernel.release_build)
                       Scenes.testMutex 100 ;;
             MutexGuard.run (F := Kernel.release_build) [] this) Scenes.in_handler)) = nullptr
  /\ RecursiveMutexGuard.m_handle
       (value ((this <- RecursiveMutexGuard.ctor (F := Kernel.release_build)
                          Scenes.testMutex 100 ;;
                RecursiveMutexGuard.run (F := Kernel.release_build) [] this) Scenes.in_handler)) = nullptr
  /\ MutexGuard.hasLock
       (value (MutexGuard.lifetime (F := Kernel.release_build)
                 Scenes.testMutex 100 ([] ++ Scenes.back_in_task)
                 Scenes.in_handler)) = false
  /\ RecursiveMutexGuard.hasLock
       (value (RecursiveMutexGuard.lifetime (F := Kernel.release_build)
                 Scenes.testMutex 100 ([] ++ Scenes.back_in_task)
                 Scenes.in_handler)) = false.
Proof.
  assert (Ha : MutexGuard.m_handle
                 (value ((this <- MutexGuard.ctor (F := Kernel.release_build)
                                    Scenes.testMutex 100 ;;
                          MutexGuard.run (F := Kernel.release_build) [] this) Scenes.in_handler))
               = nullptr) by reflexivity.
  assert (Hb : RecursiveMutexGuard.m_handle
                 (value ((this <- RecursiveMutexGuard.ctor
                                    (F := Kernel.release_build)
                                    Scenes.testMutex 100 ;;
                          RecursiveMutexGuard.run (F := Kernel.release_build) [] this) Scenes.in_handler))
               = nullptr) by reflexivity.
  destruct (null_handle_never_holds (F := Kernel.release_build)
              Scenes.testMutex 100 [] Scenes.back_in_task Scenes.in_handler)
    as [(La & _ & _ & _ & A) (Lb & _ & _ & _ & B)].
  destruct (A Ha) as (Hla & _ & _ & Hva & _).
  destruct (B Hb) as (Hlb & _ & _ & Hvb & _).
  split; [exact Ha|]. split; [exact Hb|]. split.
  - rewrite La. cbn [value]. rewrite Hva. exact Hla.
  - rewrite Lb. cbn [value]. rewrite Hvb. exact Hlb.
Defined.

(** ** More on the two guards *)

Section GuardFacts.
Context {W : Type} {R : FreeRTOS W} {F : BuildFlags}.

(** X1.  The constructor, on every input.  It calls the take exactly when the
    handle is not null and the kernel is not in interrupt context, with the
    handle and the timeout it was given and nothing else; the object is
    valid exactly then, keeps that handle exactly then, and holds the lock
    exactly when, in addition, the take returned [pdTRUE]. *)
Theorem ctor_outcome (handle timeout : N) (w : W) :
  let attempt := negb (handle =? nullptr)%N && negb (xPortInIsrContext w) in
  (let o := MutexGuard.ctor handle timeout w in
   let r := xSemaphoreTake handle timeout w in
   MutexGuard.isValid (value o) = attempt
   /\ MutexGuard.hasLock (value o) = attempt && (fst r =? pdTRUE)%Z
   /\ MutexGuard.m_handle (value o) = (if attempt then handle else nullptr)
   /\ semaphore_calls (calls o)
      = (if attempt then [EvTake handle timeout (fst r)] else [])
   /\ world o = (if attempt then snd r else w))
  /\
  (let o := RecursiveMutexGuard.ctor handle timeout w in
   let r := xSemaphoreTakeRecursive handle timeout w in
   RecursiveMutexGuard.isValid (value o) = attempt
   /\ RecursiveMutexGuard.hasLock (value o) = attempt && (fst r =? pdTRUE)%Z
   /\ RecursiveMutexGuard.m_handle (value o)
      = (if attempt then handle else nullptr)
   /\ semaphore_calls (calls o)
      = (if attempt then [EvTakeRecursive handle timeout (fst r)] else [])
   /\ world o = (if attempt then snd r else w)).
Proof.
  cbv zeta.
  destruct (N.eq_dec handle nullptr) as [->|Hh].
  { rewrite ctor_null, rec_ctor_null. cbn. repeat split. }
  destruct (xPortInIsrContext w) eqn:Hisr.
  { rewrite (ctor_isr _ _ _ Hh Hisr), (rec_ctor_isr _ _ _ Hh Hisr).
    rewrite andb_false_r. cbn. repeat split. }
  rewrite (ctor_task _ _ _ Hh Hisr), (rec_ctor_task _ _ _ Hh Hisr).
  cbv zeta. apply N.eqb_neq in Hh.
  unfold MutexGuard.isValid, MutexGuard.hasLock,
    RecursiveMutexGuard.isValid, RecursiveMutexGuard.hasLock.
  cbn [value world calls MutexGuard.m_handle MutexGuard.m_taken
       RecursiveMutexGuard.m_handle RecursiveMutexGuard.m_taken].
  rewrite Hh. cbn [negb andb].
  split; repeat split.
  - match goal with |- semaphore_calls (?e :: lock_line ?b) = _ =>
      change (e :: lock_line b) with ([e] ++ lock_line b) end.
    now rewrite semaphore_calls_app, semaphore_calls_lock_line.
  - match goal with |- semaphore_calls (?e :: recursive_lock_line ?b) = _ =>
      change (e :: recursive_lock_line b) with ([e] ++ recursive_lock_line b)
    end.
    now rewrite semaphore_calls_app, semaphore_calls_recursive_lock_line.
Qed.
Lemma step_after_construction (s : Step W) (this : MutexGuard.MutexGuard)
    (w : W) :
  MutexGuard.m_handle (value (MutexGuard.step s this w))
  = MutexGuard.m_handle this
  /\ acquisitions (calls (MutexGuard.step s this w)) = []
  /\ (MutexGuard.m_taken (value (MutexGuard.step s this w)) = true ->
      MutexGuard.m_taken this = true).
Proof.
  destruct s; cbn; auto.
  destruct (MutexGuard.m_taken this
            && negb (MutexGuard.m_handle this =? nullptr)%N) eqn:Hc.
  - destruct (xPortInIsrContext w) eqn:Hisr.
    + rewrite (unlock_isr _ _ Hc Hisr). cbn.
      apply andb_true_iff in Hc. tauto.
    + rewrite (unlock_task _ _ Hc Hisr). cbn. unfold unlock_line.
      destruct MUTEX_GUARD_DEBUG; cbn; repeat split; discriminate.
  - rewrite (unlock_idle _ _ Hc). cbn. auto.
Qed.

Lemma rec_step_after_construction (s : Step W)
    (this : RecursiveMutexGuard.RecursiveMutexGuard) (w : W) :
  RecursiveMutexGuard.m_handle (value (RecursiveMutexGuard.step s this w))
  = RecursiveMutexGuard.m_handle this
  /\ acquisitions (calls (RecursiveMutexGuard.step s this w)) = []
  /\ (RecursiveMutexGuard.m_taken
        (value (RecursiveMutexGuard.step s this w)) = true ->
      RecursiveMutexGuard.m_taken this = true).
Proof.
  destruct s; cbn; auto.
  destruct (RecursiveMutexGuard.m_taken this
            && negb (RecursiveMutexGuard.m_handle this =? nullptr)%N) eqn:Hc.
  - destruct (xPortInIsrContext w) eqn:Hisr.
    + rewrite (rec_unlock_isr _ _ Hc Hisr). cbn.
      apply andb_true_iff in Hc. tauto.
    + rewrite (rec_unlock_task _ _ Hc Hisr). cbn.
      unfold recursive_unlock_line.
      destruct RECURSIVE_MUTEX_GUARD_DEBUG; cbn; repeat split; discriminate.
  - rewrite (rec_unlock_idle _ _ Hc). cbn. auto.
Qed.

(** X2.  Once built, a guard never takes again and never changes its handle.
    Whatever code uses it, from whatever state of the object: the handle
    and [isValid()] stay what they were, no acquire call of either kind is
    made, and [hasLock()] can be true afterwards only if it was true
    before.  A guard that failed to lock stays unlocked; a retry needs a
    new guard. *)
Theorem no_second_attempt (script : list (Step W))
    (this : MutexGuard.MutexGuard)
    (this' : RecursiveMutexGuard.RecursiveMutexGuard) (w : W) :
  (let o := MutexGuard.run script this w in
   MutexGuard.m_handle (value o) = MutexGuard.m_handle this
   /\ MutexGuard.isValid (value o) = MutexGuard.isValid this
   /\ acquisitions (calls o) = []
   /\ (MutexGuard.hasLock (value o) = true -> MutexGuard.hasLock this = true))
  /\
  (let o := RecursiveMutexGuard.run script this' w in
   RecursiveMutexGuard.m_handle (value o) = RecursiveMutexGuard.m_handle this'
   /\ RecursiveMutexGuard.isValid (value o)
      = RecursiveMutexGuard.isValid this'
   /\ acquisitions (calls o) = []
   /\ (RecursiveMutexGuard.hasLock (value o) = true ->
       RecursiveMutexGuard.hasLock this' = true)).
Proof.
  cbv zeta. split.
  - assert (H : MutexGuard.m_handle (value (MutexGuard.run script this w))
                = MutexGuard.m_handle this
                /\ acquisitions (calls (MutexGuard.run script this w)) = []
                /\ (MutexGuard.m_taken (value (MutexGuard.run script this w))
                    = true -> MutexGuard.m_taken this = true)).
    { revert this w. induction script as [|s rest IH]; intros this w.
      - cbn. auto.
      - cbn [MutexGuard.run]. unfold bind. cbn [value calls].
        destruct (step_after_construction s this w) as (Hh & Ha & Ht).
        destruct (IH (value (MutexGuard.step s this w))
                    (world (MutexGuard.step s this w))) as (Hh' & Ha' & Ht').
        unfold acquisitions in *. rewrite List.filter_app, Ha, Ha'.
        repeat split; [congruence | auto]. }
    destruct H as (Hh & Ha & Ht). unfold MutexGuard.isValid, MutexGuard.hasLock.
    rewrite Hh. auto.
  - assert (H : RecursiveMutexGuard.m_handle
                  (value (RecursiveMutexGuard.run script this' w))
                = RecursiveMutexGuard.m_handle this'
                /\ acquisitions
                     (calls (RecursiveMutexGuard.run script this' w)) = []
                /\ (RecursiveMutexGuard.m_taken
                      (value (RecursiveMutexGuard.run script this' w)) = true
                    -> RecursiveMutexGuard.m_taken this' = true)).
    { revert this' w. induction script as [|s rest IH]; intros this' w.
      - cbn. auto.
      - cbn [RecursiveMutexGuard.run]. unfold bind. cbn [value calls].
        destruct (rec_step_after_construction s this' w) as (Hh & Ha & Ht).
        destruct (IH (value (RecursiveMutexGuard.step s this' w))
                    (world (RecursiveMutexGuard.step s this' w)))
          as (Hh' & Ha' & Ht').
        unfold acquisitions in *. rewrite List.filter_app, Ha, Ha'.
        repeat split; [congruence | auto]. }
    destruct H as (Hh & Ha & Ht).
    unfold RecursiveMutexGuard.isValid, RecursiveMutexGuard.hasLock.
    rewrite Hh. auto.
Qed.

(** X3.  An [unlock()] that was refused in interrupt context loses nothing: the
    next [unlock()] made in task context, on the object the refused call
    left, gives the mutex back on the same handle and clears the flag. *)
Theorem refused_unlock_can_be_repeated (this : MutexGuard.MutexGuard)
    (this' : RecursiveMutexGuard.RecursiveMutexGuard) (handler task : W) :
  xPortInIsrContext handler = true ->
  xPortInIsrContext task = false ->
  (MutexGuard.hasLock this = true -> MutexGuard.isValid this = true ->
   let refused := MutexGuard.unlock this handler in
   let again := MutexGuard.unlock (value refused) task in
   releases (calls refused) = []
   /\ releases (calls again)
      = [EvGive (MutexGuard.m_handle this)
           (fst (xSemaphoreGive (MutexGuard.m_handle this) task))]
   /\ world again = snd (xSemaphoreGive (MutexGuard.m_handle this) task)
   /\ MutexGuard.hasLock (value again) = false
   /\ MutexGuard.m_handle (value again) = MutexGuard.m_handle this)
  /\
  (RecursiveMutexGuard.hasLock this' = true ->
   RecursiveMutexGuard.isValid this' = true ->
   let refused := RecursiveMutexGuard.unlock this' handler in
   let again := RecursiveMutexGuard.unlock (value refused) task in
   releases (calls refused) = []
   /\ releases (calls again)
      = [EvGiveRecursive (RecursiveMutexGuard.m_handle this')
           (fst (xSemaphoreGiveRecursive
                   (RecursiveMutexGuard.m_handle this') task))]
   /\ world again
      = snd (xSemaphoreGiveRecursive (RecursiveMutexGuard.m_handle this') task)
   /\ RecursiveMutexGuard.hasLock (value again) = false
   /\ RecursiveMutexGuard.m_handle (value again)
      = RecursiveMutexGuard.m_handle this').
Proof.
  intros Hh Ht. split; intros Hl Hv; cbv zeta.
  - assert (Hc : MutexGuard.m_taken this
                 && negb (MutexGuard.m_handle this =? nullptr)%N = true).
    { unfold MutexGuard.hasLock, MutexGuard.isValid in *. now rewrite Hl, Hv. }
    rewrite (unlock_isr _ _ Hc Hh). cbn [value calls world].
    rewrite (unlock_task _ _ Hc Ht). cbv zeta. cbn [value calls world].
    split; [reflexivity|]. split; [|repeat split].
    match goal with |- releases (?e :: unlock_line) = _ =>
      change (e :: unlock_line) with ([e] ++ unlock_line) end.
    now rewrite releases_app, releases_unlock_line.
  - assert (Hc : RecursiveMutexGuard.m_taken this'
                 && negb (RecursiveMutexGuard.m_handle this' =? nullptr)%N
                 = true).
    { unfold RecursiveMutexGuard.hasLock, RecursiveMutexGuard.isValid in *.
      now rewrite Hl, Hv. }
    rewrite (rec_unlock_isr _ _ Hc Hh). cbn [value calls world].
    rewrite (rec_unlock_task _ _ Hc Ht). cbv zeta. cbn [value calls world].
    split; [reflexivity|]. split; [|repeat split].
    match goal with |- releases (?e :: recursive_unlock_line) = _ =>
      change (e :: recursive_unlock_line) with ([e] ++ recursive_unlock_line)
    end.
    now rewrite releases_app, releases_recursive_unlock_line.
Qed.

(** X4.  A guard built without a handle, or built in interrupt context, is out
    of use for good.  Whatever code uses it afterwards and wherever, up to
    and including its destructor, the only trace of its whole life is the
    one line its constructor wrote: no semaphore call is ever made, and at
    the end it is invalid and unlocked. *)
Theorem dead_guard_stays_dead (handle timeout : N) (script : list (Step W))
    (w : W) :
  handle = nullptr \/ xPortInIsrContext w = true ->
  (let life := MutexGuard.lifetime handle timeout script w in
   calls life = calls (MutexGuard.ctor handle timeout w)
   /\ semaphore_calls (calls life) = []
   /\ length (calls life) = 1%nat
   /\ MutexGuard.hasLock (value life) = false
   /\ MutexGuard.isValid (value life) = false)
  /\
  (let life := RecursiveMutexGuard.lifetime handle timeout script w in
   calls life = calls (RecursiveMutexGuard.ctor handle timeout w)
   /\ semaphore_calls (calls life) = []
   /\ length (calls life) = 1%nat
   /\ RecursiveMutexGuard.hasLock (value life) = false
   /\ RecursiveMutexGuard.isValid (value life) = false).
Proof.
  intros Hdead. cbv zeta.
  assert (Hc : (value (MutexGuard.ctor handle timeout w)
                = {| MutexGuard.m_handle := nullptr;
                     MutexGuard.m_taken := false |}
                /\ length (calls (MutexGuard.ctor handle timeout w)) = 1%nat
                /\ semaphore_calls (calls (MutexGuard.ctor handle timeout w))
                   = [])
               /\
               (value (RecursiveMutexGuard.ctor handle timeout w)
                = {| RecursiveMutexGuard.m_handle := nullptr;
                     RecursiveMutexGuard.m_taken := false |}
                /\ length (calls (RecursiveMutexGuard.ctor handle timeout w))
                   = 1%nat
                /\ semaphore_calls
                     (calls (RecursiveMutexGuard.ctor handle timeout w)) = [])).
  { destruct (N.eq_dec handle nullptr) as [->|Hh].
    - rewrite ctor_null, rec_ctor_null. cbn. repeat split.
    - destruct Hdead as [?|Hisr]; [contradiction|].
      rewrite (ctor_isr _ _ _ Hh Hisr), (rec_ctor_isr _ _ _ Hh Hisr).
      cbn. repeat split. }
  destruct Hc as [(Ha & La & Sa) (Hb & Lb & Sb)]. split.
  - unfold MutexGuard.lifetime, MutexGuard.dtor, bind.
    cbn [value world calls]. rewrite Ha.
    destruct (run_not_held script
                {| MutexGuard.m_handle := nullptr;
                   MutexGuard.m_taken := false |}
                (world (MutexGuard.ctor handle timeout w)) eq_refl)
      as [Hv Hcalls].
    rewrite Hv, Hcalls. rewrite unlock_not_held by reflexivity.
    cbn [value world calls]. rewrite !app_nil_r.
    repeat split; auto.
  - unfold RecursiveMutexGuard.lifetime, RecursiveMutexGuard.dtor, bind.
    cbn [value world calls]. rewrite Hb.
    destruct (rec_run_not_held script
                {| RecursiveMutexGuard.m_handle := nullptr;
                   RecursiveMutexGuard.m_taken := false |}
                (world (RecursiveMutexGuard.ctor handle timeout w)) eq_refl)
      as [Hv Hcalls].
    rewrite Hv, Hcalls. rewrite rec_unlock_not_held by reflexivity.
    cbn [value world calls]. rewrite !app_nil_r.
    repeat split; auto.
Qed.
End GuardFacts.

(** ** Logging *)

Section Logging.
Context {W : Type} {R : FreeRTOS W}.

Lemma same_but_info_bind {A B} (c1 c2 : M W A) (k1 k2 : A -> M W B) (w : W) :
  same_but_info (c1 w) (c2 w) ->
  (forall a w', same_but_info (k1 a w') (k2 a w')) ->
  same_but_info (bind c1 k1 w) (bind c2 k2 w).
Proof.
  intros (Hv & Hw & Hc) Hk. unfold bind, same_but_info. cbn [value world calls].
  rewrite Hv, Hw. destruct (Hk (value (c2 w)) (world (c2 w))) as (Hv' & Hw' & Hc').
  unfold without_info in *. rewrite !List.filter_app, Hc, Hc'. auto.
Qed.

Lemma flags_ctor (F1 F2 : BuildFlags) (handle timeout : N) (w : W) :
  same_but_info (MutexGuard.ctor (F := F1) handle timeout w)
    (MutexGuard.ctor (F := F2) handle timeout w)
  /\ same_but_info (RecursiveMutexGuard.ctor (F := F1) handle timeout w)
       (RecursiveMutexGuard.ctor (F := F2) handle timeout w).
Proof.
  unfold same_but_info.
  destruct (N.eq_dec handle nullptr) as [->|Hh].
  { rewrite !ctor_null, !rec_ctor_null. auto. }
  destruct (xPortInIsrContext w) eqn:Hisr.
  { rewrite !(ctor_isr _ _ _ Hh Hisr), !(rec_ctor_isr _ _ _ Hh Hisr). auto. }
  rewrite !(ctor_task _ _ _ Hh Hisr), !(rec_ctor_task _ _ _ Hh Hisr).
  cbv zeta. cbn [value world calls].
  unfold lock_line, recursive_lock_line.
  destruct (@MUTEX_GUARD_DEBUG F1), (@MUTEX_GUARD_DEBUG F2),
    (@RECURSIVE_MUTEX_GUARD_DEBUG F1), (@RECURSIVE_MUTEX_GUARD_DEBUG F2);
    repeat split; reflexivity.
Qed.

Lemma flags_unlock (F1 F2 : BuildFlags) (this : MutexGuard.MutexGuard)
    (this' : RecursiveMutexGuard.RecursiveMutexGuard) (w : W) :
  same_but_info (MutexGuard.unlock (F := F1) this w)
    (MutexGuard.unlock (F := F2) this w)
  /\ same_but_info (RecursiveMutexGuard.unlock (F := F1) this' w)
       (RecursiveMutexGuard.unlock (F := F2) this' w).
Proof.
  unfold same_but_info. split.
  - destruct (MutexGuard.m_taken this
              && negb (MutexGuard.m_handle this =? nullptr)%N) eqn:Hc.
    + destruct (xPortInIsrContext w) eqn:Hisr.
      * rewrite !(unlock_isr _ _ Hc Hisr). auto.
      * rewrite !(unlock_task _ _ Hc Hisr). cbv zeta. cbn [value world calls].
        unfold unlock_line.
        destruct (@MUTEX_GUARD_DEBUG F1), (@MUTEX_GUARD_DEBUG F2);
          repeat split; reflexivity.
    + rewrite !(unlock_idle _ _ Hc). auto.
  - destruct (RecursiveMutexGuard.m_taken this'
              && negb (RecursiveMutexGuard.m_handle this' =? nullptr)%N)
      eqn:Hc.
    + destruct (xPortInIsrContext w) eqn:Hisr.
      * rewrite !(rec_unlock_isr _ _ Hc Hisr). auto.
      * rewrite !(rec_unlock_task _ _ Hc Hisr). cbv zeta.
        cbn [value world calls]. unfold recursive_unlock_line.
        destruct (@RECURSIVE_MUTEX_GUARD_DEBUG F1),
          (@RECURSIVE_MUTEX_GUARD_DEBUG F2); repeat split; reflexivity.
    + rewrite !(rec_unlock_idle _ _ Hc). auto.
Qed.

Lemma flags_run (F1 F2 : BuildFlags) (script : list (Step W))
    (this : MutexGuard.MutexGuard) (w : W) :
  same_but_info (MutexGuard.run (F := F1) script this w)
    (MutexGuard.run (F := F2) script this w).
Proof.
  revert this w. induction script as [|s rest IH]; intros this w.
  - repeat split.
  - cbn [MutexGuard.run]. apply same_but_info_bind; [|intros; apply IH].
    destruct s; try (repeat split; fail).
    apply (flags_unlock F1 F2 this
             {| RecursiveMutexGuard.m_handle := nullptr;
                RecursiveMutexGuard.m_taken := false |} w).
Qed.

Lemma rec_flags_run (F1 F2 : BuildFlags) (script : list (Step W))
    (this : RecursiveMutexGuard.RecursiveMutexGuard) (w : W) :
  same_but_info (RecursiveMutexGuard.run (F := F1) script this w)
    (RecursiveMutexGuard.run (F := F2) script this w).
Proof.
  revert this w. induction script as [|s rest IH]; intros this w.
  - repeat split.
  - cbn [RecursiveMutexGuard.run].
    apply same_but_info_bind; [|intros; apply IH].
    destruct s; try (repeat split; fail).
    apply (flags_unlock F1 F2
             {| MutexGuard.m_handle := nullptr; MutexGuard.m_taken := false |}
             this w).
Qed.

(** X5.  The debug switches are a verbosity knob and nothing else.  Two builds
    that differ in [MUTEX_GUARD_DEBUG] and [RECURSIVE_MUTEX_GUARD_DEBUG]
    give every life of a guard the same object, the same kernel state and
    the same calls and log lines once the info lines are left out. *)
Theorem debug_switch_changes_info_lines_only (F1 F2 : BuildFlags)
    (handle timeout : N) (script : list (Step W)) (w : W) :
  same_but_info (MutexGuard.lifetime (F := F1) handle timeout script w)
    (MutexGuard.lifetime (F := F2) handle timeout script w)
  /\ same_but_info
       (RecursiveMutexGuard.lifetime (F := F1) handle timeout script w)
       (RecursiveMutexGuard.lifetime (F := F2) handle timeout script w).
Proof.
  split.
  - unfold MutexGuard.lifetime, MutexGuard.dtor.
    apply same_but_info_bind; [apply flags_ctor|]. intros g w1.
    apply same_but_info_bind; [apply flags_run|]. intros g' w2.
    apply (flags_unlock F1 F2 g'
             {| RecursiveMutexGuard.m_handle := nullptr;
                RecursiveMutexGuard.m_taken := false |} w2).
  - unfold RecursiveMutexGuard.lifetime, RecursiveMutexGuard.dtor.
    apply same_but_info_bind; [apply flags_ctor|]. intros g w1.
    apply same_but_info_bind; [apply rec_flags_run|]. intros g' w2.
    apply (flags_unlock F1 F2
             {| MutexGuard.m_handle := nullptr; MutexGuard.m_taken := false |}
             g' w2).
Qed.
Lemma log_discipline_app (tag text : string) (debug : bool) (handle : N)
    (before more : list Event) :
  log_discipline tag text debug handle before ->
  forallb (log_ok tag) more = true ->
  warnings more = [] ->
  (debug = false -> infos more = []) ->
  log_discipline tag text debug handle (before ++ more).
Proof.
  intros (Ha & Hb & Hc) Ha' Hb' Hc'. unfold log_discipline, warnings, infos in *.
  rewrite forallb_app, !List.filter_app, Ha, Ha', Hb, Hb', app_nil_r.
  repeat split; auto. intros Hd. now rewrite Hc, Hc'.
Qed.

Lemma step_log_lines (F : BuildFlags) (s : Step W)
    (this : MutexGuard.MutexGuard) (w : W) :
  forallb (log_ok "MutexGuard") (calls (MutexGuard.step s this w)) = true
  /\ warnings (calls (MutexGuard.step s this w)) = []
  /\ (MUTEX_GUARD_DEBUG = false ->
      infos (calls (MutexGuard.step s this w)) = []).
Proof.
  destruct s; cbn; auto.
  destruct (MutexGuard.m_taken this
            && negb (MutexGuard.m_handle this =? nullptr)%N) eqn:Hc.
  - destruct (xPortInIsrContext w) eqn:Hisr.
    + rewrite (unlock_isr _ _ Hc Hisr). cbn. auto.
    + rewrite (unlock_task _ _ Hc Hisr). cbn. unfold unlock_line.
      destruct MUTEX_GUARD_DEBUG; cbn; repeat split; auto; discriminate.
  - rewrite (unlock_idle _ _ Hc). cbn. auto.
Qed.

Lemma rec_step_log_lines (F : BuildFlags) (s : Step W)
    (this : RecursiveMutexGuard.RecursiveMutexGuard) (w : W) :
  forallb (log_ok "RecursiveMutexGuard")
    (calls (RecursiveMutexGuard.step s this w)) = true
  /\ warnings (calls (RecursiveMutexGuard.step s this w)) = []
  /\ (RECURSIVE_MUTEX_GUARD_DEBUG = false ->
      infos (calls (RecursiveMutexGuard.step s this w)) = []).
Proof.
  destruct s; cbn; auto.
  destruct (RecursiveMutexGuard.m_taken this
            && negb (RecursiveMutexGuard.m_handle this =? nullptr)%N) eqn:Hc.
  - destruct (xPortInIsrContext w) eqn:Hisr.
    + rewrite (rec_unlock_isr _ _ Hc Hisr). cbn. auto.
    + rewrite (rec_unlock_task _ _ Hc Hisr). cbn. unfold recursive_unlock_line.
      destruct RECURSIVE_MUTEX_GUARD_DEBUG; cbn; repeat split; auto;
        discriminate.
  - rewrite (rec_unlock_idle _ _ Hc). cbn. auto.
Qed.

(** X6.  What a guard writes to the log over its whole life, whatever the kernel
    does and whatever code uses the guard.  Every line is under the tag of
    its class, at error, warning or info level and never at debug or
    verbose level.  The warning about a null handle is written once when
    the handle is null and never otherwise.  A build without the debug
    switch of the class writes no info line. *)
Theorem log_lines_of_a_life (F : BuildFlags) (handle timeout : N)
    (script : list (Step W)) (w : W) :
  log_discipline "MutexGuard"
    "Attempted to create MutexGuard with null handle"
    MUTEX_GUARD_DEBUG handle
    (calls (MutexGuard.lifetime handle timeout script w))
  /\ log_discipline "RecursiveMutexGuard"
       "Attempted to create RecursiveMutexGuard with null handle"
       RECURSIVE_MUTEX_GUARD_DEBUG handle
       (calls (RecursiveMutexGuard.lifetime handle timeout script w)).
Proof.
  split.
  - apply (lifetime_keeps
             (fun _ l => log_discipline "MutexGuard"
                           "Attempted to create MutexGuard with null handle"
                           MUTEX_GUARD_DEBUG handle l) handle timeout).
    + intros w0. unfold log_discipline.
      destruct (N.eq_dec handle nullptr) as [->|Hh].
      { rewrite ctor_null. cbn. repeat split; auto. }
      apply N.eqb_neq in Hh as Hh'. rewrite Hh'.
      destruct (xPortInIsrContext w0) eqn:Hisr.
      { rewrite (ctor_isr _ _ _ Hh Hisr). cbn. repeat split; auto. }
      rewrite (ctor_task _ _ _ Hh Hisr). cbv zeta. cbn [calls].
      unfold lock_line.
      destruct MUTEX_GUARD_DEBUG; cbn;
        destruct (fst (xSemaphoreTake handle timeout w0) =? pdTRUE)%Z;
        repeat split; auto; discriminate.
    + intros s this w0 before Hb.
      destruct (step_log_lines F s this w0) as (H1 & H2 & H3).
      now apply log_discipline_app.
  - apply (rec_lifetime_keeps
             (fun _ l =>
                log_discipline "RecursiveMutexGuard"
                  "Attempted to create RecursiveMutexGuard with null handle"
                  RECURSIVE_MUTEX_GUARD_DEBUG handle l) handle timeout).
    + intros w0. unfold log_discipline.
      destruct (N.eq_dec handle nullptr) as [->|Hh].
      { rewrite rec_ctor_null. cbn. repeat split; auto. }
      apply N.eqb_neq in Hh as Hh'. rewrite Hh'.
      destruct (xPortInIsrContext w0) eqn:Hisr.
      { rewrite (rec_ctor_isr _ _ _ Hh Hisr). cbn. repeat split; auto. }
      rewrite (rec_ctor_task _ _ _ Hh Hisr). cbv zeta. cbn [calls].
      unfold recursive_lock_line.
      destruct RECURSIVE_MUTEX_GUARD_DEBUG; cbn;
        destruct (fst (xSemaphoreTakeRecursive handle timeout w0) =? pdTRUE)%Z;
        repeat split; auto; discriminate.
    + intros s this w0 before Hb.
      destruct (rec_step_log_lines F s this w0) as (H1 & H2 & H3).
      now apply log_discipline_app.
Qed.
End Logging.

(** ** The ring buffer of the example *)

Section RingBuffer.
Context {W : Type} {R : FreeRTOS W} {F : BuildFlags} {C : FreeRTOSConfig}.
Import ThreadSafeBuffer.

Lemma size_t_small (z : Z) : 0 <= z < 2 ^ 32 -> size_t z = z.
Proof. intros Hz. unfold size_t. now apply Z.mod_small. Qed.

Lemma guard_life_out (this : ThreadSafeBuffer) (w : W) :
  guard_life this w
  = mkOut
      (value (MutexGuard.dtor (value (lock_of this w)) (world (lock_of this w))))
      (world (MutexGuard.dtor (value (lock_of this w)) (world (lock_of this w))))
      (calls (lock_of this w)
       ++ calls (MutexGuard.dtor (value (lock_of this w))
                   (world (lock_of this w)))).
Proof.
  unfold guard_life, lock_of, MutexGuard.lifetime, bind.
  cbn [MutexGuard.run MutexGuard.step]. unfold bind, ret.
  cbn [value world calls]. reflexivity.
Qed.

Lemma push_out (this : ThreadSafeBuffer) (v : Z) (w : W) :
  push this v w
  = mkOut
      (if MutexGuard.hasLock (value (lock_of this w))
          && (count this <? BUFFER_SIZE)%Z
       then (true, pushed this v) else (false, this))
      (world (guard_life this w)) (calls (guard_life this w)).
Proof.
  rewrite guard_life_out. unfold push, lock_of, bind, ret.
  unfold MutexGuard.operator_bool. cbn [world calls].
  rewrite (Z.leb_antisym (count this) BUFFER_SIZE).
  destruct (MutexGuard.hasLock
              (value (MutexGuard.ctor (mutex this) (pdMS_TO_TICKS 100) w)));
    cbn [negb andb value world calls]; [|now rewrite !app_nil_r].
  destruct (count this <? BUFFER_SIZE)%Z;
    cbn [negb value world calls]; now rewrite !app_nil_r.
Qed.

Lemma pop_out (this : ThreadSafeBuffer) (d : Z) (w : W) :
  pop this d w
  = mkOut
      (if MutexGuard.hasLock (value (lock_of this w))
          && negb (count this =? 0)%Z
       then (true, at_index this (readIndex this), popped this)
       else (false, d, this))
      (world (guard_life this w)) (calls (guard_life this w)).
Proof.
  rewrite guard_life_out. unfold pop, lock_of, bind, ret.
  unfold MutexGuard.operator_bool. cbn [world calls].
  destruct (MutexGuard.hasLock
              (value (MutexGuard.ctor (mutex this) (pdMS_TO_TICKS 100) w)));
    cbn [negb andb value world calls]; [|now rewrite !app_nil_r].
  destruct (count this =? 0)%Z;
    cbn [negb value world calls]; now rewrite !app_nil_r.
Qed.

Lemma size_out (this : ThreadSafeBuffer) (w : W) :
  size this w
  = mkOut
      (if MutexGuard.hasLock (value (lock_of this w)) then count this else 0)
      (world (guard_life this w)) (calls (guard_life this w)).
Proof.
  rewrite guard_life_out. unfold size, lock_of, bind, ret.
  unfold MutexGuard.operator_bool. cbn [value world calls].
  now rewrite !app_nil_r.
Qed.

Lemma contents_length (this : ThreadSafeBuffer) :
  0 <= count this -> Z.of_nat (length (contents this)) = count this.
Proof.
  intros Hc. unfold contents. rewrite length_map, length_seq. lia.
Qed.

Lemma contents_pushed (this : ThreadSafeBuffer) (v : Z) :
  wf this -> count this < BUFFER_SIZE ->
  wf (pushed this v) /\ contents (pushed this v) = contents this ++ [v].
Proof.
  intros (Hlen & Hr & Hc & Hw) Hlt. unfold BUFFER_SIZE in *.
  change (Z.to_nat 10) with 10%nat in *.
  assert (Hw0 : 0 <= writeIndex this < 10)
    by (rewrite Hw; apply Z.mod_pos_bound; lia).
  split.
  - unfold wf, pushed, BUFFER_SIZE.
    cbn [buffer writeIndex readIndex count mutex].
    rewrite length_insert, !size_t_small by lia.
    change (Z.to_nat 10) with 10%nat.
    repeat split; try lia.
    rewrite Hw, Z.add_mod_idemp_l by lia. f_equal. lia.
  - unfold contents, at_index, pushed, BUFFER_SIZE.
    cbn [buffer writeIndex readIndex count mutex].
    rewrite size_t_small by lia.
    replace (Z.to_nat (count this + 1)) with (S (Z.to_nat (count this)))
      by lia.
    rewrite seq_S, map_app. cbn [map Nat.add]. f_equal.
    + apply map_ext_in. intros i Hi. apply in_seq in Hi.
      rewrite !nth_lookup. f_equal. apply list_lookup_insert_ne.
      rewrite Hw. intros E.
      apply Z2Nat.inj in E; try (apply Z.mod_pos_bound; lia).
      Z.to_euclidean_division_equations. lia.
    + f_equal. rewrite Z2Nat.id by lia. rewrite <- Hw.
      rewrite nth_lookup, list_lookup_insert_eq by lia. reflexivity.
Qed.

Lemma contents_popped (this : ThreadSafeBuffer) :
  wf this -> 0 < count this ->
  wf (popped this)
  /\ contents this = at_index this (readIndex this) :: contents (popped this).
Proof.
  intros (Hlen & Hr & Hc & Hw) Hlt. unfold BUFFER_SIZE in *.
  change (Z.to_nat 10) with 10%nat in *.
  split.
  - unfold wf, popped, BUFFER_SIZE.
    cbn [buffer writeIndex readIndex count mutex].
    rewrite !size_t_small by lia. change (Z.to_nat 10) with 10%nat.
    split; [exact Hlen|]. split; [apply Z.mod_pos_bound; lia|].
    split; [lia|].
    rewrite Hw, Z.add_mod_idemp_l by lia. f_equal. lia.
  - unfold contents, at_index, popped, BUFFER_SIZE.
    cbn [buffer writeIndex readIndex count mutex].
    rewrite !size_t_small by lia.
    replace (Z.to_nat (count this)) with (S (Z.to_nat (count this - 1)))
      by lia.
    cbn [seq map]. f_equal.
    + f_equal. f_equal. rewrite Z.add_0_r. apply Z.mod_small. lia.
    + rewrite <- seq_shift, map_map. apply map_ext. intros i.
      f_equal. f_equal. rewrite Z.add_mod_idemp_l by lia. f_equal. lia.
Qed.

Lemma ctor_wf (created : N) :
  wf (ctor created) /\ contents (ctor created) = []
  /\ mutex (ctor created) = created.
Proof.
  unfold wf, ctor, contents, BUFFER_SIZE. cbn. repeat split; lia.
Qed.

Lemma ctor_never_releases (handle timeout : N) (w : W) :
  releases (calls (MutexGuard.ctor handle timeout w)) = [].
Proof.
  destruct (N.eq_dec handle nullptr) as [->|Hh]; [now rewrite ctor_null|].
  destruct (xPortInIsrContext w) eqn:Hisr;
    [now rewrite (ctor_isr _ _ _ Hh Hisr)|].
  rewrite (ctor_task _ _ _ Hh Hisr). cbv zeta. cbn [calls].
  unfold lock_line.
  destruct MUTEX_GUARD_DEBUG; [|reflexivity].
  destruct (fst (xSemaphoreTake handle timeout w) =? pdTRUE)%Z; reflexivity.
Qed.

(** One call against the queue. *)
Lemma call_refines (op : Op) (this : ThreadSafeBuffer) (w : W) :
  wf this ->
  (fst (value (call op this w)), contents (snd (value (call op this w))))
  = queue_call (MutexGuard.hasLock (value (lock_of this w))) op (contents this)
  /\ wf (snd (value (call op this w)))
  /\ mutex (snd (value (call op this w))) = mutex this
  /\ world (call op this w) = world (guard_life this w)
  /\ calls (call op this w) = calls (guard_life this w).
Proof.
  intros Hwf. pose proof Hwf as (Hlen & Hr & Hc & Hw).
  pose proof (contents_length this (proj1 Hc)) as Hl.
  assert (Hnil : count this = 0 -> contents this = []).
  { intros Hz. unfold contents. now rewrite Hz. }
  destruct op as [v | d |]; unfold call, bind, ret; cbn [value world calls];
    rewrite ?push_out, ?pop_out, ?size_out; cbn [value world calls];
    rewrite app_nil_r; unfold queue_call; rewrite ?Hl.
  - destruct (MutexGuard.hasLock (value (lock_of this w))); cbn [andb].
    + destruct (Z.ltb_spec (count this) BUFFER_SIZE) as [Hlt|Hge];
        cbn [fst snd].
      * destruct (contents_pushed this v Hwf Hlt) as [Hwf' Hcont].
        rewrite Hcont. split; [reflexivity|]. split; [exact Hwf'|]. auto.
      * split; [reflexivity|]. split; [exact Hwf|]. auto.
    + cbn [fst snd]. split; [reflexivity|]. split; [exact Hwf|]. auto.
  - destruct (Z.eqb_spec (count this) 0) as [Hz|Hnz].
    + rewrite (Hnil Hz), andb_false_r. cbn [fst snd]. rewrite (Hnil Hz).
      split; [reflexivity|]. split; [exact Hwf|]. auto.
    + destruct (contents_popped this Hwf ltac:(lia)) as [Hwf' Hcont].
      rewrite Hcont.
      destruct (MutexGuard.hasLock (value (lock_of this w)));
        cbn [andb negb fst snd].
      * split; [reflexivity|]. split; [exact Hwf'|]. auto.
      * rewrite Hcont. split; [reflexivity|]. split; [exact Hwf|]. auto.
  - cbn [fst snd]. split; [reflexivity|]. split; [exact Hwf|]. auto.
Qed.
(** X7.  [push] is the enqueue of a queue of at most ten.  On a well-formed
    buffer it returns true exactly when its guard got the lock and fewer
    than ten elements are stored; it then adds the value at the young end
    and leaves the older elements and their order alone.  When it returns
    false (lock not obtained, or buffer full) the object is unchanged.  The
    result is well-formed either way. *)
Theorem push_enqueues (this : ThreadSafeBuffer) (v : Z) (w : W) :
  wf this ->
  let o := push this v w in
  fst (value o)
  = MutexGuard.hasLock (value (lock_of this w)) && (count this <? BUFFER_SIZE)%Z
  /\ contents (snd (value o))
     = (if fst (value o) then contents this ++ [v] else contents this)
  /\ snd (value o) = (if fst (value o) then pushed this v else this)
  /\ wf (snd (value o))
  /\ mutex (snd (value o)) = mutex this.
Proof.
  intros Hwf. cbv zeta. rewrite push_out. cbn [value].
  destruct (MutexGuard.hasLock (value (lock_of this w))); cbn [andb].
  - destruct (Z.ltb_spec (count this) BUFFER_SIZE) as [Hlt|Hge]; cbn [fst snd].
    + destruct (contents_pushed this v Hwf Hlt) as [Hwf' Hcont].
      split; [reflexivity|]. split; [exact Hcont|]. split; [reflexivity|].
      split; [exact Hwf'|reflexivity].
    + split; [reflexivity|]. split; [reflexivity|]. split; [reflexivity|].
      split; [exact Hwf|reflexivity].
  - cbn [fst snd]. split; [reflexivity|]. split; [reflexivity|].
    split; [reflexivity|]. split; [exact Hwf|reflexivity].
Qed.

(** X8.  [pop] is the dequeue.  On a well-formed buffer it returns true exactly
    when its guard got the lock and the buffer is not empty; it then hands
    out the oldest element and leaves the others in order.  When it returns
    false the object is unchanged and so is the caller's variable. *)
Theorem pop_dequeues (this : ThreadSafeBuffer) (d : Z) (w : W) :
  wf this ->
  let o := pop this d w in
  fst (fst (value o))
  = MutexGuard.hasLock (value (lock_of this w)) && negb (count this =? 0)%Z
  /\ (if fst (fst (value o))
      then contents this = snd (fst (value o)) :: contents (snd (value o))
      else snd (fst (value o)) = d /\ snd (value o) = this)
  /\ wf (snd (value o))
  /\ mutex (snd (value o)) = mutex this.
Proof.
  intros Hwf. cbv zeta. rewrite pop_out. cbn [value].
  destruct (MutexGuard.hasLock (value (lock_of this w))); cbn [andb].
  - destruct (Z.eqb_spec (count this) 0) as [Hz|Hnz]; cbn [negb fst snd].
    + split; [reflexivity|]. split; [split; reflexivity|].
      split; [exact Hwf|reflexivity].
    + pose proof Hwf as (_ & _ & Hc & _).
      destruct (contents_popped this Hwf ltac:(lia)) as [Hwf' Hcont].
      split; [reflexivity|]. split; [exact Hcont|].
      split; [exact Hwf'|reflexivity].
  - cbn [fst snd]. split; [reflexivity|]. split; [split; reflexivity|].
    split; [exact Hwf|reflexivity].
Qed.

(** X9.  [size] returns the number of stored elements when its guard got the
    lock and 0 when it did not, so on a well-formed buffer the answer is
    between 0 and 10, and an answer of 0 does not tell an empty buffer from
    a lock that was not obtained. *)
Theorem size_counts (this : ThreadSafeBuffer) (w : W) :
  wf this ->
  value (size this w)
  = (if MutexGuard.hasLock (value (lock_of this w))
     then Z.of_nat (length (contents this)) else 0)
  /\ 0 <= value (size this w) <= BUFFER_SIZE
  /\ (value (size this w) =? 0)%Z
     = negb (MutexGuard.hasLock (value (lock_of this w)))
       || (count this =? 0)%Z.
Proof.
  intros Hwf. pose proof Hwf as (_ & _ & Hc & _).
  rewrite !size_out. cbn [value].
  rewrite (contents_length this (proj1 Hc)).
  split; [reflexivity|].
  destruct (MutexGuard.hasLock (value (lock_of this w))); cbn [negb orb];
    unfold BUFFER_SIZE in *; split; (lia || reflexivity).
Qed.

(** X10.  Each method runs exactly one life of a guard over the buffer's mutex,
    and it is the same life on every path through the method: the kernel
    state it leaves and the calls it makes are those of building the guard,
    testing it once and destroying it, whatever the arguments, whatever the
    buffer holds and whichever [return] is taken.  On no path is the mutex
    given back twice or kept: the semaphore calls are none, the one take,
    or the successful take and its give; and the give is made exactly when
    the guard held the lock and the kernel was then not in interrupt
    context. *)
Theorem every_return_ends_the_guard (this : ThreadSafeBuffer) (v d : Z)
    (w : W) :
  let life := guard_life this w in
  let lock := lock_of this w in
  (world (push this v w) = world life /\ calls (push this v w) = calls life)
  /\ (world (pop this d w) = world life /\ calls (pop this d w) = calls life)
  /\ (world (size this w) = world life /\ calls (size this w) = calls life)
  /\ (semaphore_calls (calls life) = []
      \/ (exists r, semaphore_calls (calls life)
                    = [EvTake (mutex this) (pdMS_TO_TICKS 100) r])
      \/ (exists r, semaphore_calls (calls life)
                    = [EvTake (mutex this) (pdMS_TO_TICKS 100) pdTRUE;
                       EvGive (mutex this) r]))
  /\ releases (calls life)
     = (if MutexGuard.hasLock (value lock)
           && negb (xPortInIsrContext (world lock))
        then [EvGive (mutex this)
                (fst (xSemaphoreGive (mutex this) (world lock)))]
        else []).
Proof.
  cbv zeta. rewrite push_out, pop_out, size_out. cbn [world calls].
  split; [auto|]. split; [auto|]. split; [auto|]. split.
  - unfold guard_life.
    pose proof (lifetime_tracked (mutex this) (pdMS_TO_TICKS 100)
                  [CallBool] w) as [_ [_ T]].
    destruct (MutexGuard.m_taken
                (value (MutexGuard.lifetime (mutex this) (pdMS_TO_TICKS 100)
                          [CallBool] w))).
    + destruct T as (_ & _ & Hc). right. left. eauto.
    + destruct T as [Hc | [(r & _ & _ & _ & Hc) | (r & _ & _ & Hc)]]; eauto.
  - rewrite guard_life_out. cbn [calls]. rewrite releases_app.
    assert (Hno : releases (calls (lock_of this w)) = [])
      by apply ctor_never_releases.
    rewrite Hno, app_nil_l.
    pose proof (ctor_tracked (mutex this) (pdMS_TO_TICKS 100) w) as T.
    fold (lock_of this w) in T.
    destruct (tracked_held_valid _ _ _ _ T) as [Hv Hh].
    rewrite (proj1 (dtor_releases _ _)), Hv.
    destruct (MutexGuard.hasLock (value (lock_of this w))); [|reflexivity].
    now rewrite (Hh eq_refl).
Qed.
(** X11.  What goes in first comes out first.  On a well-formed buffer, when a
    [push] returns true and a later [pop], made in whatever kernel state,
    returns true, the value popped is the oldest of the elements that were
    stored with the pushed value added last, and the rest stay in order.
    In particular a value pushed into an empty buffer is the value popped,
    and the buffer is empty again. *)
Theorem push_then_pop (this : ThreadSafeBuffer) (v d : Z) (w later : W) :
  wf this ->
  let o1 := push this v w in
  let o2 := pop (snd (value o1)) d later in
  fst (value o1) = true ->
  fst (fst (value o2)) = true ->
  contents this ++ [v] = snd (fst (value o2)) :: contents (snd (value o2))
  /\ (count this = 0 ->
      snd (fst (value o2)) = v /\ contents (snd (value o2)) = []).
Proof.
  intros Hwf o1 o2 H1 H2. subst o2 o1. revert H1 H2.
  rewrite push_out. cbn [value].
  destruct (MutexGuard.hasLock (value (lock_of this w))); cbn [andb fst snd];
    [|discriminate].
  destruct (Z.ltb_spec (count this) BUFFER_SIZE) as [Hlt|Hge]; cbn [fst snd];
    [|discriminate].
  intros _. destruct (contents_pushed this v Hwf Hlt) as [Hwf' Hcont].
  rewrite pop_out. cbn [value].
  destruct (MutexGuard.hasLock (value (lock_of (pushed this v) later))
            && negb (count (pushed this v) =? 0)%Z) eqn:Hok; cbn [fst snd];
    [|discriminate].
  intros _. apply andb_true_iff in Hok as [_ Hnz].
  apply negb_true_iff, Z.eqb_neq in Hnz.
  pose proof Hwf' as (_ & _ & Hc' & _).
  destruct (contents_popped (pushed this v) Hwf' ltac:(lia)) as [_ Hpop].
  rewrite Hcont in Hpop. split; [exact Hpop|].
  intros Hz. assert (Hnil : contents this = []).
  { unfold contents. now rewrite Hz. }
  rewrite Hnil in Hpop. cbn [app] in Hpop. injection Hpop as Hx Hn.
  split; [symmetry; exact Hx | symmetry; exact Hn].
Qed.

Lemma guard_life_null (this : ThreadSafeBuffer) (w : W) :
  mutex this = nullptr ->
  MutexGuard.hasLock (value (lock_of this w)) = false
  /\ semaphore_calls (calls (guard_life this w)) = [].
Proof.
  intros Hm. rewrite guard_life_out. unfold lock_of. rewrite Hm.
  rewrite ctor_null. cbn [value world calls].
  unfold MutexGuard.dtor. rewrite unlock_not_held by reflexivity.
  split; reflexivity.
Qed.

(** X12.  A buffer whose mutex could not be created is of no use, and says so
    quietly.  With a null [mutex], every call of every sequence of calls is
    refused (push and pop return false, size returns 0), in every kernel
    state; the object never changes; and no semaphore call is made. *)
Theorem buffer_without_mutex (ops : list Op) (this : ThreadSafeBuffer)
    (w : W) :
  mutex this = nullptr ->
  let o := calls_in_turn ops this w in
  snd (value o) = this
  /\ forallb refused (fst (value o)) = true
  /\ length (fst (value o)) = length ops
  /\ semaphore_calls (calls o) = [].
Proof.
  intros Hm. cbv zeta. revert w. induction ops as [|op rest IH]; intros w.
  - cbn. auto.
  - cbn [calls_in_turn]. unfold bind, ret. cbn [value world calls fst snd].
    destruct (guard_life_null this w Hm) as [Hl Hs].
    assert (Hcall : snd (value (call op this w)) = this
                    /\ refused (fst (value (call op this w))) = true
                    /\ calls (call op this w) = calls (guard_life this w)).
    { destruct op as [v | d |]; unfold call, bind, ret;
        cbn [value world calls];
        rewrite ?push_out, ?pop_out, ?size_out; cbn [value world calls];
        rewrite Hl, app_nil_r; cbn; auto. }
    destruct Hcall as (Hsame & Href & Hcalls).
    rewrite Hsame. destruct (IH (world (call op this w))) as (H1 & H2 & H3 & H4).
    rewrite app_nil_r, semaphore_calls_app, Hcalls, Hs, H4.
    cbn [forallb length]. rewrite Href, H2, H3. auto.
Qed.

(** X13.  The buffer is a first-in first-out queue of at most ten.  The
    constructor makes a well-formed, empty buffer over the mutex it was
    given.  From any well-formed buffer, make any calls one after the other
    in any kernel, and note for each call whether its guard got the lock.
    Then the answers, and the elements stored at the end in their order,
    are those of the queue run over the same calls with the same lock
    outcomes; and the buffer is well-formed at the end, with the same
    mutex, so that no call of the sequence indexed outside the array. *)
Theorem buffer_is_a_bounded_queue (created : N) (ops : list Op)
    (this : ThreadSafeBuffer) (w : W) :
  (wf (ctor created) /\ contents (ctor created) = []
   /\ mutex (ctor created) = created)
  /\
  (wf this ->
   let o := calls_in_turn ops this w in
   (fst (value o), contents (snd (value o)))
   = queue_calls (locks_in_turn ops this w) ops (contents this)
   /\ wf (snd (value o))
   /\ mutex (snd (value o)) = mutex this
   /\ (length (contents (snd (value o))) <= 10)%nat).
Proof.
  split; [apply ctor_wf|]. revert this w.

  induction ops as [|op rest IH]; intros this w Hwf; cbv zeta.
  - cbn [calls_in_turn locks_in_turn queue_calls]. unfold ret.
    cbn [value fst snd].
    split; [reflexivity|]. split; [exact Hwf|]. split; [reflexivity|].
    pose proof Hwf as (_ & _ & Hc & _).
    pose proof (contents_length this (proj1 Hc)). unfold BUFFER_SIZE in *. lia.
  - cbn [calls_in_turn locks_in_turn queue_calls]. unfold bind, ret.
    cbn [value world calls fst snd].
    destruct (call_refines op this w Hwf) as (Hq & Hwf' & Hm & _ & _).
    destruct (IH _ (world (call op this w)) Hwf') as (Hq' & Hwf'' & Hm' & Hlen).
    rewrite <- Hq. cbn [fst snd]. rewrite <- Hq'. cbn [fst snd].
    split; [reflexivity|]. split; [exact Hwf''|].
    split; [congruence | exact Hlen].
Qed.
End RingBuffer.

(** ** The sketch functions *)

Section SketchFacts.
Context {W : Type} {R : FreeRTOS W} {F : BuildFlags} {C : FreeRTOSConfig}
        {A : Arduino W} {G : Globals}.
Import Sketch.

Lemma bind_calls {X Y} (c : M W X) (k : X -> M W Y) (w : W) :
  calls (bind c k w)
  = calls (c w) ++ calls (k (value (c w)) (world (c w))).
Proof. reflexivity. Qed.

Lemma within_S (b : nat) (depth maxDepth : Z) (w : W) :
  recursiveFunction_within (S b) depth maxDepth w
  = let o0 := RecursiveMutexGuard.ctor recursiveMutex (pdMS_TO_TICKS 100) w in
    if RecursiveMutexGuard.hasLock (value o0) then
      let w1 := Serial_write ("Recursive call depth: " ++ pretty depth ++ LF)
                  (world o0) in
      let oi := if (depth <? maxDepth)%Z
                then recursiveFunction_within b (int (depth + 1)) maxDepth w1
                else mkOut (Some tt) w1 [] in
      match value oi with
      | None => mkOut None (world oi) (calls o0 ++ calls oi)
      | Some _ =>
          let od := RecursiveMutexGuard.dtor (value o0)
                      (Serial_write
                         ("Returning from depth: " ++ pretty depth ++ LF)
                         (world oi)) in
          mkOut (Some tt) (world od) (calls o0 ++ calls oi ++ calls od)
      end
    else
      let od := RecursiveMutexGuard.dtor (value o0)
                  (Serial_write ("Failed to acquire recursive mutex" ++ CRLF)
                     (world o0)) in
      mkOut (Some tt) (world od) (calls o0 ++ calls od).
Proof.
  cbn [recursiveFunction_within]. cbv zeta. unfold bind at 1.
  unfold RecursiveMutexGuard.operator_bool.
  destruct (RecursiveMutexGuard.hasLock
              (value (RecursiveMutexGuard.ctor recursiveMutex
                        (pdMS_TO_TICKS 100) w))); cbn [negb].
  - unfold bind, ret, Serial_print. cbn [value world calls].
    destruct (depth <? maxDepth)%Z; cbn [value world calls].
    + destruct (value (recursiveFunction_within b (int (depth + 1)) maxDepth
                (Serial_write ("Recursive call depth: " ++ pretty depth ++ LF)
                   (world (RecursiveMutexGuard.ctor recursiveMutex
                             (pdMS_TO_TICKS 100) w)))));
        cbn [value world calls]; now rewrite ?app_nil_r.
    + now rewrite ?app_nil_r.
  - unfold bind, ret, Serial_println, Serial_print. cbn [value world calls].
    now rewrite ?app_nil_r.
Qed.

Lemma int_small (z : Z) : INT_MIN <= z <= INT_MAX -> int z = z.
Proof.
  unfold INT_MIN, INT_MAX, int. intros Hz.
  rewrite Z.mod_small by lia. lia.
Qed.

Lemma within_enough (maxDepth : Z) (b1 : nat) :
  forall (b2 : nat) (depth : Z) (w : W),
    INT_MIN <= depth <= INT_MAX -> maxDepth <= INT_MAX ->
    (Z.to_nat (maxDepth - depth) < b1)%nat ->
    (Z.to_nat (maxDepth - depth) < b2)%nat ->
    recursiveFunction_within b1 depth maxDepth w
    = recursiveFunction_within b2 depth maxDepth w
    /\ value (recursiveFunction_within b1 depth maxDepth w) = Some tt.
Proof.
  induction b1 as [|b1 IH]; intros b2 depth w Hd Hm H1 H2; [lia|].
  destruct b2 as [|b2]; [lia|].
  rewrite !within_S. cbv zeta.
  destruct (RecursiveMutexGuard.hasLock
              (value (RecursiveMutexGuard.ctor recursiveMutex
                        (pdMS_TO_TICKS 100) w))); [|split; reflexivity].
  destruct (Z.ltb_spec depth maxDepth) as [Hlt|Hge]; [|split; reflexivity].
  rewrite int_small by lia.
  destruct (IH b2 (depth + 1)
              (Serial_write ("Recursive call depth: " ++ pretty depth ++ LF)
                 (world (RecursiveMutexGuard.ctor recursiveMutex
                           (pdMS_TO_TICKS 100) w))))
    as [Heq Hsome]; try lia.
  rewrite <- Heq, Hsome. split; reflexivity.
Qed.

Lemma releases_nested (handle timeout : N) (k : nat)
    (failed gives : list Event) :
  (failed = [] \/ exists r, r <> pdTRUE
                            /\ failed = [EvTakeRecursive handle timeout r]) ->
  Forall (fun e => exists r, e = EvGiveRecursive handle r) gives ->
  releases (replicate k (EvTakeRecursive handle timeout pdTRUE)
              ++ failed ++ gives) = gives.
Proof.
  intros Hf Hg. rewrite !releases_app.
  assert (H1 : releases (replicate k (EvTakeRecursive handle timeout pdTRUE))
               = []) by (induction k; auto).
  assert (H2 : releases failed = [])
    by (destruct Hf as [->|(r & _ & ->)]; reflexivity).
  rewrite H1, H2. cbn [app].
  induction Hg as [|e l (r & ->) _ IH]; [reflexivity|].
  unfold releases in *. cbn. now rewrite IH.
Qed.

Lemma rec_ctor_semaphore_calls (handle timeout : N) (w : W) :
  let o := RecursiveMutexGuard.ctor handle timeout w in
  if RecursiveMutexGuard.m_taken (value o)
  then RecursiveMutexGuard.m_handle (value o) = handle /\ handle <> nullptr
       /\ semaphore_calls (calls o)
          = [EvTakeRecursive handle timeout pdTRUE]
  else semaphore_calls (calls o) = []
       \/ exists r, r <> pdTRUE
                    /\ semaphore_calls (calls o)
                       = [EvTakeRecursive handle timeout r].
Proof.
  cbv zeta.
  destruct (N.eq_dec handle nullptr) as [->|Hh];
    [rewrite rec_ctor_null; cbn; auto|].
  destruct (xPortInIsrContext w) eqn:Hisr;
    [rewrite (rec_ctor_isr _ _ _ Hh Hisr); cbn; auto|].
  rewrite (rec_ctor_task _ _ _ Hh Hisr). cbv zeta.
  cbn [value calls RecursiveMutexGuard.m_taken RecursiveMutexGuard.m_handle].
  match goal with |- context [?e :: recursive_lock_line ?b] =>
    change (e :: recursive_lock_line b) with ([e] ++ recursive_lock_line b)
  end.
  rewrite semaphore_calls_app, semaphore_calls_recursive_lock_line, app_nil_r.
  destruct (Z.eqb_spec (fst (xSemaphoreTakeRecursive handle timeout w)) pdTRUE)
    as [Hr|Hr].
  - rewrite Hr. auto.
  - right. eexists. split; [exact Hr|reflexivity].
Qed.

Lemma within_nested (maxDepth : Z) (b : nat) :
  forall (depth : Z) (w : W),
    let o := recursiveFunction_within b depth maxDepth w in
    exists (k : nat) (failed gives : list Event),
      semaphore_calls (calls o)
      = replicate k (EvTakeRecursive recursiveMutex (pdMS_TO_TICKS 100) pdTRUE)
          ++ failed ++ gives
      /\ (failed = []
          \/ exists r, r <> pdTRUE
                       /\ failed = [EvTakeRecursive recursiveMutex
                                      (pdMS_TO_TICKS 100) r])
      /\ Forall (fun e => exists r, e = EvGiveRecursive recursiveMutex r) gives
      /\ (length gives <= k)%nat
      /\ (k <= b)%nat
      /\ ((forall w', xPortInIsrContext w' = false) ->
          value o = Some tt -> length gives = k).
Proof.
  induction b as [|b IH]; intros depth w; cbv zeta.
  { exists 0%nat, [], []. cbn. repeat split; auto; discriminate. }
  rewrite within_S. cbv zeta.
  pose proof (rec_ctor_semaphore_calls recursiveMutex (pdMS_TO_TICKS 100) w)
    as Hc. cbv zeta in Hc.
  set (o0 := RecursiveMutexGuard.ctor recursiveMutex (pdMS_TO_TICKS 100) w)
    in *.
  unfold RecursiveMutexGuard.hasLock.
  destruct (RecursiveMutexGuard.m_taken (value o0)) eqn:Htaken.
  - destruct Hc as (Hh & Hnn & Hsc).
    set (w1 := Serial_write _ (world o0)).
    set (oi := if (depth <? maxDepth)%Z
               then recursiveFunction_within b (int (depth + 1)) maxDepth w1
               else mkOut (Some tt) w1 []).
    assert (Hi : exists (k : nat) (failed gives : list Event),
      semaphore_calls (calls oi)
      = replicate k (EvTakeRecursive recursiveMutex (pdMS_TO_TICKS 100) pdTRUE)
          ++ failed ++ gives
      /\ (failed = []
          \/ exists r, r <> pdTRUE
                       /\ failed = [EvTakeRecursive recursiveMutex
                                      (pdMS_TO_TICKS 100) r])
      /\ Forall (fun e => exists r, e = EvGiveRecursive recursiveMutex r) gives
      /\ (length gives <= k)%nat
      /\ (k <= b)%nat
      /\ ((forall w', xPortInIsrContext w' = false) ->
          value oi = Some tt -> length gives = k)).
    { subst oi. destruct (depth <? maxDepth)%Z; [apply IH|].
      exists 0%nat, [], []. cbn. repeat split; auto. lia. }
    destruct Hi as (k & failed & gives & Hs & Hf & Hg & Hl & Hk & Hb).
    destruct (value oi) as [[]|] eqn:Hv.
    + cbv zeta. cbn [value calls].
      set (w2 := Serial_write _ (world oi)).
      assert (Hcond : RecursiveMutexGuard.m_taken (value o0)
                      && negb (RecursiveMutexGuard.m_handle (value o0)
                               =? nullptr)%N = true).
      { rewrite Htaken, Hh. apply N.eqb_neq in Hnn. now rewrite Hnn. }
      unfold RecursiveMutexGuard.dtor.
      destruct (xPortInIsrContext w2) eqn:Hisr.
      * rewrite (rec_unlock_isr _ _ Hcond Hisr). cbn [calls].
        exists (S k), failed, gives.
        rewrite !semaphore_calls_app, Hsc, Hs. cbn [semaphore_calls].
        match goal with |- context [semaphore_calls [?e]] =>
          change (semaphore_calls [e]) with (@nil Event) end.
        split; [now rewrite app_nil_r|].
        split; [exact Hf|]. split; [exact Hg|]. split; [lia|].
        split; [lia|]. intros Ht. rewrite Ht in Hisr. discriminate.
      * rewrite (rec_unlock_task _ _ Hcond Hisr). cbv zeta. cbn [calls].
        exists (S k), failed,
          (gives ++ [EvGiveRecursive recursiveMutex
                       (fst (xSemaphoreGiveRecursive recursiveMutex w2))]).
        rewrite !semaphore_calls_app, Hsc, Hs, Hh.
        match goal with |- context [?e :: recursive_unlock_line] =>
          change (e :: recursive_unlock_line)
            with ([e] ++ recursive_unlock_line)
        end.
        rewrite semaphore_calls_app, semaphore_calls_recursive_unlock_line.
        match goal with |- context [semaphore_calls [?e]] =>
          change (semaphore_calls [e]) with [e] end.
        split; [rewrite app_nil_r, <- !app_assoc; reflexivity|].
        split; [exact Hf|].
        split; [apply Forall_app; split; [exact Hg|]; repeat constructor;
                eauto|].
        rewrite length_app. cbn [length].
        split; [lia|]. split; [lia|].
        intros Ht _. rewrite (Hb Ht eq_refl). lia.
    + cbn [value calls]. exists (S k), failed, gives.
      rewrite semaphore_calls_app, Hsc, Hs.
      split; [reflexivity|]. split; [exact Hf|]. split; [exact Hg|].
      split; [lia|]. split; [lia|]. discriminate.
  - cbv zeta. cbn [value calls]. unfold RecursiveMutexGuard.dtor.
    rewrite (rec_unlock_not_held _ _ Htaken). cbn [calls].
    rewrite app_nil_r.
    exists 0%nat, (semaphore_calls (calls o0)), [].
    rewrite app_nil_r. cbn [replicate app length].
    split; [reflexivity|].
    split; [destruct Hc as [->|(r & Hr & ->)]; eauto|].
    repeat split; auto. lia.
Qed.

Lemma unlock_tracked (handle timeout : N) (this : MutexGuard.MutexGuard)
    (w : W) (before : list Event) :
  tracked handle timeout this before ->
  tracked handle timeout (value (MutexGuard.unlock this w))
    (before ++ calls (MutexGuard.unlock this w))
  /\ (xPortInIsrContext w = false ->
      MutexGuard.m_taken (value (MutexGuard.unlock this w)) = false).
Proof.
  intros T. split; [exact (step_tracked handle timeout CallUnlock this w before T)|].
  intros Hisr.
  destruct (MutexGuard.m_taken this
            && negb (MutexGuard.m_handle this =? nullptr)%N) eqn:Hc.
  - now rewrite (unlock_task _ _ Hc Hisr).
  - rewrite (unlock_idle _ _ Hc). cbn [value].
    pose proof (tracked_wf _ _ _ _ T) as Hwf. unfold MutexGuard.wf in Hwf.
    destruct (MutexGuard.m_taken this); [|reflexivity].
    cbn in Hc. apply negb_false_iff, N.eqb_eq in Hc. auto.
Qed.

Lemma tracked_bind {X} (handle timeout : N) (c : M W X)
    (k : X -> M W MutexGuard.MutexGuard) (before : list Event) (w : W) :
  tracked handle timeout (value (k (value (c w)) (world (c w))))
    ((before ++ calls (c w)) ++ calls (k (value (c w)) (world (c w)))) ->
  tracked handle timeout (value (bind c k w)) (before ++ calls (bind c k w)).
Proof. unfold bind. cbn [value calls]. now rewrite app_assoc. Qed.

(** The body of [earlyReleaseExample] between the constructor and the
    destructor keeps the guard tracked. *)
Lemma early_block_tracked (lock : MutexGuard.MutexGuard)
    (before : list Event) (w : W) :
  tracked dataMutex (pdMS_TO_TICKS 100) lock before ->
  let block :=
    (if MutexGuard.hasLock lock then
       Serial_println "Mutex acquired" ;;
       value <- (fun w => mkOut (sharedCounter w) w []) ;;
       lock <- (if (10 <? value)%Z then
                  Serial_println "Releasing mutex early" ;;
                  lock <- MutexGuard.unlock lock ;;
                  delay (pdMS_TO_TICKS 50) ;;
                  ret lock
                else ret lock) ;;
       MutexGuard.unlock lock
     else ret lock) in
  tracked dataMutex (pdMS_TO_TICKS 100) (value (block w))
    (before ++ calls (block w)).
Proof.
  intros T. cbv zeta.
  destruct (MutexGuard.hasLock lock).
  2:{ cbn. now rewrite app_nil_r. }
  apply tracked_bind. cbn [Serial_println Serial_print value world calls].
  rewrite app_nil_r. generalize (Serial_write ("Mutex acquired" ++ CRLF) w).
  intros w2. apply tracked_bind. cbn [value world calls]. rewrite app_nil_r.
  destruct (10 <? sharedCounter w2)%Z.
  - apply tracked_bind.
    assert (T1 : tracked dataMutex (pdMS_TO_TICKS 100)
             (value ((Serial_println "Releasing mutex early" ;;
                      lock0 <- MutexGuard.unlock lock ;;
                      delay (pdMS_TO_TICKS 50) ;; ret lock0) w2))
             (before ++ calls ((Serial_println "Releasing mutex early" ;;
                      lock0 <- MutexGuard.unlock lock ;;
                      delay (pdMS_TO_TICKS 50) ;; ret lock0) w2))).
    { apply tracked_bind. cbn [Serial_println Serial_print value world calls].
      rewrite app_nil_r.
      generalize (Serial_write ("Releasing mutex early" ++ CRLF) w2).
      intros w3. apply tracked_bind.
      pose proof (step_tracked _ _ CallUnlock lock w3 before T) as T1.
      cbn [MutexGuard.step] in T1.
      revert T1. generalize (MutexGuard.unlock lock w3). intros o1 T1.
      apply tracked_bind. cbn [delay ret value world calls].
      now rewrite !app_nil_r. }
    revert T1.
    generalize ((Serial_println "Releasing mutex early" ;;
                 lock0 <- MutexGuard.unlock lock ;;
                 delay (pdMS_TO_TICKS 50) ;; ret lock0) w2).
    intros o T1.
    exact (step_tracked _ _ CallUnlock (value o) (world o) _ T1).
  - apply tracked_bind. cbn [ret value world calls]. rewrite app_nil_r.
    exact (step_tracked _ _ CallUnlock lock w2 _ T).
Qed.

Lemma earlyReleaseExample_tracked (w : W) :
  exists last : MutexGuard.MutexGuard,
    tracked dataMutex (pdMS_TO_TICKS 100) last (calls (earlyReleaseExample w))
    /\ ((forall w', xPortInIsrContext w' = false) ->
        MutexGuard.m_taken last = false).
Proof.
  unfold earlyReleaseExample.
  rewrite bind_calls. cbn [Serial_println Serial_print value world calls].
  rewrite app_nil_l.
  generalize (Serial_write ((LF ++ "--- Early release example ---") ++ CRLF) w).
  intros w1. rewrite bind_calls.
  pose proof (ctor_tracked dataMutex (pdMS_TO_TICKS 100) w1) as T0.
  revert T0. generalize (MutexGuard.ctor dataMutex (pdMS_TO_TICKS 100) w1).
  intros o0 T0. rewrite bind_calls.
  pose proof (early_block_tracked (value o0) (calls o0) (world o0) T0) as T1.
  cbv zeta in T1. revert T1.
  match goal with |- tracked _ _ (value ?b) _ -> _ => generalize b end.
  intros ob T1. rewrite bind_calls. cbn [ret calls]. rewrite app_nil_r.
  unfold MutexGuard.dtor.
  destruct (unlock_tracked _ _ (value ob) (world ob) _ T1) as [T2 H2].
  exists (value (MutexGuard.unlock (value ob) (world ob))).
  rewrite <- app_assoc in T2. split; [exact T2|]. intros Ht. apply H2, Ht.
Qed.
Lemma recursiveFunction_value (depth maxDepth : Z) (w : W) :
  INT_MIN <= depth <= INT_MAX ->
  maxDepth <= INT_MAX ->
  value (recursiveFunction depth maxDepth w) = Some tt.
Proof.
  intros Hd Hm. unfold recursiveFunction.
  apply (within_enough maxDepth _ (S (Z.to_nat (maxDepth - depth)))); lia.
Qed.

(** X14.  [recursiveFunction] returns, for all [int] arguments: the calls nest at
    most [maxDepth - depth] deep below the first, the bound built into the
    model is never reached, and any larger bound gives the same run.  The
    argument [depth + 1] of the inner call does not overflow. *)
Theorem recursiveFunction_returns (depth maxDepth : Z) (w : W) :
  INT_MIN <= depth <= INT_MAX ->
  maxDepth <= INT_MAX ->
  value (recursiveFunction depth maxDepth w) = Some tt
  /\ (forall bound : nat,
         (Z.to_nat (maxDepth - depth) < bound)%nat ->
         recursiveFunction_within bound depth maxDepth w
         = recursiveFunction depth maxDepth w).
Proof.
  intros Hd Hm. unfold recursiveFunction. split.
  - apply (within_enough maxDepth _ (S (Z.to_nat (maxDepth - depth)))); lia.
  - intros bound Hb.
    apply (within_enough maxDepth bound (S (Z.to_nat (maxDepth - depth))));
      lia.
Qed.

(** X15.  The guards of [recursiveFunction] nest.  The semaphore calls of a run
    are [k] successful recursive takes of [recursiveMutex], then at most one
    take that failed (and ended the descent), then recursive gives of the
    same handle, no more of them than takes.  The first guard is built
    before the depths are compared, so [k] is at most one more than
    [maxDepth - depth] when [depth <= maxDepth] and at most one otherwise:
    at most [max 0 (maxDepth - depth) + 1] in both cases.  Nothing else is
    called on any semaphore.  On a
    kernel that is never in interrupt context there are exactly [k] gives:
    every level gives back what it took, on the early [return] too. *)
Theorem recursiveFunction_nests (depth maxDepth : Z) (w : W) :
  INT_MIN <= depth <= INT_MAX ->
  maxDepth <= INT_MAX ->
  let l := calls (recursiveFunction depth maxDepth w) in
  exists k : nat,
    nested recursiveMutex (pdMS_TO_TICKS 100) k l
    /\ Z.of_nat k <= Z.max 0 (maxDepth - depth) + 1
    /\ ((forall w', xPortInIsrContext w' = false) ->
        length (releases l) = k).
Proof.
  intros Hd Hm l. subst l.
  destruct (within_nested maxDepth (S (Z.to_nat (maxDepth - depth))) depth w)
    as (k & failed & gives & Hs & Hf & Hg & Hl & Hk & Hb).
  fold (recursiveFunction depth maxDepth) in *.
  exists k. split; [exists failed, gives; auto|]. split; [lia|].
  intros Ht. rewrite <- releases_of_semaphore_calls, Hs.
  rewrite (releases_nested _ _ _ _ _ Hf Hg).
  apply Hb; [exact Ht|].
  apply (recursiveFunction_value depth maxDepth w Hd Hm).
Qed.

(** X16.  [earlyReleaseExample] gives [dataMutex] back at most once, although it
    calls [unlock()] once or twice and then runs the destructor: its
    semaphore calls are none, the one take, or the successful take and one
    give, whatever [sharedCounter] reads.  On a kernel that is never in
    interrupt context a successful take is always followed by its give. *)
Theorem earlyReleaseExample_gives_once (w : W) :
  let l := semaphore_calls (calls (earlyReleaseExample w)) in
  (l = []
   \/ (exists r, l = [EvTake dataMutex (pdMS_TO_TICKS 100) r])
   \/ (exists r, l = [EvTake dataMutex (pdMS_TO_TICKS 100) pdTRUE;
                      EvGive dataMutex r]))
  /\ ((forall w', xPortInIsrContext w' = false) ->
      l = []
      \/ (exists r, r <> pdTRUE
                    /\ l = [EvTake dataMutex (pdMS_TO_TICKS 100) r])
      \/ (exists r, l = [EvTake dataMutex (pdMS_TO_TICKS 100) pdTRUE;
                         EvGive dataMutex r])).
Proof.
  cbv zeta. destruct (earlyReleaseExample_tracked w) as (last & [_ T] & Hlast).
  split.
  - destruct (MutexGuard.m_taken last).
    + destruct T as (_ & _ & Hc). right. left. eauto.
    + destruct T as [Hc | [(r & _ & _ & _ & Hc) | (r & _ & _ & Hc)]]; eauto.
  - intros Ht. rewrite (Hlast Ht) in T.
    destruct T as [Hc | [(r & Hr & _ & _ & Hc) | (r & _ & _ & Hc)]]; eauto.
Qed.
End SketchFacts.

(** ** Concrete runs of the later sections *)

Lemma no_second_attempt_witness :
  MutexGuard.hasLock
    (value (MutexGuard.run (F := Kernel.release_build) [CallHasLock]
              (value Scenes.built) (world Scenes.built))) = true
  /\ RecursiveMutexGuard.hasLock
       (value (RecursiveMutexGuard.run (F := Kernel.release_build)
                 [CallHasLock] (value Scenes.built_recursive)
                 (world Scenes.built))) = true
  /\ MutexGuard.hasLock (value Scenes.built) = true
  /\ RecursiveMutexGuard.hasLock (value Scenes.built_recursive) = true
  /\ acquisitions
       (calls (MutexGuard.run (F := Kernel.release_build) [CallHasLock]
                 (value Scenes.built) (world Scenes.built))) = [].
Proof.
  assert (Ha : MutexGuard.hasLock
                 (value (MutexGuard.run (F := Kernel.release_build)
                           [CallHasLock] (value Scenes.built)
                           (world Scenes.built))) = true)
    by (vm_compute; reflexivity).
  assert (Hb : RecursiveMutexGuard.hasLock
                 (value (RecursiveMutexGuard.run (F := Kernel.release_build)
                           [CallHasLock] (value Scenes.built_recursive)
                           (world Scenes.built))) = true)
    by (vm_compute; reflexivity).
  destruct (no_second_attempt (F := Kernel.release_build) [CallHasLock]
              (value Scenes.built) (value Scenes.built_recursive)
              (world Scenes.built))
    as [(_ & _ & Hacq & A) (_ & _ & _ & B)].
  split; [exact Ha|]. split; [exact Hb|]. split; [exact (A Ha)|].
  split; [exact (B Hb) | exact Hacq].
Defined.

Lemma refused_unlock_can_be_repeated_witness :
  xPortInIsrContext Scenes.interrupted = true
  /\ xPortInIsrContext (world Scenes.built) = false
  /\ MutexGuard.hasLock (value Scenes.built) = true
  /\ MutexGuard.isValid (value Scenes.built) = true
  /\ RecursiveMutexGuard.hasLock (value Scenes.built_recursive) = true
  /\ RecursiveMutexGuard.isValid (value Scenes.built_recursive) = true
  /\ MutexGuard.hasLock
       (value (MutexGuard.unlock (F := Kernel.release_build)
                 (value (MutexGuard.unlock (F := Kernel.release_build)
                           (value Scenes.built) Scenes.interrupted))
                 (world Scenes.built))) = false
  /\ RecursiveMutexGuard.hasLock
       (value (RecursiveMutexGuard.unlock (F := Kernel.release_build)
                 (value (RecursiveMutexGuard.unlock
                           (F := Kernel.release_build)
                           (value Scenes.built_recursive) Scenes.interrupted))
                 (world Scenes.built))) = false.
Proof.
  assert (H1 : xPortInIsrContext Scenes.interrupted = true) by reflexivity.
  assert (H2 : xPortInIsrContext (world Scenes.built) = false) by reflexivity.
  assert (H3 : MutexGuard.hasLock (value Scenes.built) = true)
    by (vm_compute; reflexivity).
  assert (H4 : MutexGuard.isValid (value Scenes.built) = true)
    by (vm_compute; reflexivity).
  assert (H5 : RecursiveMutexGuard.hasLock (value Scenes.built_recursive)
               = true) by (vm_compute; reflexivity).
  assert (H6 : RecursiveMutexGuard.isValid (value Scenes.built_recursive)
               = true) by (vm_compute; reflexivity).
  destruct (refused_unlock_can_be_repeated (F := Kernel.release_build)
              (value Scenes.built) (value Scenes.built_recursive)
              Scenes.interrupted (world Scenes.built) H1 H2) as [A B].
  destruct (A H3 H4) as (_ & _ & _ & Ha & _).
  destruct (B H5 H6) as (_ & _ & _ & Hb & _).
  repeat split; assumption.
Defined.

Lemma dead_guard_stays_dead_witness :
  (Scenes.testMutex = nullptr \/ xPortInIsrContext Scenes.in_handler = true)
  /\ semaphore_calls
       (calls (MutexGuard.lifetime (F := Kernel.release_build)
                 Scenes.testMutex 100 Scenes.back_in_task Scenes.in_handler))
     = []
  /\ RecursiveMutexGuard.isValid
       (value (RecursiveMutexGuard.lifetime (F := Kernel.release_build)
                 Scenes.testMutex 100 Scenes.back_in_task Scenes.in_handler))
     = false.
Proof.
  assert (H : Scenes.testMutex = nullptr
              \/ xPortInIsrContext Scenes.in_handler = true)
    by (right; reflexivity).
  destruct (dead_guard_stays_dead (F := Kernel.release_build)
              Scenes.testMutex 100 Scenes.back_in_task Scenes.in_handler H)
    as [(_ & Ha & _) (_ & _ & _ & _ & Hb)].
  split; [exact H|]. split; [exact Ha | exact Hb].
Defined.

Lemma log_lines_of_a_life_witness :
  @MUTEX_GUARD_DEBUG Kernel.release_build = false
  /\ @RECURSIVE_MUTEX_GUARD_DEBUG Kernel.release_build = false
  /\ infos (calls (MutexGuard.lifetime (F := Kernel.release_build)
                     Scenes.testMutex 100 Scenes.back_in_task Scenes.idle))
     = []
  /\ infos (calls (RecursiveMutexGuard.lifetime (F := Kernel.release_build)
                     Scenes.testMutex 100 Scenes.back_in_task Scenes.idle))
     = [].
Proof.
  assert (H1 : @MUTEX_GUARD_DEBUG Kernel.release_build = false)
    by reflexivity.
  assert (H2 : @RECURSIVE_MUTEX_GUARD_DEBUG Kernel.release_build = false)
    by reflexivity.
  destruct (log_lines_of_a_life Kernel.release_build Scenes.testMutex 100
              Scenes.back_in_task Scenes.idle)
    as [(_ & _ & A) (_ & _ & B)].
  split; [exact H1|]. split; [exact H2|]. split; [exact (A H1) | exact (B H2)].
Defined.

Lemma push_enqueues_witness :
  ThreadSafeBuffer.wf Stage.two_stored
  /\ fst (value (ThreadSafeBuffer.push (F := Kernel.release_build)
                   (C := Stage.ticks_1kHz) Stage.two_stored 9 Scenes.idle))
     = true
  /\ ThreadSafeBuffer.contents
       (snd (value (ThreadSafeBuffer.push (F := Kernel.release_build)
                      (C := Stage.ticks_1kHz) Stage.two_stored 9 Scenes.idle)))
     = [7; 8; 9].
Proof.
  assert (Hwf : ThreadSafeBuffer.wf Stage.two_stored)
    by (repeat split; vm_compute; try reflexivity; discriminate).
  destruct (push_enqueues (F := Kernel.release_build) (C := Stage.ticks_1kHz)
              Stage.two_stored 9 Scenes.idle Hwf) as (Hok & Hc & _).
  split; [exact Hwf|]. split.
  - rewrite Hok. vm_compute. reflexivity.
  - rewrite Hc, Hok. vm_compute. reflexivity.
Defined.

Lemma pop_dequeues_witness :
  ThreadSafeBuffer.wf Stage.two_stored
  /\ fst (value (ThreadSafeBuffer.pop (F := Kernel.release_build)
                   (C := Stage.ticks_1kHz) Stage.two_stored 0 Scenes.idle))
     = (true, 7)
  /\ ThreadSafeBuffer.wf
       (snd (value (ThreadSafeBuffer.pop (F := Kernel.release_build)
                      (C := Stage.ticks_1kHz) Stage.two_stored 0 Scenes.idle))).
Proof.
  assert (Hwf : ThreadSafeBuffer.wf Stage.two_stored)
    by (repeat split; vm_compute; try reflexivity; discriminate).
  destruct (pop_dequeues (F := Kernel.release_build) (C := Stage.ticks_1kHz)
              Stage.two_stored 0 Scenes.idle Hwf) as (_ & _ & Hwf' & _).
  split; [exact Hwf|]. split; [vm_compute; reflexivity | exact Hwf'].
Defined.

Lemma size_counts_witness :
  ThreadSafeBuffer.wf Stage.two_stored
  /\ value (ThreadSafeBuffer.size (F := Kernel.release_build)
              (C := Stage.ticks_1kHz) Stage.two_stored Scenes.idle) = 2
  /\ value (ThreadSafeBuffer.size (F := Kernel.release_build)
              (C := Stage.ticks_1kHz) Stage.two_stored Scenes.contended) = 0.
Proof.
  assert (Hwf : ThreadSafeBuffer.wf Stage.two_stored)
    by (repeat split; vm_compute; try reflexivity; discriminate).
  destruct (size_counts (F := Kernel.release_build) (C := Stage.ticks_1kHz)
              Stage.two_stored Scenes.idle Hwf) as (Ha & _).
  destruct (size_counts (F := Kernel.release_build) (C := Stage.ticks_1kHz)
              Stage.two_stored Scenes.contended Hwf) as (Hb & _).
  split; [exact Hwf|]. split.
  - rewrite Ha. vm_compute. reflexivity.
  - rewrite Hb. vm_compute. reflexivity.
Defined.

Lemma push_then_pop_witness :
  ThreadSafeBuffer.wf (ThreadSafeBuffer.ctor 1)
  /\ fst (value (ThreadSafeBuffer.push (F := Kernel.release_build)
                   (C := Stage.ticks_1kHz) (ThreadSafeBuffer.ctor 1) 5
                   Scenes.idle)) = true
  /\ fst (fst (value
       (ThreadSafeBuffer.pop (F := Kernel.release_build)
          (C := Stage.ticks_1kHz)
          (snd (value (ThreadSafeBuffer.push (F := Kernel.release_build)
                         (C := Stage.ticks_1kHz) (ThreadSafeBuffer.ctor 1) 5
                         Scenes.idle)))
          0 Scenes.idle))) = true
  /\ ThreadSafeBuffer.count (ThreadSafeBuffer.ctor 1) = 0
  /\ snd (fst (value
       (ThreadSafeBuffer.pop (F := Kernel.release_build)
          (C := Stage.ticks_1kHz)
          (snd (value (ThreadSafeBuffer.push (F := Kernel.release_build)
                         (C := Stage.ticks_1kHz) (ThreadSafeBuffer.ctor 1) 5
                         Scenes.idle)))
          0 Scenes.idle))) = 5.
Proof.
  assert (Hwf : ThreadSafeBuffer.wf (ThreadSafeBuffer.ctor 1))
    by (repeat split; vm_compute; try reflexivity; discriminate).
  assert (H1 : fst (value (ThreadSafeBuffer.push (F := Kernel.release_build)
                             (C := Stage.ticks_1kHz) (ThreadSafeBuffer.ctor 1)
                             5 Scenes.idle)) = true)
    by (vm_compute; reflexivity).
  assert (H2 : fst (fst (value
       (ThreadSafeBuffer.pop (F := Kernel.release_build)
          (C := Stage.ticks_1kHz)
          (snd (value (ThreadSafeBuffer.push (F := Kernel.release_build)
                         (C := Stage.ticks_1kHz) (ThreadSafeBuffer.ctor 1) 5
                         Scenes.idle)))
          0 Scenes.idle))) = true) by (vm_compute; reflexivity).
  assert (H3 : ThreadSafeBuffer.count (ThreadSafeBuffer.ctor 1) = 0)
    by reflexivity.
  destruct (push_then_pop (F := Kernel.release_build) (C := Stage.ticks_1kHz)
              (ThreadSafeBuffer.ctor 1) 5 0 Scenes.idle Scenes.idle
              Hwf H1 H2) as [_ Hz].
  destruct (Hz H3) as [Hv _].
  split; [exact Hwf|]. split; [exact H1|]. split; [exact H2|].
  split; [exact H3 | exact Hv].
Defined.

Lemma buffer_without_mutex_witness :
  ThreadSafeBuffer.mutex Stage.no_mutex = nullptr
  /\ forallb ThreadSafeBuffer.refused
       (fst (value (ThreadSafeBuffer.calls_in_turn (F := Kernel.release_build)
                      (C := Stage.ticks_1kHz) Stage.some_calls Stage.no_mutex
                      Scenes.idle))) = true
  /\ semaphore_calls
       (calls (ThreadSafeBuffer.calls_in_turn (F := Kernel.release_build)
                 (C := Stage.ticks_1kHz) Stage.some_calls Stage.no_mutex
                 Scenes.idle)) = [].
Proof.
  assert (H : ThreadSafeBuffer.mutex Stage.no_mutex = nullptr)
    by reflexivity.
  destruct (buffer_without_mutex (F := Kernel.release_build)
              (C := Stage.ticks_1kHz) Stage.some_calls Stage.no_mutex
              Scenes.idle H) as (_ & Ha & _ & Hb).
  split; [exact H|]. split; [exact Ha | exact Hb].
Defined.

Lemma buffer_is_a_bounded_queue_witness :
  ThreadSafeBuffer.wf Stage.two_stored
  /\ fst (value (ThreadSafeBuffer.calls_in_turn (F := Kernel.release_build)
                   (C := Stage.ticks_1kHz) Stage.some_calls Stage.two_stored
                   Scenes.idle))
     = [ThreadSafeBuffer.Pushed true; ThreadSafeBuffer.Sized 3;
        ThreadSafeBuffer.Popped true 7; ThreadSafeBuffer.Popped true 8]
  /\ ThreadSafeBuffer.contents
       (snd (value (ThreadSafeBuffer.calls_in_turn (F := Kernel.release_build)
                      (C := Stage.ticks_1kHz) Stage.some_calls
                      Stage.two_stored Scenes.idle)))
     = [9]
  /\ ThreadSafeBuffer.wf
       (snd (value (ThreadSafeBuffer.calls_in_turn (F := Kernel.release_build)
                      (C := Stage.ticks_1kHz) Stage.some_calls
                      Stage.two_stored Scenes.idle))).
Proof.
  assert (Hwf : ThreadSafeBuffer.wf Stage.two_stored)
    by (repeat split; vm_compute; try reflexivity; discriminate).
  destruct (buffer_is_a_bounded_queue (F := Kernel.release_build)
              (C := Stage.ticks_1kHz) 1 Stage.some_calls Stage.two_stored
              Scenes.idle) as [_ Hq].
  destruct (Hq Hwf) as (_ & Hwf' & _).
  split; [exact Hwf|]. split; [vm_compute; reflexivity|].
  split; [vm_compute; reflexivity | exact Hwf'].
Defined.

Lemma recursiveFunction_returns_witness :
  Sketch.INT_MIN <= 1 <= Sketch.INT_MAX
  /\ 3 <= Sketch.INT_MAX
  /\ (Z.to_nat (3 - 1) < 10)%nat
  /\ value (Sketch.recursiveFunction (F := Kernel.release_build)
              (C := Stage.ticks_1kHz) (A := Stage.board) (G := Stage.globals)
              1 3 Scenes.idle) = Some tt
  /\ Sketch.recursiveFunction_within (F := Kernel.release_build)
       (C := Stage.ticks_1kHz) (A := Stage.board) (G := Stage.globals)
       10 1 3 Scenes.idle
     = Sketch.recursiveFunction (F := Kernel.release_build)
         (C := Stage.ticks_1kHz) (A := Stage.board) (G := Stage.globals)
         1 3 Scenes.idle.
Proof.
  assert (H1 : Sketch.INT_MIN <= 1 <= Sketch.INT_MAX)
    by (unfold Sketch.INT_MIN, Sketch.INT_MAX; lia).
  assert (H2 : 3 <= Sketch.INT_MAX) by (unfold Sketch.INT_MAX; lia).
  assert (H3 : (Z.to_nat (3 - 1) < 10)%nat) by (vm_compute; lia).
  destruct (recursiveFunction_returns (F := Kernel.release_build)
              (C := Stage.ticks_1kHz) (A := Stage.board) (G := Stage.globals)
              1 3 Scenes.idle H1 H2) as [Hv Hb].
  split; [exact H1|]. split; [exact H2|]. split; [exact H3|].
  split; [exact Hv | exact (Hb 10%nat H3)].
Defined.

(** Called with [depth] above [maxDepth], [recursiveFunction] still builds
    its guard before it compares the depths: one take and one give. *)
Example recursiveFunction_past_maxDepth :
  semaphore_calls
    (calls (Sketch.recursiveFunction (R := Stage.task_rtos)
              (F := Kernel.release_build) (C := Stage.ticks_1kHz)
              (A := Stage.board) (G := Stage.globals) 5 3 Scenes.idle))
  = [EvTakeRecursive 2%N 100%N pdTRUE; EvGiveRecursive 2%N pdTRUE].
Proof. vm_compute. reflexivity. Qed.

Lemma recursiveFunction_nests_witness :
  Sketch.INT_MIN <= 1 <= Sketch.INT_MAX
  /\ 3 <= Sketch.INT_MAX
  /\ (forall k : Kernel.State,
         @xPortInIsrContext Kernel.State Stage.task_rtos k = false)
  /\ exists k : nat,
       Sketch.nested 2%N 100%N k
         (calls (Sketch.recursiveFunction (R := Stage.task_rtos)
                   (F := Kernel.release_build) (C := Stage.ticks_1kHz)
                   (A := Stage.board) (G := Stage.globals) 1 3 Scenes.idle))
       /\ Z.of_nat k <= 3
       /\ length
            (releases
               (calls (Sketch.recursiveFunction (R := Stage.task_rtos)
                         (F := Kernel.release_build) (C := Stage.ticks_1kHz)
                         (A := Stage.board) (G := Stage.globals)
                         1 3 Scenes.idle))) = k.
Proof.
  assert (H1 : Sketch.INT_MIN <= 1 <= Sketch.INT_MAX)
    by (unfold Sketch.INT_MIN, Sketch.INT_MAX; lia).
  assert (H2 : 3 <= Sketch.INT_MAX) by (unfold Sketch.INT_MAX; lia).
  assert (H3 : forall k : Kernel.State,
             @xPortInIsrContext Kernel.State Stage.task_rtos k = false)
    by (intros k; reflexivity).
  destruct (recursiveFunction_nests (R := Stage.task_rtos)
              (F := Kernel.release_build) (C := Stage.ticks_1kHz)
              (A := Stage.board) (G := Stage.globals) 1 3 Scenes.idle H1 H2)
    as (k & Hn & Hk & Hb).
  split; [exact H1|]. split; [exact H2|]. split; [exact H3|].
  exists k. split; [exact Hn|]. split; [exact Hk | exact (Hb H3)].
Defined.

Lemma earlyReleaseExample_gives_once_witness :
  (forall k : Kernel.State,
      @xPortInIsrContext Kernel.State Stage.task_rtos k = false)
  /\ (semaphore_calls
        (calls (Sketch.earlyReleaseExample (R := Stage.task_rtos)
                  (F := Kernel.release_build) (C := Stage.ticks_1kHz)
                  (A := Stage.board) (G := Stage.globals) Scenes.idle)) = []
      \/ (exists r, r <> pdTRUE
            /\ semaphore_calls
                 (calls (Sketch.earlyReleaseExample (R := Stage.task_rtos)
                           (F := Kernel.release_build) (C := Stage.ticks_1kHz)
                           (A := Stage.board) (G := Stage.globals)
                           Scenes.idle))
               = [EvTake 1%N 100%N r])
      \/ (exists r,
            semaphore_calls
              (calls (Sketch.earlyReleaseExample (R := Stage.task_rtos)
                        (F := Kernel.release_build) (C := Stage.ticks_1kHz)
                        (A := Stage.board) (G := Stage.globals) Scenes.idle))
            = [EvTake 1%N 100%N pdTRUE; EvGive 1%N r])).
Proof.
  assert (H : forall k : Kernel.State,
             @xPortInIsrContext Kernel.State Stage.task_rtos k = false)
    by (intros k; reflexivity).
  destruct (earlyReleaseExample_gives_once (R := Stage.task_rtos)
              (F := Kernel.release_build) (C := Stage.ticks_1kHz)
              (A := Stage.board) (G := Stage.globals) Scenes.idle)
    as [_ Hb].
  split; [exact H | exact (Hb H)].
Defined.
